(** * SCONE heatmap records: decoding and per-event feature extraction

    A shallow embedding of [extract_tfrecord_info.py].  Flux values are
    IEEE-754 binary64 numbers, modelled by Rocq's primitive floats, so
    that every arithmetic step of the script rounds here as it does in
    NumPy.  Two conventions are fixed once and for all:

    - a 2-D array is the list of its rows (row-major order); a decoded
      record has [NUM_WAVELENGTH_BINS] rows of [NUM_MJD_BINS] entries;
    - a sum along the rows of a 2-D array ([axis=0]) accumulates row by
      row from [0.0]; every other sum runs over a contiguous run of
      values and follows NumPy's pairwise routine (eight accumulators,
      blocks of at most 128 values), see [pairwise_sum].

    Python exceptions are modelled by [None] (NumPy) and by the left
    injection of a sum (TensorFlow decode errors). *)

From Stdlib Require Import String Ascii ZArith List Bool Lia.
From Stdlib Require Import Floats.
From Stdlib Require Uint63.
From Stdlib.Strings Require Byte.
Import ListNotations.

Open Scope float_scope.

(** ** Binary64 helpers *)

Definition float_of_nat (n : nat) : float :=
  of_uint63 (Uint63.of_Z (Z.of_nat n)).

Definition float_of_Z (z : Z) : float :=
  if (z <? 0)%Z then - of_uint63 (Uint63.of_Z (- z))
  else of_uint63 (Uint63.of_Z z).

(** The binary64 value of a 64-bit pattern: sign bit 63, biased exponent
    in bits 62..52, fraction in bits 51..0. *)
Definition float_of_bits (b : Z) : float :=
  let s := Z.testbit b 63 in
  let e := Z.land (Z.shiftr b 52) 2047 in
  let m := Z.land b (Z.ones 52) in
  if (e =? 2047)%Z then
    if (m =? 0)%Z then (if s then neg_infinity else infinity) else nan
  else if (e =? 0)%Z then
    match m with
    | Zpos p => SF2Prim (S754_finite s p (-1074))
    | _ => if s then neg_zero else zero
    end
  else
    match (m + 2 ^ 52)%Z with
    | Zpos p => SF2Prim (S754_finite s p (e - 1075))
    | _ => nan
    end.

(** Little-endian value of a run of bytes. *)
Fixpoint le_bytes_to_Z (bs : list Byte.byte) : Z :=
  match bs with
  | [] => 0%Z
  | b :: r => (Z.of_N (Byte.to_N b) + 256 * le_bytes_to_Z r)%Z
  end.

(** ** The NumPy operations the script uses *)

(** Accumulation from left to right, starting from [0.0]: what
    [np.add.reduce] does along an axis that is not contiguous in memory
    ([axis=0] of a row-major array). *)
Definition sequential_sum (a : list float) : float := fold_left add a 0.

(** The unrolled loop of NumPy's pairwise routine: each further run of
    eight values is added to the eight accumulators; the values left
    over (fewer than eight) are returned. *)
Definition Accumulators : Type :=
  (float * float * float * float * float * float * float * float)%type.

Fixpoint accumulate (r : Accumulators) (a : list float)
  : Accumulators * list float :=
  match a with
  | a0 :: a1 :: a2 :: a3 :: a4 :: a5 :: a6 :: a7 :: rest =>
      let '(r0, r1, r2, r3, r4, r5, r6, r7) := r in
      accumulate (r0 + a0, r1 + a1, r2 + a2, r3 + a3,
                  r4 + a4, r5 + a5, r6 + a6, r7 + a7) rest
  | _ => (r, a)
  end.

(** A run of at most 128 values: fewer than eight are added from left
    to right; otherwise the eight accumulators start with the first
    eight values, are combined as a balanced tree, and the values left
    over are added one by one. *)
Definition pairwise_block (a : list float) : float :=
  match a with
  | a0 :: a1 :: a2 :: a3 :: a4 :: a5 :: a6 :: a7 :: rest =>
      let '(r0, r1, r2, r3, r4, r5, r6, r7, tail) :=
        accumulate (a0, a1, a2, a3, a4, a5, a6, a7) rest in
      fold_left add tail
        (((r0 + r1) + (r2 + r3)) + ((r4 + r5) + (r6 + r7)))
  | _ => fold_left add a 0
  end.

Definition PW_BLOCKSIZE : nat := 128.

(** A longer run is split in two, the first part a multiple of eight,
    and the two sums are added.  [depth] bounds the number of nested
    splits; [pairwise_sum] passes the length of the run, which is more
    than the splits need (see [pairwise_sum_rec_depth]). *)
Fixpoint pairwise_sum_rec (depth : nat) (a : list float) : float :=
  match depth with
  | O => pairwise_block a
  | S depth' =>
      let n := length a in
      if (n <=? PW_BLOCKSIZE)%nat then pairwise_block a
      else
        let n2 := (n / 2 - (n / 2) mod 8)%nat in
        pairwise_sum_rec depth' (firstn n2 a)
        + pairwise_sum_rec depth' (skipn n2 a)
  end.

Definition pairwise_sum (a : list float) : float :=
  pairwise_sum_rec (length a) a.

(** [np.sum] of a contiguous run of values: the result starts as the
    identity [0.0], to which the pairwise sum of the run is added. *)
Definition np_sum (a : list float) : float := 0 + pairwise_sum a.

Definition np_mean (a : list float) : float :=
  np_sum a / float_of_nat (length a).

(** [np.maximum]: the first operand wins unless the second is strictly
    larger; a NaN first operand is kept, a NaN second operand replaces. *)
Definition np_maximum (x y : float) : float :=
  if (y <=? x) || is_nan x then x else y.

Definition np_max (a : list float) : option float :=
  match a with
  | [] => None
  | x :: r => Some (fold_left np_maximum r x)
  end.

(** [np.argmax] scans once, replacing the running maximum [mp] only at an
    entry that is not [<= mp]; a NaN maximum ends the scan. *)
Fixpoint argmax_from (mp : float) (max_ind i : nat) (a : list float) : nat :=
  match a with
  | [] => max_ind
  | x :: r =>
      if is_nan mp then max_ind
      else if negb (x <=? mp) then argmax_from x i (S i) r
      else argmax_from mp max_ind (S i) r
  end.

Definition np_argmax (a : list float) : option nat :=
  match a with
  | [] => None
  | x :: r => Some (argmax_from x 0 1 r)
  end.

Fixpoint argmin_from (mp : float) (min_ind i : nat) (a : list float) : nat :=
  match a with
  | [] => min_ind
  | x :: r =>
      if is_nan mp then min_ind
      else if negb (mp <=? x) then argmin_from x i (S i) r
      else argmin_from mp min_ind (S i) r
  end.

Definition np_argmin (a : list float) : option nat :=
  match a with
  | [] => None
  | x :: r => Some (argmin_from x 0 1 r)
  end.

Fixpoint insert_sorted (x : float) (s : list float) : list float :=
  match s with
  | [] => [x]
  | y :: r => if x <=? y then x :: s else y :: insert_sorted x r
  end.

Definition np_sort (a : list float) : list float :=
  fold_right insert_sorted [] a.

(** Python's [a[i:j]] for [0 <= i], [0 <= j]. *)
Definition slice {A} (i j : nat) (a : list A) : list A :=
  firstn (j - i) (skipn i a).

(** [np.median]: NaN as soon as one entry is NaN, else the mean of the
    middle entry (odd length) or of the two middle entries. *)
Definition np_median (a : list float) : float :=
  if existsb is_nan a then nan
  else
    let s := np_sort a in
    let n := length a in
    if Nat.even n then np_mean (slice (n / 2 - 1) (n / 2 + 1) s)
    else np_mean (slice (n / 2) (n / 2 + 1) s).

Definition np_std (a : list float) : float :=
  let m := np_mean a in
  PrimFloat.sqrt (np_mean (map (fun x => (x - m) * (x - m)) a)).

Definition np_any (c : list bool) : bool := existsb (fun b => b) c.

(** [np.where(c)[0]]: the indices at which [c] holds, increasing. *)
Definition np_flatnonzero (c : list bool) : list nat :=
  filter (fun i => nth i c false) (seq 0 (length c)).

Definition count_true (c : list bool) : nat :=
  length (filter (fun b => b) c).

Fixpoint set_last {A} (a : list A) (v : A) : list A :=
  match a with
  | [] => []
  | [_] => [v]
  | x :: r => x :: set_last r v
  end.

Definition np_linspace (start stop : float) (num : nat) : list float :=
  let div := (num - 1)%nat in
  let delta := stop - start in
  let y := map float_of_nat (seq 0 num) in
  let y :=
    if (0 <? div)%nat then
      let step := delta / float_of_nat div in
      if step =? 0 then map (fun v => (v / float_of_nat div) * delta) y
      else map (fun v => v * step) y
    else map (fun v => v * delta) y in
  let y := map (fun v => v + start) y in
  if (1 <? num)%nat then set_last y stop else y.

(** ** Two-dimensional arrays *)

Definition ndarray2 := list (list float).

Definition shape (a : ndarray2) : nat * nat := (length a, length (hd [] a)).
Definition size (a : ndarray2) : nat := (fst (shape a) * snd (shape a))%nat.
Definition ravel (a : ndarray2) : list float := concat a.

(** [a[w, t]], with Python's IndexError as [None]. *)
Definition getitem2 (a : ndarray2) (w t : nat) : option float :=
  match nth_error a w with
  | Some r => nth_error r t
  | None => None
  end.

Definition column (a : ndarray2) (t : nat) : list float :=
  map (fun r => nth t r 0) a.

(** [np.sum(a, axis=0)] and friends. *)
Definition np_sum_axis0 (a : ndarray2) : list float :=
  map (fun t => sequential_sum (column a t)) (seq 0 (snd (shape a))).

Definition np_any_axis0 (c : list (list bool)) : list bool :=
  map (fun t => np_any (map (fun r => nth t r false) c))
      (seq 0 (length (hd [] c))).

Definition np_any_axis1 (c : list (list bool)) : list bool :=
  map np_any c.

(** [a[mask, :]]: the rows whose mask entry is true; IndexError when the
    mask does not have one entry per row. *)
Fixpoint select_rows (mask : list bool) (a : ndarray2) : list (list float) :=
  match mask, a with
  | b :: m, r :: a' => if b then r :: select_rows m a' else select_rows m a'
  | _, _ => []
  end.

Definition mask_rows (mask : list bool) (a : ndarray2) : option ndarray2 :=
  if (length mask =? length a)%nat then Some (select_rows mask a) else None.

Fixpoint zip_with {A B C} (f : A -> B -> C) (a : list A) (b : list B) : list C :=
  match a, b with
  | x :: a', y :: b' => f x y :: zip_with f a' b'
  | _, _ => []
  end.

(** Elementwise operation on two arrays of one shape (ValueError when the
    shapes differ; broadcasting between different shapes does not arise
    for the two channels of one record and is not modelled). *)
Definition elementwise2 {C} (f : float -> float -> C) (a b : ndarray2)
  : option (list (list C)) :=
  if ((fst (shape a) =? fst (shape b)) && (snd (shape a) =? snd (shape b)))%nat
  then Some (zip_with (zip_with f) a b)
  else None.

(** [np.where(c, x, y)] with a scalar [y]. *)
Definition np_where {A} (c : list (list bool)) (x : list (list A)) (y : A)
  : list (list A) :=
  zip_with (zip_with (fun (b : bool) v => if b then v else y)) c x.

(** [np.unravel_index(i, shape)] for a 2-D shape (ValueError when [i] is
    not below the size). *)
Definition np_unravel_index (i : nat) (sh : nat * nat) : option (nat * nat) :=
  if (i <? fst sh * snd sh)%nat then Some ((i / snd sh)%nat, (i mod snd sh)%nat)
  else None.

Definition last_error {A} (l : list A) : option A :=
  nth_error l (length l - 1).

(** Exceptions raised by NumPy are threaded as [None]. *)
Definition bind {A B} (m : option A) (k : A -> option B) : option B :=
  match m with
  | Some x => k x
  | None => None
  end.

Notation "x <- m ;; k" := (bind m (fun x => k))
  (at level 61, m at next level, right associativity).
Notation "' p <- m ;; k" := (bind m (fun p => k))
  (at level 61, p pattern, m at next level, right associativity).

(** ** Configuration *)

Record Config := {
  NUM_WAVELENGTH_BINS : nat;
  NUM_MJD_BINS : nat;
  WAVELENGTH_MIN : Z;
  WAVELENGTH_MAX : Z;
  MJD_RANGE_START : Z;
  MJD_RANGE_END : Z
}.

(** The constants of the script. *)
Definition SCONE : Config := {|
  NUM_WAVELENGTH_BINS := 32;
  NUM_MJD_BINS := 180;
  WAVELENGTH_MIN := 3000;
  WAVELENGTH_MAX := 10100;
  MJD_RANGE_START := -50;
  MJD_RANGE_END := 130
|}.

Definition INPUT_SHAPE (cfg : Config) : nat * nat * nat :=
  (NUM_WAVELENGTH_BINS cfg, NUM_MJD_BINS cfg, 2%nat).

Definition valid_config (cfg : Config) : Prop :=
  (0 < NUM_WAVELENGTH_BINS cfg)%nat /\ (0 < NUM_MJD_BINS cfg)%nat.

Definition get_wavelength_array (cfg : Config) : list float :=
  np_linspace (float_of_Z (WAVELENGTH_MIN cfg)) (float_of_Z (WAVELENGTH_MAX cfg))
              (NUM_WAVELENGTH_BINS cfg).

Definition get_mjd_array (cfg : Config) : list float :=
  np_linspace (float_of_Z (MJD_RANGE_START cfg)) (float_of_Z (MJD_RANGE_END cfg))
              (NUM_MJD_BINS cfg).

(** ** Serialized records and the grid decoder *)

Inductive Feature :=
| BytesList (v : list (list Byte.byte))
| FloatList (v : list float)
| Int64List (v : list Z).

(** A [tf.train.Example]: its feature map, in serialization order. *)
Definition Example := list (string * Feature).

Inductive DecodeError :=
| FeatureRequired (key : string)
| FeatureTypeMismatch (key : string)
| FeatureValueCount (key : string)
| DecodeRawLength (nbytes : nat)
| ReshapeSize (nvalues : nat).

Definition Result (A : Type) := (DecodeError + A)%type.

Definition rbind {A B} (m : Result A) (k : A -> Result B) : Result B :=
  match m with
  | inl e => inl e
  | inr x => k x
  end.

Notation "x <-- m ;; k" := (rbind m (fun x => k))
  (at level 61, m at next level, right associativity).

Fixpoint lookup_feature (key : string) (ex : Example) : option Feature :=
  match ex with
  | [] => None
  | (k, f) :: r => if String.eqb k key then Some f else lookup_feature key r
  end.

(** [tf.io.FixedLenFeature([], dtype)]: exactly one value of that type,
    no default. *)
Definition fixed_int64 (key : string) (ex : Example) : Result Z :=
  match lookup_feature key ex with
  | None => inl (FeatureRequired key)
  | Some (Int64List [v]) => inr v
  | Some (Int64List _) => inl (FeatureValueCount key)
  | Some _ => inl (FeatureTypeMismatch key)
  end.

Definition fixed_float32 (key : string) (ex : Example) : Result float :=
  match lookup_feature key ex with
  | None => inl (FeatureRequired key)
  | Some (FloatList [v]) => inr v
  | Some (FloatList _) => inl (FeatureValueCount key)
  | Some _ => inl (FeatureTypeMismatch key)
  end.

Definition fixed_string (key : string) (ex : Example) : Result (list Byte.byte) :=
  match lookup_feature key ex with
  | None => inl (FeatureRequired key)
  | Some (BytesList [v]) => inr v
  | Some (BytesList _) => inl (FeatureValueCount key)
  | Some _ => inl (FeatureTypeMismatch key)
  end.

(** [tf.io.decode_raw(bytes, tf.float64)], little-endian: one value per
    run of eight bytes; a length that is not a multiple of 8 is an error. *)
Fixpoint decode_f64s (bytes : list Byte.byte) : list float :=
  match bytes with
  | b0 :: b1 :: b2 :: b3 :: b4 :: b5 :: b6 :: b7 :: rest =>
      float_of_bits (le_bytes_to_Z [b0; b1; b2; b3; b4; b5; b6; b7])
      :: decode_f64s rest
  | _ => []
  end.

Definition decode_raw (bytes : list Byte.byte) : Result (list float) :=
  let n := length bytes in
  if (n mod 8 =? 0)%nat then inr (decode_f64s bytes)
  else inl (DecodeRawLength n).

(** [tf.reshape(values, INPUT_SHAPE)]: the number of values must be the
    product of the shape. *)
Definition reshape (cfg : Config) (values : list float) : Result (list float) :=
  let '(W, T, channels) := INPUT_SHAPE cfg in
  if (length values =? W * T * channels)%nat
  then inr values
  else inl (ReshapeSize (length values)).

(** [image[:, :, c]] for the row-major [(W, T, 2)] tensor: the values at
    the positions [(w * T + t) * 2 + c]. *)
Fixpoint every_other (values : list float) : list float :=
  match values with
  | [] => []
  | x :: rest =>
      x :: match rest with
           | [] => []
           | _ :: rest' => every_other rest'
           end
  end.

Fixpoint rows_of (W T : nat) (flat : list float) : ndarray2 :=
  match W with
  | O => []
  | S W' => firstn T flat :: rows_of W' T (skipn T flat)
  end.

Definition channel (cfg : Config) (c : nat) (image : list float) : ndarray2 :=
  rows_of (NUM_WAVELENGTH_BINS cfg) (NUM_MJD_BINS cfg)
          (every_other (skipn c image)).

Record Data := {
  data_id : Z;
  data_label : Z;
  data_z : float;
  data_z_err : float;
  data_flux : ndarray2;
  data_flux_err : ndarray2
}.

Definition parse_tfrecord (cfg : Config) (raw_record : Example) : Result Data :=
  label <-- fixed_int64 "label" raw_record ;;
  image_raw <-- fixed_string "image_raw" raw_record ;;
  id <-- fixed_int64 "id" raw_record ;;
  z <-- fixed_float32 "z" raw_record ;;
  z_err <-- fixed_float32 "z_err" raw_record ;;
  values <-- decode_raw image_raw ;;
  image <-- reshape cfg values ;;
  inr {| data_id := id;
         data_label := label;
         data_z := z;
         data_z_err := z_err;
         data_flux := channel cfg 0 image;
         data_flux_err := channel cfg 1 image |}.

(** ** The feature reducer *)

Record Info := {
  snid : Z;
  label : Z;
  label_name : string;
  redshift : float;
  redshift_err : float;
  total_flux : float;
  max_flux : float;
  mean_flux : float;
  median_flux : float;
  std_flux : float;
  peak_flux_wavelength_idx : nat;
  peak_flux_mjd_idx : nat;
  peak_flux_wavelength : float;
  peak_flux_mjd : float;
  lc_max : float;
  lc_mean : float;
  lc_peak_mjd_idx : nat;
  lc_peak_mjd : float;
  flux_before_peak : float;
  flux_after_peak : float;
  rise_time_days : float;
  decline_time_days : float;
  duration_days : float;
  spectrum_max : float;
  spectrum_mean : float;
  spectrum_peak_wavelength_idx : nat;
  spectrum_peak_wavelength : float;
  blue_flux : float;
  red_flux : float;
  color_ratio : float;
  snr_mean : float;
  snr_median : float;
  snr_max : float;
  snr_peak : float;
  num_nonzero_bins : nat;
  coverage_fraction : float;
  num_epochs_with_data : nat;
  temporal_coverage_fraction : float;
  num_wavelengths_with_data : nat;
  spectral_coverage_fraction : float
}.

(** Local variables of [extract_summary_statistics] that the statements
    below refer to. *)

(** [light_curve = np.sum(flux, axis=0)] *)
Definition light_curve (data : Data) : list float :=
  np_sum_axis0 (data_flux data).

(** [above_half = light_curve > half_max] *)
Definition above_half (lc : list float) (half_max : float) : list bool :=
  map (fun x => half_max <? x) lc.

(** [np.argmin(np.abs(mjd_array - target))] *)
Definition nearest_mjd_idx (cfg : Config) (target : float) : option nat :=
  np_argmin (map (fun m => abs (m - target)) (get_mjd_array cfg)).

(** [np.mean(flux[:, s:e], axis=1)]: the mean of each wavelength bin
    over the time bins [[s, e)]. *)
Definition peak_spectrum (flux : ndarray2) (s e : nat) : list float :=
  map (fun row => np_mean (slice s e row)) flux.

(** [(wavelengths >= lo) & (wavelengths <= hi)] *)
Definition band_idx (wavelengths : list float) (lo hi : float) : list bool :=
  map (fun w => (lo <=? w) && (w <=? hi)) wavelengths.

(** [np.sum(light_curve * np.sum(flux[idx, :], axis=0))] *)
Definition band_flux (lc : list float) (flux : ndarray2) (idx : list bool)
  : option float :=
  rows <- mask_rows idx flux ;;
  Some (np_sum (zip_with mul lc (np_sum_axis0 rows))).

(** Rise and decline time (rough estimates based on half-max): the
    values stored under [rise_time_days], [decline_time_days] and
    [duration_days]. *)
Definition rise_decline_duration (mjds light_curve : list float)
    (peak_idx : nat) (lc_max : float) : option (float * float * float) :=
  let half_max := lc_max / 2 in
  let above_half := above_half light_curve half_max in
  if np_any above_half then
    first_half_idx <- nth_error (np_flatnonzero above_half) 0 ;;
    last_half_idx <- last_error (np_flatnonzero above_half) ;;
    mjd_peak <- nth_error mjds peak_idx ;;
    mjd_first <- nth_error mjds first_half_idx ;;
    mjd_last <- nth_error mjds last_half_idx ;;
    Some (mjd_peak - mjd_first, mjd_last - mjd_peak, mjd_last - mjd_first)
  else Some (nan, nan, nan).

(** Color information: the values stored under [blue_flux], [red_flux]
    and [color_ratio]. *)
Definition color_information (wavelengths light_curve : list float)
    (flux : ndarray2) : option (float * float * float) :=
  let blue_idx := band_idx wavelengths 3000 5000 in
  let red_idx := band_idx wavelengths 6000 10000 in
  if np_any blue_idx && np_any red_idx then
    blue_flux <- band_flux light_curve flux blue_idx ;;
    red_flux <- band_flux light_curve flux red_idx ;;
    Some (blue_flux, red_flux,
          if 0 <? red_flux then blue_flux / red_flux else nan)
  else Some (nan, nan, nan).

(** The operand [flux / flux_err], evaluated on the whole grid before
    [np.where] selects from it. *)
Definition snr_quotient (data : Data) : option ndarray2 :=
  elementwise2 div (data_flux data) (data_flux_err data).

(** [snr = np.where(flux_err > 0, flux / flux_err, 0)] *)
Definition snr_grid (data : Data) : option ndarray2 :=
  quotient <- snr_quotient data ;;
  Some (np_where (map (map (fun e => 0 <? e)) (data_flux_err data)) quotient 0).

Definition extract_summary_statistics (cfg : Config) (data : Data) : option Info :=
  let flux := data_flux data in
  let flux_err := data_flux_err data in
  (* Overall flux statistics *)
  max_flux' <- np_max (ravel flux) ;;
  (* Peak statistics *)
  flat_idx <- np_argmax (ravel flux) ;;
  peak_flux_idx <- np_unravel_index flat_idx (shape flux) ;;
  let wavelengths := get_wavelength_array cfg in
  let mjds := get_mjd_array cfg in
  peak_flux_wavelength' <- nth_error wavelengths (fst peak_flux_idx) ;;
  peak_flux_mjd' <- nth_error mjds (snd peak_flux_idx) ;;
  (* Light curve statistics *)
  let light_curve := light_curve data in
  lc_max' <- np_max light_curve ;;
  lc_peak_mjd_idx' <- np_argmax light_curve ;;
  lc_peak_mjd' <- nth_error mjds lc_peak_mjd_idx' ;;
  (* Pre-peak vs post-peak flux *)
  peak_idx <- np_argmax light_curve ;;
  let flux_before_peak' :=
    if (0 <? peak_idx)%nat then np_sum (firstn peak_idx light_curve) else 0 in
  let flux_after_peak' :=
    if (peak_idx <? length light_curve)%nat
    then np_sum (skipn peak_idx light_curve) else 0 in
  (* Rise and decline time *)
  '(rise, decline, duration) <-
    rise_decline_duration mjds light_curve peak_idx lc_max' ;;
  (* Spectrum statistics *)
  peak_start_idx <- nearest_mjd_idx cfg (-10) ;;
  peak_end_idx <- nearest_mjd_idx cfg 20 ;;
  let peak_spectrum := peak_spectrum flux peak_start_idx peak_end_idx in
  spectrum_max' <- np_max peak_spectrum ;;
  spectrum_peak_wavelength_idx' <- np_argmax peak_spectrum ;;
  spectrum_peak_wavelength' <- nth_error wavelengths spectrum_peak_wavelength_idx' ;;
  (* Color information *)
  '(blue, red, ratio) <- color_information wavelengths light_curve flux ;;
  (* Signal-to-noise statistics *)
  snr <- snr_grid data ;;
  let snr_pos := filter (fun s => 0 <? s) (ravel snr) in
  let any_pos := np_any (map (fun s => 0 <? s) (ravel snr)) in
  snr_max' <- np_max (ravel snr) ;;
  snr_peak' <- getitem2 snr (fst peak_flux_idx) (snd peak_flux_idx) ;;
  (* Data coverage statistics *)
  let non_zero_flux := map (map (fun f => 0 <? f)) flux in
  let has_data_per_time := np_any_axis0 non_zero_flux in
  let has_data_per_wavelength := np_any_axis1 non_zero_flux in
  Some {|
    snid := data_id data;
    label := data_label data;
    label_name := if (data_label data =? 1)%Z then "SNIa" else "Non-Ia";
    redshift := data_z data;
    redshift_err := data_z_err data;
    total_flux := np_sum (ravel flux);
    max_flux := max_flux';
    mean_flux := np_mean (ravel flux);
    median_flux := np_median (ravel flux);
    std_flux := np_std (ravel flux);
    peak_flux_wavelength_idx := fst peak_flux_idx;
    peak_flux_mjd_idx := snd peak_flux_idx;
    peak_flux_wavelength := peak_flux_wavelength';
    peak_flux_mjd := peak_flux_mjd';
    lc_max := lc_max';
    lc_mean := np_mean light_curve;
    lc_peak_mjd_idx := lc_peak_mjd_idx';
    lc_peak_mjd := lc_peak_mjd';
    flux_before_peak := flux_before_peak';
    flux_after_peak := flux_after_peak';
    rise_time_days := rise;
    decline_time_days := decline;
    duration_days := duration;
    spectrum_max := spectrum_max';
    spectrum_mean := np_mean peak_spectrum;
    spectrum_peak_wavelength_idx := spectrum_peak_wavelength_idx';
    spectrum_peak_wavelength := spectrum_peak_wavelength';
    blue_flux := blue;
    red_flux := red;
    color_ratio := ratio;
    snr_mean := if any_pos then np_mean snr_pos else 0;
    snr_median := if any_pos then np_median snr_pos else 0;
    snr_max := snr_max';
    snr_peak := snr_peak';
    num_nonzero_bins := count_true (concat non_zero_flux);
    coverage_fraction :=
      float_of_nat (count_true (concat non_zero_flux)) / float_of_nat (size flux);
    num_epochs_with_data := count_true has_data_per_time;
    temporal_coverage_fraction :=
      float_of_nat (count_true has_data_per_time)
      / float_of_nat (length has_data_per_time);
    num_wavelengths_with_data := count_true has_data_per_wavelength;
    spectral_coverage_fraction :=
      float_of_nat (count_true has_data_per_wavelength)
      / float_of_nat (length has_data_per_wavelength)
  |}.

(** ** Projection extractors *)

(** One output dictionary: the record id and, for bin [i], the three
    values stored under the [i]-th formatted keys. *)
Record Projection := {
  proj_snid : Z;
  proj_rows : list (float * float * float)
}.

Fixpoint zip3 {A B C} (a : list A) (b : list B) (c : list C) : list (A * B * C) :=
  match a, b, c with
  | x :: a', y :: b', z :: c' => (x, y, z) :: zip3 a' b' c'
  | _, _, _ => []
  end.

Definition square (a : ndarray2) : ndarray2 := map (map (fun e => e * e)) a.

Definition extract_lightcurve (cfg : Config) (data : Data) : Projection :=
  let light_curve := np_sum_axis0 (data_flux data) in
  let light_curve_err :=
    map PrimFloat.sqrt (np_sum_axis0 (square (data_flux_err data))) in
  let mjds := get_mjd_array cfg in
  {| proj_snid := data_id data;
     proj_rows := zip3 mjds light_curve light_curve_err |}.

Definition extract_spectrum (cfg : Config) (data : Data) : option Projection :=
  peak_start_idx <- nearest_mjd_idx cfg (-10) ;;
  peak_end_idx <- nearest_mjd_idx cfg 20 ;;
  let spectrum := peak_spectrum (data_flux data) peak_start_idx peak_end_idx in
  let spectrum_err :=
    map (fun row => PrimFloat.sqrt (np_mean row))
        (square (map (slice peak_start_idx peak_end_idx) (data_flux_err data))) in
  let wavelengths := get_wavelength_array cfg in
  Some {| proj_snid := data_id data;
          proj_rows := zip3 wavelengths spectrum spectrum_err |}.

(** ** Batch driver *)

(** What a run leaves behind: the summary table, and the two optional
    tables, written only when requested and non-empty. *)
Record Tables := {
  df_summary : list Info;
  lightcurves_csv : option (list Projection);
  spectra_csv : option (list Projection)
}.

Inductive Failure :=
| DecodeFailed (e : DecodeError)
| NumpyRaised
| TakeCountOutOfRange.

(** The accumulators of the loop: [summary_data], [lightcurve_data],
    [spectrum_data] (the last two in source order, unused when the flag
    is off) and [count]. *)
Record LoopState := {
  summary_data : list Info;
  lightcurve_data : list Projection;
  spectrum_data : list Projection;
  count : nat
}.

Definition loop_init : LoopState :=
  {| summary_data := []; lightcurve_data := []; spectrum_data := []; count := 0 |}.

(** One iteration of [for raw_record in dataset]. *)
Definition loop_body (cfg : Config) (full_lightcurves full_spectra : bool)
    (st : LoopState) (raw_record : Example) : Failure + LoopState :=
  match parse_tfrecord cfg raw_record with
  | inl e => inl (DecodeFailed e)
  | inr data =>
      match extract_summary_statistics cfg data with
      | None => inl NumpyRaised
      | Some info =>
          let lcs :=
            if full_lightcurves
            then lightcurve_data st ++ [extract_lightcurve cfg data]
            else lightcurve_data st in
          match (if full_spectra
                 then option_map (fun s => spectrum_data st ++ [s])
                                 (extract_spectrum cfg data)
                 else Some (spectrum_data st)) with
          | None => inl NumpyRaised
          | Some specs =>
              inr {| summary_data := summary_data st ++ [info];
                     lightcurve_data := lcs;
                     spectrum_data := specs;
                     count := S (count st) |}
          end
      end
  end.

(** The loop stops at the first exception; the state it had reached is
    returned with the failure so that the failing position is known. *)
Fixpoint run_loop (cfg : Config) (full_lightcurves full_spectra : bool)
    (st : LoopState) (dataset : list Example) : (LoopState * Failure) + LoopState :=
  match dataset with
  | [] => inr st
  | raw_record :: rest =>
      match loop_body cfg full_lightcurves full_spectra st raw_record with
      | inl f => inl (st, f)
      | inr st' => run_loop cfg full_lightcurves full_spectra st' rest
      end
  end.

(** [dataset.take(count)]: the count is converted to a 64-bit integer
    tensor, which raises for a Python integer outside that range; a
    negative count keeps the whole dataset. *)
Definition in_int64 (n : Z) : bool :=
  ((- 2 ^ 63 <=? n) && (n <? 2 ^ 63))%Z.

Definition take (n : Z) (dataset : list Example) : option (list Example) :=
  if in_int64 n
  then Some (if (n <? 0)%Z then dataset else firstn (Z.to_nat n) dataset)
  else None.

(** Python truthiness of [limit] ([None] and [0] are false). *)
Definition truthy (limit : option Z) : bool :=
  match limit with
  | None => false
  | Some n => negb (n =? 0)%Z
  end.

Definition nonempty {A} (l : list A) : bool :=
  match l with [] => false | _ => true end.

(** [process_tfrecord]: an exception leaves the function before any
    table is built, so a failed run yields no table at all; when
    [dataset.take] raises, no record has been read. *)
Definition process_tfrecord (cfg : Config) (dataset : list Example)
    (full_lightcurves full_spectra : bool) (limit : option Z)
  : (LoopState * Failure) + Tables :=
  let limited :=
    match limit with
    | Some n => if truthy limit then take n dataset else Some dataset
    | None => Some dataset
    end in
  match limited with
  | None => inl (loop_init, TakeCountOutOfRange)
  | Some dataset =>
      match run_loop cfg full_lightcurves full_spectra loop_init dataset with
      | inl failure => inl failure
      | inr st =>
          inr {| df_summary := summary_data st;
                 lightcurves_csv :=
                   if full_lightcurves && nonempty (lightcurve_data st)
                   then Some (lightcurve_data st) else None;
                 spectra_csv :=
                   if full_spectra && nonempty (spectrum_data st)
                   then Some (spectrum_data st) else None |}
      end
  end.

(** * Specification vocabulary *)

(** The records the claims quantify over: those [parse_tfrecord] returns. *)
Definition decoded (cfg : Config) (data : Data) : Prop :=
  exists raw_record, parse_tfrecord cfg raw_record = inr data.

(** A grid of [W] rows of [T] entries. *)
Definition grid {A} (W T : nat) (a : list (list A)) : Prop :=
  length a = W /\ Forall (fun row => length row = T) a.

(** Mathematical reading of [a[w, t]] inside the grid. *)
Definition entry (a : ndarray2) (w t : nat) : float := nth t (nth w a []) 0.

(** NumPy's ordering for maxima: NaN ranks above every number. *)
Definition np_ge (x y : float) : bool := is_nan x || (y <=? x).

(** Position [i] holds a maximum of [a] and no earlier position does. *)
Definition first_max (a : list float) (i : nat) : Prop :=
  exists m, nth_error a i = Some m /\
    (forall j x, nth_error a j = Some x -> np_ge m x = true) /\
    (forall j x, (j < i)%nat -> nth_error a j = Some x -> np_ge x m = false).

(** [t] is a time bin whose light-curve value exceeds the half-maximum. *)
Definition above (lc : list float) (half_max : float) (t : nat) : Prop :=
  exists x, nth_error lc t = Some x /\ (half_max <? x) = true.

(** The wavelength bins whose centre lies in [[lo, hi]]. *)
Definition band_members (wavelengths : list float) (lo hi : float) : list nat :=
  filter (fun w => (lo <=? nth w wavelengths 0) && (nth w wavelengths 0 <=? hi))
         (seq 0 (length wavelengths)).

(** The band total: the sum over the time bins of the light curve times
    the flux added up, bin after bin, over the band's wavelength bins. *)
Definition band_total (lc : list float) (flux : ndarray2) (members : list nat)
  : float :=
  np_sum (map (fun t => nth t lc 0
                         * sequential_sum (map (fun w => entry flux w t) members))
              (seq 0 (length lc))).

Set Implicit Arguments.

(** What one run of [extract_summary_statistics] computed on the way to
    [info]: [fi] is [np.argmax(flux)], [p] is [np.argmax(light_curve)],
    [s] and [e] bound the peak phase, [snr] is the signal-to-noise
    grid. *)
Record Reduction (cfg : Config) (data : Data) (info : Info)
    (fi p s e : nat) (snr : ndarray2) : Prop := {
  red_max_flux : np_max (ravel (data_flux data)) = Some (max_flux info);
  red_flat_idx : np_argmax (ravel (data_flux data)) = Some fi;
  red_peak_w : peak_flux_wavelength_idx info = (fi / NUM_MJD_BINS cfg)%nat;
  red_peak_t : peak_flux_mjd_idx info = (fi mod NUM_MJD_BINS cfg)%nat;
  red_lc_max : np_max (light_curve data) = Some (lc_max info);
  red_lc_idx : np_argmax (light_curve data) = Some p;
  red_lc_peak : lc_peak_mjd_idx info = p;
  red_before :
    flux_before_peak info
    = if (0 <? p)%nat then np_sum (firstn p (light_curve data)) else 0;
  red_after :
    flux_after_peak info
    = if (p <? length (light_curve data))%nat
      then np_sum (skipn p (light_curve data)) else 0;
  red_rise :
    rise_decline_duration (get_mjd_array cfg) (light_curve data) p (lc_max info)
    = Some (rise_time_days info, decline_time_days info, duration_days info);
  red_start : nearest_mjd_idx cfg (-10) = Some s;
  red_end : nearest_mjd_idx cfg 20 = Some e;
  red_spectrum_max :
    np_max (peak_spectrum (data_flux data) s e) = Some (spectrum_max info);
  red_spectrum_idx :
    np_argmax (peak_spectrum (data_flux data) s e)
    = Some (spectrum_peak_wavelength_idx info);
  red_color :
    color_information (get_wavelength_array cfg) (light_curve data) (data_flux data)
    = Some (blue_flux info, red_flux info, color_ratio info);
  red_snr : snr_grid data = Some snr;
  red_snr_mean :
    snr_mean info
    = if np_any (map (fun x => 0 <? x) (ravel snr))
      then np_mean (filter (fun x => 0 <? x) (ravel snr)) else 0;
  red_snr_median :
    snr_median info
    = if np_any (map (fun x => 0 <? x) (ravel snr))
      then np_median (filter (fun x => 0 <? x) (ravel snr)) else 0;
  red_snr_max : np_max (ravel snr) = Some (snr_max info);
  red_snr_peak :
    getitem2 snr (fi / NUM_MJD_BINS cfg) (fi mod NUM_MJD_BINS cfg)
    = Some (snr_peak info)
}.

Unset Implicit Arguments.

(** Two ways of combining the errors of a run of bins. *)
Definition quadrature_sum (errs : list float) : float :=
  PrimFloat.sqrt (sequential_sum (map (fun x => x * x) errs)).

Definition root_mean_square (errs : list float) : float :=
  PrimFloat.sqrt (np_mean (map (fun x => x * x) errs)).

(** A raw record the decoder accepts. *)
Definition decodable (cfg : Config) (raw_record : Example) : Prop :=
  exists data, parse_tfrecord cfg raw_record = inr data.

Definition required_fields : list string :=
  ["label"; "image_raw"; "id"; "z"; "z_err"]%string.

(** A raw record that lacks a required field, or whose payload does not
    have [W * T * 2 * 8] bytes. *)
Definition malformed (cfg : Config) (raw_record : Example) : Prop :=
  (exists key, In key required_fields /\ lookup_feature key raw_record = None) \/
  (exists payload,
     lookup_feature "image_raw" raw_record = Some (BytesList [payload]) /\
     length payload <> (NUM_WAVELENGTH_BINS cfg * NUM_MJD_BINS cfg * 2 * 8)%nat).

(** The output rows that belong to a raw record. *)
Definition summary_row (cfg : Config) (raw_record : Example) (row : Info) : Prop :=
  exists data,
    parse_tfrecord cfg raw_record = inr data /\
    extract_summary_statistics cfg data = Some row.

Definition lightcurve_row (cfg : Config) (raw_record : Example) (row : Projection)
  : Prop :=
  exists data,
    parse_tfrecord cfg raw_record = inr data /\ row = extract_lightcurve cfg data.

Definition spectrum_row (cfg : Config) (raw_record : Example) (row : Projection)
  : Prop :=
  exists data,
    parse_tfrecord cfg raw_record = inr data /\
    extract_spectrum cfg data = Some row.

Set Implicit Arguments.

(** The remaining fields of one run of [extract_summary_statistics],
    with [fi], [p], [s], [e] as in [Reduction]. *)
Record Fields (cfg : Config) (data : Data) (info : Info)
    (fi p s e : nat) : Prop := {
  fld_snid : snid info = data_id data;
  fld_label : label info = data_label data;
  fld_redshift : redshift info = data_z data;
  fld_redshift_err : redshift_err info = data_z_err data;
  fld_peak_wavelength :
    nth_error (get_wavelength_array cfg) (fi / NUM_MJD_BINS cfg)
    = Some (peak_flux_wavelength info);
  fld_peak_mjd :
    nth_error (get_mjd_array cfg) (fi mod NUM_MJD_BINS cfg)
    = Some (peak_flux_mjd info);
  fld_lc_peak_mjd : nth_error (get_mjd_array cfg) p = Some (lc_peak_mjd info);
  fld_spectrum_mean :
    spectrum_mean info = np_mean (peak_spectrum (data_flux data) s e);
  fld_spectrum_peak_wavelength :
    nth_error (get_wavelength_array cfg) (spectrum_peak_wavelength_idx info)
    = Some (spectrum_peak_wavelength info);
  fld_nonzero :
    num_nonzero_bins info
    = count_true (concat (map (map (fun f => 0 <? f)) (data_flux data)));
  fld_epochs :
    num_epochs_with_data info
    = count_true (np_any_axis0 (map (map (fun f => 0 <? f)) (data_flux data)));
  fld_wavelengths :
    num_wavelengths_with_data info
    = count_true (np_any_axis1 (map (map (fun f => 0 <? f)) (data_flux data)))
}.

Unset Implicit Arguments.

(** NumPy's ordering for minima: NaN ranks below every number. *)
Definition np_le (x y : float) : bool := is_nan x || (x <=? y).

(** Position [i] holds a minimum of [a] and no earlier position does. *)
Definition first_min (a : list float) (i : nat) : Prop :=
  exists m, nth_error a i = Some m /\
    (forall j x, nth_error a j = Some x -> np_le m x = true) /\
    (forall j x, (j < i)%nat -> nth_error a j = Some x -> np_le x m = false).

(** [np.abs(mjd_array - target)] *)
Definition mjd_distances (cfg : Config) (target : float) : list float :=
  map (fun m => abs (m - target)) (get_mjd_array cfg).

(** * Concrete records *)

Definition byte_of_Z (z : Z) : Byte.byte :=
  match Byte.of_N (Z.to_N (Z.land z 255)) with
  | Some b => b
  | None => Byte.x00
  end.

(** The eight little-endian bytes of a 64-bit pattern. *)
Definition f64_le (bits : Z) : list Byte.byte :=
  map (fun i => byte_of_Z (Z.shiftr bits (8 * Z.of_nat i))) (seq 0 8).

(** Overwrite the [pos]-th binary64 slot of a payload; flux[w,t] is slot
    [2 * (w * T + t)], its error the slot after. *)
Definition put_f64 (pos : nat) (bits : Z) (payload : list Byte.byte)
  : list Byte.byte :=
  firstn (8 * pos) payload ++ f64_le bits ++ skipn (8 * pos + 8) payload.

Definition zero_payload (cfg : Config) : list Byte.byte :=
  repeat Byte.x00 (NUM_WAVELENGTH_BINS cfg * NUM_MJD_BINS cfg * 2 * 8).

Definition record_of (id label : Z) (z z_err : float) (payload : list Byte.byte)
  : Example :=
  [("label", Int64List [label]); ("image_raw", BytesList [payload]);
   ("id", Int64List [id]); ("z", FloatList [z]); ("z_err", FloatList [z_err])]%string.

Definition data_of (cfg : Config) (raw_record : Example) : Data :=
  match parse_tfrecord cfg raw_record with
  | inr data => data
  | inl _ => Build_Data 0 0 0 0 [] []
  end.

(** The 4 x 5 scenario: a single flux entry, [flux[2,3] = 10], and no
    error estimate anywhere. *)
Definition SCENARIO : Config := {|
  NUM_WAVELENGTH_BINS := 4;
  NUM_MJD_BINS := 5;
  WAVELENGTH_MIN := 3000;
  WAVELENGTH_MAX := 10100;
  MJD_RANGE_START := -50;
  MJD_RANGE_END := 130
|}.

Definition scenario_record : Example :=
  record_of 7 1 0.5 0.25 (put_f64 26 0x4024000000000000 (zero_payload SCENARIO)).

Definition scenario_data : Data := {|
  data_id := 7;
  data_label := 1;
  data_z := 0.5;
  data_z_err := 0.25;
  data_flux := [[0; 0; 0; 0; 0]; [0; 0; 0; 0; 0]; [0; 0; 0; 10; 0]; [0; 0; 0; 0; 0]];
  data_flux_err := repeat (repeat 0 5) 4
|}.

(** A full-size record whose first wavelength bin holds 1, 1e16 and
    -1e16 in its first three time bins, every other flux being 0. *)
Definition cancelling_record : Example :=
  record_of 11 0 0.5 0.25
    (put_f64 0 0x3FF0000000000000
       (put_f64 2 0x4341C37937E08000
          (put_f64 4 0xC341C37937E08000 (zero_payload SCONE)))).

Definition cancelling_data : Data :=
  Eval vm_compute in data_of SCONE cancelling_record.

(** A full-size record with zero flux whose first wavelength bin has the
    errors 3 and 4 in the time bins 40 and 41, every other error being 0. *)
Definition two_errors_record : Example :=
  record_of 12 1 0.5 0.25
    (put_f64 81 0x4008000000000000
       (put_f64 83 0x4010000000000000 (zero_payload SCONE))).

Definition two_errors_data : Data :=
  Eval vm_compute in data_of SCONE two_errors_record.

(** A full-size record of zeros. *)
Definition blank_record : Example :=
  record_of 13 0 0.5 0.25 (zero_payload SCONE).

(** A full-size record without its [z_err] field, and one whose payload
    is a byte short. *)
Definition missing_field_record : Example :=
  [("label", Int64List [1%Z]); ("image_raw", BytesList [zero_payload SCONE]);
   ("id", Int64List [14%Z]); ("z", FloatList [0.5])]%string.

Definition short_payload_record : Example :=
  record_of 15 1 0.5 0.25 (tl (zero_payload SCONE)).

(** A configuration with two time bins: both ends of the peak phase fall
    on the first bin. *)
Definition TWO_EPOCHS : Config := {|
  NUM_WAVELENGTH_BINS := 2;
  NUM_MJD_BINS := 2;
  WAVELENGTH_MIN := 3000;
  WAVELENGTH_MAX := 10100;
  MJD_RANGE_START := -50;
  MJD_RANGE_END := 130
|}.

Definition two_epochs_record : Example :=
  record_of 16 1 0.5 0.25
    (put_f64 0 0x3FF0000000000000 (zero_payload TWO_EPOCHS)).

Definition two_epochs_data : Data :=
  Eval vm_compute in data_of TWO_EPOCHS two_epochs_record.

(** The decoded full-size record of zeros. *)
Definition blank_data : Data := {|
  data_id := 13;
  data_label := 0;
  data_z := 0.5;
  data_z_err := 0.25;
  data_flux := repeat (repeat 0 180) 32;
  data_flux_err := repeat (repeat 0 180) 32
|}.

(** * Properties *)

(** ** The model on small inputs *)

Example float_of_bits_values :
  map float_of_bits
      [0x3FF0000000000000; 0x4024000000000000; 0xC341C37937E08000;
       0x7FF0000000000000; 0x8000000000000000]%Z
  = [1; 10; -10000000000000000; infinity; neg_zero].
Proof. vm_compute. reflexivity. Qed.

Example np_argmax_tie : np_argmax [1; 3; 2; 3] = Some 1%nat.
Proof. reflexivity. Qed.

Example np_argmax_nan : np_argmax [1; nan; 5; nan] = Some 1%nat.
Proof. reflexivity. Qed.

Example np_max_nan : np_max [1; nan; 5] = Some nan.
Proof. reflexivity. Qed.

Example np_median_even : np_median [3; 1; 2; 10] = 2.5.
Proof. vm_compute. reflexivity. Qed.

(** The order of summation shows in the last bits: over 180 values
    that start with 1e16, 1, 1, 1, the pairwise sum adds [1 + 1] before
    it meets [1e16], the sum from left to right loses each 1 in turn. *)
Example np_sum_pairwise_order :
  np_sum ([10000000000000000; 1; 1; 1] ++ repeat 0 176) = 10000000000000002 /\
  sequential_sum ([10000000000000000; 1; 1; 1] ++ repeat 0 176)
  = 10000000000000000.
Proof. vm_compute. split; reflexivity. Qed.

Example mjd_axis_SCENARIO : get_mjd_array SCENARIO = [-50; -5; 40; 85; 130].
Proof. vm_compute. reflexivity. Qed.

Example peak_phase_SCONE :
  nearest_mjd_idx SCONE (-10) = Some 40%nat /\
  nearest_mjd_idx SCONE 20 = Some 70%nat.
Proof. split; vm_compute; reflexivity. Qed.

(** With the constants of the script, a 4 x 5 grid is rejected (the
    32-entry band mask does not index a 4-row array). *)
Example scenario_needs_its_configuration :
  extract_summary_statistics SCONE scenario_data = None.
Proof. vm_compute. reflexivity. Qed.

(** ** The order of binary64 comparisons *)

Ltac cmp_cases :=
  change (Pos.compare_cont Eq) with Pos.compare in *;
  repeat match goal with
  | |- context [Z.compare ?a ?b] => destruct (Z.compare_spec a b); simpl
  | |- context [Pos.compare ?a ?b] => destruct (Pos.compare_spec a b); simpl
  end;
  try reflexivity; try congruence; try (intros; exfalso; subst; lia); auto.

Lemma SFleb_trans x y z :
  SFleb x y = true -> SFleb y z = true -> SFleb x z = true.
Proof.
  unfold SFleb.
  destruct x as [[]|[]| |[] mx ex], y as [[]|[]| |[] my ey],
           z as [[]|[]| |[] mz ez];
    simpl; try congruence; try reflexivity; cmp_cases.
Qed.

Lemma SFleb_total x y :
  SFleb x x = true -> SFleb y y = true ->
  SFleb x y = true \/ SFleb y x = true.
Proof.
  unfold SFleb.
  destruct x as [[]|[]| |[] mx ex], y as [[]|[]| |[] my ey];
    simpl; try congruence; auto; cmp_cases.
Qed.

Lemma SFleb_self x y :
  SFleb x y = true -> SFleb x x = true /\ SFleb y y = true.
Proof.
  unfold SFleb.
  destruct x as [[]|[]| |[] mx ex], y as [[]|[]| |[] my ey];
    simpl; try congruence; auto; cmp_cases.
Qed.

Lemma SFeqb_self x : SFeqb x x = SFleb x x.
Proof.
  unfold SFeqb, SFleb.
  destruct x as [[]|[]| |[] mx ex]; simpl; auto; cmp_cases.
Qed.

Lemma SFltb_leb x y : SFltb x y = SFleb x y && negb (SFleb y x).
Proof.
  unfold SFltb, SFleb.
  destruct x as [[]|[]| |[] mx ex], y as [[]|[]| |[] my ey];
    simpl; try congruence; auto; cmp_cases.
Qed.

Lemma leb_trans x y z :
  (x <=? y) = true -> (y <=? z) = true -> (x <=? z) = true.
Proof. rewrite !leb_spec. apply SFleb_trans. Qed.

Lemma is_nan_leb x : is_nan x = negb (x <=? x).
Proof. unfold is_nan. now rewrite eqb_spec, leb_spec, SFeqb_self. Qed.

Lemma leb_not_nan x y :
  (x <=? y) = true -> is_nan x = false /\ is_nan y = false.
Proof.
  rewrite !is_nan_leb, !leb_spec. intros H.
  destruct (SFleb_self _ _ H) as [-> ->]. auto.
Qed.

Lemma leb_total x y :
  is_nan x = false -> is_nan y = false ->
  (x <=? y) = true \/ (y <=? x) = true.
Proof.
  rewrite !is_nan_leb, !leb_spec. intros Hx Hy.
  apply SFleb_total;
    [destruct (SFleb (Prim2SF x) (Prim2SF x))
    |destruct (SFleb (Prim2SF y) (Prim2SF y))];
    simpl in *; congruence.
Qed.

Lemma ltb_leb x y : (x <? y) = (x <=? y) && negb (y <=? x).
Proof. rewrite ltb_spec, !leb_spec. apply SFltb_leb. Qed.

Lemma nan_neq_zero : nan <> 0.
Proof.
  intros H. assert (E : is_nan nan = is_nan 0) by now rewrite H.
  vm_compute in E. discriminate.
Qed.

Lemma np_ge_refl x : np_ge x x = true.
Proof. unfold np_ge. rewrite is_nan_leb. now destruct (x <=? x). Qed.

Lemma np_ge_trans x y z :
  np_ge x y = true -> np_ge y z = true -> np_ge x z = true.
Proof.
  unfold np_ge. destruct (is_nan x) eqn:Hx; simpl; auto.
  intros Hyx. destruct (leb_not_nan _ _ Hyx) as [-> _]. simpl.
  intros Hzy. eapply leb_trans; eauto.
Qed.

Lemma np_ge_total x y : np_ge x y = true \/ np_ge y x = true.
Proof.
  unfold np_ge. destruct (is_nan x) eqn:Hx, (is_nan y) eqn:Hy; simpl; auto.
  destruct (leb_total x y Hx Hy); auto.
Qed.

(** ** [np.argmax] returns the first maximal position *)

Lemma nth_error_snoc {A} (l : list A) (x : A) j y :
  nth_error (l ++ [x]) j = Some y ->
  ((j < length l)%nat /\ nth_error l j = Some y) \/ (j = length l /\ y = x).
Proof.
  intros H. destruct (Nat.lt_ge_cases j (length l)) as [Hlt|Hge].
  - left. split; auto. now rewrite nth_error_app1 in H.
  - right. rewrite nth_error_app2 in H by auto.
    destruct (j - length l)%nat as [|k] eqn:E; simpl in H.
    + split; [lia | congruence].
    + destruct k; discriminate.
Qed.

Lemma first_max_nan_extend pre a k m :
  nth_error pre k = Some m -> is_nan m = true ->
  first_max pre k -> first_max (pre ++ a) k.
Proof.
  intros Hk Hm (m' & Hk' & _ & Hlt). exists m.
  assert (m' = m) by congruence. subst m'.
  split; [| split].
  - rewrite nth_error_app1; auto. apply nth_error_Some. congruence.
  - intros j x _. unfold np_ge. now rewrite Hm.
  - intros j x Hj Hx. apply (Hlt j x Hj).
    assert (k < length pre)%nat by (apply nth_error_Some; congruence).
    rewrite nth_error_app1 in Hx by lia. exact Hx.
Qed.

Lemma first_max_replace pre k mp x :
  nth_error pre k = Some mp -> first_max pre k ->
  is_nan mp = false -> (x <=? mp) = false ->
  first_max (pre ++ [x]) (length pre).
Proof.
  intros Hk (m & Hk' & Hall & _) Hnan Hle.
  assert (m = mp) by congruence. subst m.
  assert (Hgt : np_ge mp x = false) by (unfold np_ge; now rewrite Hnan, Hle).
  assert (Hx : np_ge x mp = true).
  { destruct (np_ge_total x mp); congruence. }
  exists x. split; [| split].
  - rewrite nth_error_app2 by lia. now rewrite Nat.sub_diag.
  - intros j y Hy. apply nth_error_snoc in Hy as [[_ Hy]|[_ ->]].
    + eapply np_ge_trans; eauto.
    + apply np_ge_refl.
  - intros j y Hj Hy. rewrite nth_error_app1 in Hy by lia.
    destruct (np_ge y x) eqn:E; auto.
    assert (np_ge mp x = true) by (eapply np_ge_trans; eauto).
    congruence.
Qed.

Lemma first_max_keep pre k mp x :
  nth_error pre k = Some mp -> first_max pre k ->
  (x <=? mp) = true ->
  first_max (pre ++ [x]) k.
Proof.
  intros Hk (m & Hk' & Hall & Hlt) Hle.
  assert (m = mp) by congruence. subst m.
  assert (k < length pre)%nat by (apply nth_error_Some; congruence).
  exists mp. split; [| split].
  - now rewrite nth_error_app1.
  - intros j y Hy. apply nth_error_snoc in Hy as [[_ Hy]|[_ ->]]; eauto.
    unfold np_ge. rewrite Hle. apply orb_true_r.
  - intros j y Hj Hy. rewrite nth_error_app1 in Hy by lia. eauto.
Qed.

Lemma argmax_from_first_max a : forall pre mp k,
  nth_error pre k = Some mp -> first_max pre k ->
  first_max (pre ++ a) (argmax_from mp k (length pre) a).
Proof.
  induction a as [|x r IH]; intros pre mp k Hk Hfm; simpl.
  - now rewrite app_nil_r.
  - destruct (is_nan mp) eqn:Hnan.
    + eapply first_max_nan_extend; eauto.
    + replace (pre ++ x :: r) with ((pre ++ [x]) ++ r)
        by (now rewrite <- app_assoc).
      replace (S (length pre)) with (length (pre ++ [x]))
        by (rewrite length_app; simpl; lia).
      destruct (x <=? mp) eqn:Hle; simpl.
      * apply IH.
        -- rewrite nth_error_app1; auto. apply nth_error_Some. congruence.
        -- eapply first_max_keep; eauto.
      * apply IH.
        -- rewrite nth_error_app2 by lia. now rewrite Nat.sub_diag.
        -- eapply first_max_replace; eauto.
Qed.

Lemma np_argmax_first_max a i : np_argmax a = Some i -> first_max a i.
Proof.
  destruct a as [|x r]; simpl; [discriminate|]. intros [= <-].
  apply (argmax_from_first_max r [x] x 0%nat); auto.
  exists x. split; [reflexivity | split].
  - intros [|[|j]] y; simpl; intros [= <-] || discriminate. apply np_ge_refl.
  - intros j y Hj. lia.
Qed.

Lemma np_argmax_Some a : a <> [] -> exists i, np_argmax a = Some i.
Proof. destruct a; [congruence | simpl; eauto]. Qed.

Lemma first_max_lt a i : first_max a i -> (i < length a)%nat.
Proof. intros (m & H & _). apply nth_error_Some. congruence. Qed.

(** The maximum is the entry at the arg-maximum. *)
Lemma fold_maximum_nan r : forall mp,
  is_nan mp = true -> fold_left np_maximum r mp = mp.
Proof.
  induction r as [|x r IH]; intros mp H; simpl; auto.
  unfold np_maximum at 2. rewrite H, orb_true_r. auto.
Qed.

Lemma fold_maximum_argmax a : forall pre mp k,
  nth_error pre k = Some mp ->
  nth_error (pre ++ a) (argmax_from mp k (length pre) a)
  = Some (fold_left np_maximum a mp).
Proof.
  induction a as [|x r IH]; intros pre mp k Hk; simpl.
  - now rewrite app_nil_r.
  - assert (Hlt : (k < length pre)%nat) by (apply nth_error_Some; congruence).
    destruct (is_nan mp) eqn:Hnan.
    + unfold np_maximum at 2. rewrite Hnan, orb_true_r.
      rewrite fold_maximum_nan by auto. now rewrite nth_error_app1.
    + replace (pre ++ x :: r) with ((pre ++ [x]) ++ r)
        by (now rewrite <- app_assoc).
      replace (S (length pre)) with (length (pre ++ [x]))
        by (rewrite length_app; simpl; lia).
      unfold np_maximum at 2. rewrite Hnan, orb_false_r.
      destruct (x <=? mp) eqn:Hle; simpl; apply IH.
      * now rewrite nth_error_app1.
      * rewrite nth_error_app2 by lia. now rewrite Nat.sub_diag.
Qed.

Lemma np_max_argmax a i : np_argmax a = Some i -> np_max a = nth_error a i.
Proof.
  destruct a as [|x r]; simpl; [discriminate|]. intros [= <-].
  symmetry. apply (fold_maximum_argmax r [x] x 0%nat). reflexivity.
Qed.

Lemma np_max_Some a : a <> [] -> exists m, np_max a = Some m.
Proof. destruct a; [congruence | simpl; eauto]. Qed.

Lemma np_argmin_Some a : a <> [] -> exists i, np_argmin a = Some i.
Proof. destruct a; [congruence | simpl; eauto]. Qed.

(** ** Shapes *)

Lemma length_set_last {A} (a : list A) v : length (set_last a v) = length a.
Proof.
  induction a as [|x [|y r] IH]; simpl in *; auto.
Qed.

Lemma np_linspace_length start stop num :
  length (np_linspace start stop num) = num.
Proof.
  unfold np_linspace.
  repeat match goal with
  | |- context [if ?c then _ else _] => destruct c
  end; rewrite ?length_set_last, !length_map, length_seq; reflexivity.
Qed.

Lemma get_wavelength_array_length cfg :
  length (get_wavelength_array cfg) = NUM_WAVELENGTH_BINS cfg.
Proof. apply np_linspace_length. Qed.

Lemma get_mjd_array_length cfg :
  length (get_mjd_array cfg) = NUM_MJD_BINS cfg.
Proof. apply np_linspace_length. Qed.

Lemma every_other_length values :
  length (every_other values) = Nat.div2 (S (length values)).
Proof.
  enough (H : length (every_other values) = Nat.div2 (S (length values)) /\
              forall x, length (every_other (x :: values))
                        = Nat.div2 (S (length (x :: values)))) by apply H.
  induction values as [|y values [IH1 IH2]]; [split; auto|].
  split; [apply IH2|]. intros x. simpl in *. now rewrite IH1.
Qed.

Lemma rows_of_grid T : forall W flat,
  length flat = (W * T)%nat -> grid W T (rows_of W T flat).
Proof.
  induction W as [|W IH]; intros flat H; simpl.
  - split; [reflexivity | constructor].
  - destruct (IH (skipn T flat)) as [HL HR].
    + rewrite length_skipn. simpl in H. lia.
    + split; [simpl; now rewrite HL|].
      constructor; auto. rewrite length_firstn. simpl in H. lia.
Qed.

Lemma decoded_grid cfg data :
  decoded cfg data ->
  grid (NUM_WAVELENGTH_BINS cfg) (NUM_MJD_BINS cfg) (data_flux data) /\
  grid (NUM_WAVELENGTH_BINS cfg) (NUM_MJD_BINS cfg) (data_flux_err data).
Proof.
  intros [raw H]. unfold parse_tfrecord, rbind in H.
  repeat match type of H with
  | match ?m with inl _ => _ | inr _ => _ end = _ =>
      let E := fresh "E" in destruct m eqn:E; [discriminate H|]
  end.
  injection H as <-. simpl.
  unfold reshape, INPUT_SHAPE in E5.
  destruct (Nat.eqb_spec (length l0)
              (NUM_WAVELENGTH_BINS cfg * NUM_MJD_BINS cfg * 2)) as [Hlen|];
    [|discriminate].
  injection E5 as <-. unfold channel.
  split; apply rows_of_grid; rewrite every_other_length.
  - simpl. rewrite Hlen, Nat.mul_comm. apply Nat.div2_succ_double.
  - rewrite length_skipn, Hlen.
    destruct (NUM_WAVELENGTH_BINS cfg * NUM_MJD_BINS cfg)%nat as [|n];
      [reflexivity|].
    replace (S (S n * 2 - 1)) with (2 * S n)%nat by lia.
    apply Nat.div2_double.
Qed.

Lemma grid_concat_length {A} W T (a : list (list A)) :
  grid W T a -> length (concat a) = (W * T)%nat.
Proof.
  intros [<- H]. induction H as [|row a Hrow _ IH]; simpl; auto.
  rewrite length_app, IH, Hrow. reflexivity.
Qed.

Lemma grid_shape W T (a : ndarray2) :
  (0 < W)%nat -> grid W T a -> shape a = (W, T).
Proof.
  intros HW [HL H]. unfold shape. rewrite HL. f_equal.
  destruct H; simpl in *; [lia | auto].
Qed.

Lemma grid_row {A} W T (a : list (list A)) w row :
  grid W T a -> nth_error a w = Some row -> length row = T.
Proof.
  intros [_ H] Hw. apply nth_error_In in Hw.
  rewrite Forall_forall in H. auto.
Qed.

Lemma grid_map {A B} W T (f : list A -> list B) (a : list (list A)) :
  (forall row, length (f row) = length row) ->
  grid W T a -> grid W T (map f a).
Proof.
  intros Hf [HL H]. split; [now rewrite length_map|].
  apply Forall_forall. intros r Hin. apply in_map_iff in Hin as (row & <- & Hin).
  rewrite Hf. rewrite Forall_forall in H. auto.
Qed.

Lemma length_zip_with {A B C} (f : A -> B -> C) a b :
  length (zip_with f a b) = Nat.min (length a) (length b).
Proof.
  revert b. induction a as [|x a IH]; intros [|y b]; simpl; auto.
Qed.

Lemma nth_error_zip_with {A B C} (f : A -> B -> C) a b i x y :
  nth_error a i = Some x -> nth_error b i = Some y ->
  nth_error (zip_with f a b) i = Some (f x y).
Proof.
  revert b i. induction a as [|x' a IH]; intros [|y' b] [|i]; simpl;
    try discriminate; auto.
  now intros [= ->] [= ->].
Qed.

Lemma grid_zip_with {A B C} W T (f : A -> B -> C) a b :
  grid W T a -> grid W T b -> grid W T (zip_with (zip_with f) a b).
Proof.
  intros [HLa Ha] [HLb Hb]. split.
  - rewrite length_zip_with. lia.
  - clear HLa HLb. revert b Hb.
    induction Ha as [|ra a Hra _ IH]; intros b Hb; simpl; auto.
    destruct Hb as [|rb b Hrb Hb]; simpl; auto.
    constructor; auto. rewrite length_zip_with. lia.
Qed.

Lemma np_sum_axis0_length a : length (np_sum_axis0 a) = snd (shape a).
Proof. unfold np_sum_axis0. now rewrite length_map, length_seq. Qed.

Lemma light_curve_length cfg data :
  valid_config cfg -> decoded cfg data ->
  length (light_curve data) = NUM_MJD_BINS cfg.
Proof.
  intros [HW _] Hd. unfold light_curve. rewrite np_sum_axis0_length.
  apply decoded_grid in Hd as [Hf _].
  now rewrite (grid_shape _ _ _ HW Hf).
Qed.

Lemma nth_error_Some_lt {A} (l : list A) i :
  (i < length l)%nat -> exists x, nth_error l i = Some x.
Proof.
  intros H. destruct (nth_error l i) eqn:E; eauto.
  apply nth_error_None in E. lia.
Qed.

Lemma nonempty_length {A} (l : list A) : (0 < length l)%nat -> l <> [].
Proof. destruct l; simpl; [lia | congruence]. Qed.

(** ** Half-maximum crossings *)

Lemma filter_seq_first f : forall n a i,
  nth_error (filter f (seq a n)) 0 = Some i ->
  f i = true /\ (a <= i < a + n)%nat /\
  forall j, (a <= j < i)%nat -> f j = false.
Proof.
  induction n as [|n IH]; intros a i; simpl; [discriminate|].
  destruct (f a) eqn:Ha; simpl.
  - intros [= <-]. repeat split; auto; lia.
  - intros H. apply IH in H as (Hi & Hr & Hj).
    split; [auto|]. split; [lia|].
    intros j Hjr. destruct (Nat.eq_dec j a) as [->|]; auto. apply Hj. lia.
Qed.

Lemma last_error_snoc {A} (l : list A) x : last_error (l ++ [x]) = Some x.
Proof.
  unfold last_error. rewrite length_app. simpl.
  rewrite nth_error_app2 by lia.
  now replace (length l + 1 - 1 - length l)%nat with 0%nat by lia.
Qed.

Lemma filter_seq_last f : forall n a i,
  last_error (filter f (seq a n)) = Some i ->
  f i = true /\ (a <= i < a + n)%nat /\
  forall j, (i < j < a + n)%nat -> f j = false.
Proof.
  induction n as [|n IH]; intros a i.
  - unfold last_error. simpl. discriminate.
  - rewrite seq_S, filter_app. simpl. destruct (f (a + n)%nat) eqn:Hl.
    + rewrite last_error_snoc. intros [= <-]. repeat split; auto; lia.
    + rewrite app_nil_r. intros H. apply IH in H as (Hi & Hr & Hj).
      split; [auto|]. split; [lia|].
      intros j Hjr. destruct (Nat.eq_dec j (a + n)) as [->|]; auto.
      apply Hj. lia.
Qed.

Lemma np_any_nth c : np_any c = true ->
  exists i, (i < length c)%nat /\ nth i c false = true.
Proof.
  unfold np_any. rewrite existsb_exists. intros (b & Hin & ->).
  apply In_nth with (d := false) in Hin as (i & Hi & Hn). eauto.
Qed.

Lemma np_any_false_nth c i : np_any c = false -> nth i c false = false.
Proof.
  intros H. destruct (nth i c false) eqn:E; auto.
  assert (np_any c = true); [|congruence].
  unfold np_any. apply existsb_exists. exists true. split; auto.
  rewrite <- E. apply nth_In.
  destruct (Nat.lt_ge_cases i (length c)); auto.
  rewrite nth_overflow in E by auto. discriminate.
Qed.

Lemma np_flatnonzero_nonempty c :
  np_any c = true -> exists i, nth_error (np_flatnonzero c) 0 = Some i.
Proof.
  intros H. apply np_any_nth in H as (i & Hi & Hn).
  assert (Hin : In i (np_flatnonzero c)).
  { unfold np_flatnonzero. apply filter_In. split; auto. apply in_seq. lia. }
  destruct (np_flatnonzero c); [destruct Hin | simpl; eauto].
Qed.

Lemma last_error_nonempty {A} (l : list A) x :
  nth_error l 0 = Some x -> exists y, last_error l = Some y.
Proof.
  intros H. unfold last_error. apply nth_error_Some_lt.
  assert (0 < length l)%nat by (apply nth_error_Some; congruence). lia.
Qed.

Lemma above_half_nth lc half_max t :
  nth t (above_half lc half_max) false = true <-> above lc half_max t.
Proof.
  unfold above_half, above. split.
  - intros H. destruct (nth_error lc t) as [x|] eqn:E.
    + exists x. split; auto.
      erewrite nth_error_nth in H; [exact H|].
      now rewrite nth_error_map, E.
    + rewrite nth_overflow in H; [discriminate|].
      rewrite length_map. now apply nth_error_None.
  - intros (x & E & Hx). erewrite nth_error_nth; [exact Hx|].
    now rewrite nth_error_map, E.
Qed.

Lemma above_lt lc half_max t : above lc half_max t -> (t < length lc)%nat.
Proof. intros (x & E & _). apply nth_error_Some. congruence. Qed.

Lemma rise_decline_duration_spec mjds lc p m :
  length mjds = length lc -> (p < length lc)%nat ->
  exists r d du,
    rise_decline_duration mjds lc p m = Some (r, d, du) /\
    ((forall t, ~ above lc (m / 2) t) -> r = nan /\ d = nan /\ du = nan) /\
    ((exists t, above lc (m / 2) t) ->
     exists first last tp tf tl,
       above lc (m / 2) first /\
       (forall t, above lc (m / 2) t -> (first <= t)%nat) /\
       above lc (m / 2) last /\
       (forall t, above lc (m / 2) t -> (t <= last)%nat) /\
       nth_error mjds p = Some tp /\
       nth_error mjds first = Some tf /\
       nth_error mjds last = Some tl /\
       r = tp - tf /\ d = tl - tp /\ du = tl - tf).
Proof.
  intros Hlen Hp. unfold rise_decline_duration.
  destruct (np_any (above_half lc (m / 2))) eqn:Hany.
  - destruct (np_flatnonzero_nonempty _ Hany) as [f0 Hf0].
    destruct (last_error_nonempty _ _ Hf0) as [l0 Hl0].
    rewrite Hf0, Hl0. cbn [bind].
    unfold np_flatnonzero in Hf0, Hl0.
    apply filter_seq_first in Hf0 as (Hf & Hfr & Hfl).
    apply filter_seq_last in Hl0 as (Hl & Hlr & Hll).
    assert (Hlen' : length (above_half lc (m / 2)) = length lc)
      by (unfold above_half; now rewrite length_map).
    rewrite Hlen' in *.
    destruct (nth_error_Some_lt mjds p) as [tp Etp]; [lia|].
    destruct (nth_error_Some_lt mjds f0) as [tf Etf]; [lia|].
    destruct (nth_error_Some_lt mjds l0) as [tl Etl]; [lia|].
    rewrite Etp, Etf, Etl. cbn [bind].
    do 3 eexists. split; [reflexivity|]. split.
    + intros Hnone. exfalso. apply (Hnone f0). now apply above_half_nth.
    + intros _. exists f0, l0, tp, tf, tl.
      split; [now apply above_half_nth|]. split.
      { intros t Ht. destruct (Nat.le_gt_cases f0 t) as [|Hlt]; auto.
        apply above_half_nth in Ht. rewrite Hfl in Ht by lia. discriminate. }
      split; [now apply above_half_nth|]. split.
      { intros t Ht. destruct (Nat.le_gt_cases t l0) as [|Hlt]; auto.
        pose proof (above_lt _ _ _ Ht).
        apply above_half_nth in Ht. rewrite Hll in Ht by lia. discriminate. }
      repeat split; auto.
  - do 3 eexists. split; [reflexivity|]. split; auto.
    intros [t Ht]. exfalso. apply above_half_nth in Ht.
    rewrite (np_any_false_nth _ _ Hany) in Ht. discriminate.
Qed.

(** ** Colour bands *)

Lemma filter_map_comm {A B} (f : B -> bool) (g : A -> B) l :
  filter f (map g l) = map g (filter (fun x => f (g x)) l).
Proof.
  induction l as [|x l IH]; simpl; auto.
  destruct (f (g x)); simpl; now rewrite IH.
Qed.

Lemma select_rows_members : forall (a : ndarray2) mask,
  length mask = length a ->
  select_rows mask a
  = map (fun w => nth w a []) (filter (fun w => nth w mask false) (seq 0 (length a))).
Proof.
  induction a as [|r a IH]; intros [|b m] Hlen; simpl in *; try discriminate; auto.
  injection Hlen as Hlen.
  rewrite <- seq_shift, filter_map_comm.
  destruct b; simpl; rewrite map_map; simpl; now rewrite IH.
Qed.

Lemma band_idx_nth wavelengths lo hi w :
  (w < length wavelengths)%nat ->
  nth w (band_idx wavelengths lo hi) false
  = (lo <=? nth w wavelengths 0) && (nth w wavelengths 0 <=? hi).
Proof.
  intros H. unfold band_idx.
  destruct (nth_error_Some_lt _ _ H) as [x E].
  erewrite nth_error_nth by (rewrite nth_error_map, E; reflexivity).
  now rewrite (nth_error_nth _ _ 0 E).
Qed.

Lemma band_idx_length wavelengths lo hi :
  length (band_idx wavelengths lo hi) = length wavelengths.
Proof. unfold band_idx. apply length_map. Qed.

Lemma band_members_idx wavelengths lo hi :
  filter (fun w => nth w (band_idx wavelengths lo hi) false)
         (seq 0 (length wavelengths))
  = band_members wavelengths lo hi.
Proof.
  unfold band_members. apply filter_ext_in. intros w Hin.
  apply in_seq in Hin. apply band_idx_nth. lia.
Qed.

Lemma band_members_any wavelengths lo hi :
  np_any (band_idx wavelengths lo hi) = nonempty (band_members wavelengths lo hi).
Proof.
  rewrite <- band_members_idx.
  destruct (np_any (band_idx wavelengths lo hi)) eqn:Hany.
  - apply np_any_nth in Hany as (i & Hi & Hn). rewrite band_idx_length in Hi.
    assert (Hin : In i (filter (fun w => nth w (band_idx wavelengths lo hi) false)
                           (seq 0 (length wavelengths)))).
    { apply filter_In. split; auto. apply in_seq. lia. }
    destruct (filter _ _); [destruct Hin | reflexivity].
  - destruct (filter _ _) as [|i l] eqn:E; auto.
    assert (Hin : In i (i :: l)) by (left; auto).
    rewrite <- E in Hin. apply filter_In in Hin as [_ Hn].
    now rewrite (np_any_false_nth _ _ Hany) in Hn.
Qed.

Lemma zip_with_seq {A B C} (f : A -> B -> C) (g : nat -> B) d : forall l a,
  zip_with f l (map g (seq a (length l)))
  = map (fun t => f (nth (t - a) l d) (g t)) (seq a (length l)).
Proof.
  induction l as [|x l IH]; intros a; simpl; auto.
  rewrite Nat.sub_diag. f_equal. rewrite IH.
  apply map_ext_in. intros t Hin. apply in_seq in Hin.
  replace (t - a)%nat with (S (t - S a)) by lia. reflexivity.
Qed.

Lemma band_flux_total W T lc flux wavelengths lo hi :
  grid W T flux -> length wavelengths = W -> length lc = T ->
  band_members wavelengths lo hi <> [] ->
  band_flux lc flux (band_idx wavelengths lo hi)
  = Some (band_total lc flux (band_members wavelengths lo hi)).
Proof.
  intros Hg Hw Hlc Hne. unfold band_flux, mask_rows.
  pose proof Hg as [HL Hrows].
  rewrite band_idx_length, Hw, HL, Nat.eqb_refl. cbn [bind]. f_equal.
  rewrite select_rows_members by (rewrite band_idx_length; lia).
  rewrite HL, <- Hw, band_members_idx.
  unfold band_total, np_sum_axis0, shape. cbn [snd].
  assert (HT : length (hd [] (map (fun w => nth w flux [])
                                 (band_members wavelengths lo hi))) = length lc).
  { destruct (band_members wavelengths lo hi) as [|w ms] eqn:E; [congruence|].
    simpl. assert (Hin : In w (w :: ms)) by (left; auto).
    rewrite <- E in Hin. apply filter_In in Hin as [Hin _].
    apply in_seq in Hin. rewrite Hlc.
    rewrite Forall_forall in Hrows. apply Hrows. apply nth_In. lia. }
  rewrite HT. rewrite (zip_with_seq _ _ 0). f_equal.
  apply map_ext. intros t. rewrite Nat.sub_0_r. f_equal. f_equal.
  unfold column. rewrite map_map. reflexivity.
Qed.

Lemma color_information_spec W T wavelengths lc flux :
  grid W T flux -> length wavelengths = W -> length lc = T ->
  exists b r c,
    color_information wavelengths lc flux = Some (b, r, c) /\
    (band_members wavelengths 3000 5000 <> [] ->
     band_members wavelengths 6000 10000 <> [] ->
     b = band_total lc flux (band_members wavelengths 3000 5000) /\
     r = band_total lc flux (band_members wavelengths 6000 10000) /\
     ((0 <? r) = true -> c = b / r) /\
     ((r <=? 0) = true -> c = nan)) /\
    (band_members wavelengths 3000 5000 = [] \/
     band_members wavelengths 6000 10000 = [] ->
     b = nan /\ r = nan /\ c = nan).
Proof.
  intros Hg Hw Hlc. unfold color_information.
  rewrite !band_members_any.
  destruct (band_members wavelengths 3000 5000) as [|wb mb] eqn:Eb;
    [|destruct (band_members wavelengths 6000 10000) as [|wr mr] eqn:Er];
    cbn [nonempty andb].
  - do 3 eexists. split; [reflexivity|]. split; [congruence | auto].
  - do 3 eexists. split; [reflexivity|]. split; [congruence | auto].
  - rewrite (band_flux_total W T), (band_flux_total W T)
      by (auto; congruence).
    cbn [bind]. rewrite Eb, Er.
    do 3 eexists. split; [reflexivity|]. split.
    + intros _ _. repeat split.
      * intros ->. reflexivity.
      * intros Hle. rewrite ltb_leb, Hle, andb_false_r. reflexivity.
    + intros [?|?]; discriminate.
Qed.

(** ** Signal-to-noise grid *)

Lemma grid_getitem2 W T (a : ndarray2) w t :
  grid W T a -> (w < W)%nat -> (t < T)%nat ->
  getitem2 a w t = Some (entry a w t).
Proof.
  intros Hg Hw Ht. unfold getitem2, entry.
  destruct (nth_error_Some_lt a w) as [row Er]; [destruct Hg; lia|].
  rewrite Er, (nth_error_nth _ _ [] Er).
  pose proof (grid_row _ _ _ _ _ Hg Er) as Hrow.
  destruct (nth_error_Some_lt row t) as [x Ex]; [lia|].
  now rewrite Ex, (nth_error_nth _ _ 0 Ex).
Qed.

Lemma getitem2_lt W T (a : ndarray2) w t x :
  grid W T a -> getitem2 a w t = Some x -> (w < W)%nat /\ (t < T)%nat.
Proof.
  intros Hg. unfold getitem2. destruct (nth_error a w) as [row|] eqn:Er;
    [|discriminate].
  intros Ex. split.
  - destruct Hg as [<- _]. apply nth_error_Some. congruence.
  - rewrite <- (grid_row _ _ _ _ _ Hg Er). apply nth_error_Some. congruence.
Qed.

Lemma np_any_map {A} (f : A -> bool) l : np_any (map f l) = existsb f l.
Proof.
  unfold np_any. induction l as [|x l IH]; simpl; auto. now rewrite IH.
Qed.

Lemma snr_grid_spec cfg data :
  valid_config cfg -> decoded cfg data ->
  exists quotient snr,
    snr_quotient data = Some quotient /\
    snr_grid data = Some snr /\
    grid (NUM_WAVELENGTH_BINS cfg) (NUM_MJD_BINS cfg) quotient /\
    grid (NUM_WAVELENGTH_BINS cfg) (NUM_MJD_BINS cfg) snr /\
    forall w t, (w < NUM_WAVELENGTH_BINS cfg)%nat -> (t < NUM_MJD_BINS cfg)%nat ->
      getitem2 quotient w t
      = Some (entry (data_flux data) w t / entry (data_flux_err data) w t) /\
      getitem2 snr w t
      = Some (if 0 <? entry (data_flux_err data) w t
              then entry (data_flux data) w t / entry (data_flux_err data) w t
              else 0).
Proof.
  intros [HW HT] Hd. destruct (decoded_grid _ _ Hd) as [Hf He].
  unfold snr_grid, snr_quotient, elementwise2.
  rewrite (grid_shape _ _ _ HW Hf), (grid_shape _ _ _ HW He).
  cbn [fst snd]. rewrite !Nat.eqb_refl. cbn [andb bind].
  do 2 eexists. split; [reflexivity|]. split; [reflexivity|].
  assert (Hq : grid (NUM_WAVELENGTH_BINS cfg) (NUM_MJD_BINS cfg)
                 (zip_with (zip_with div) (data_flux data) (data_flux_err data)))
    by now apply grid_zip_with.
  assert (Hc : grid (NUM_WAVELENGTH_BINS cfg) (NUM_MJD_BINS cfg)
                 (map (map (fun e => 0 <? e)) (data_flux_err data))).
  { apply grid_map; auto. intros row. apply length_map. }
  split; [exact Hq|]. split; [now apply grid_zip_with|].
  intros w t Hw Ht.
  pose proof (grid_getitem2 _ _ _ w t Hf Hw Ht) as Gf.
  pose proof (grid_getitem2 _ _ _ w t He Hw Ht) as Ge.
  unfold getitem2 in Gf, Ge |- *.
  destruct (nth_error (data_flux data) w) as [rf|] eqn:Erf; [|discriminate].
  destruct (nth_error (data_flux_err data) w) as [re|] eqn:Ere; [|discriminate].
  assert (Eq : nth_error (zip_with (zip_with div) (data_flux data)
                            (data_flux_err data)) w
               = Some (zip_with div rf re))
    by now apply nth_error_zip_with.
  assert (Eqt : nth_error (zip_with div rf re) t
                = Some (entry (data_flux data) w t / entry (data_flux_err data) w t))
    by now apply nth_error_zip_with.
  rewrite Eq. split; [exact Eqt|].
  unfold np_where.
  erewrite nth_error_zip_with;
    [| rewrite nth_error_map, Ere; reflexivity | exact Eq].
  erewrite nth_error_zip_with;
    [reflexivity | rewrite nth_error_map, Ge; reflexivity | exact Eqt].
Qed.

(** ** The reducer succeeds on every decoded record *)

Lemma nearest_mjd_idx_Some cfg target :
  valid_config cfg -> exists i, nearest_mjd_idx cfg target = Some i.
Proof.
  intros [_ HT]. apply np_argmin_Some, nonempty_length.
  now rewrite length_map, get_mjd_array_length.
Qed.

Lemma np_argmax_lt a : (0 < length a)%nat ->
  exists i, np_argmax a = Some i /\ (i < length a)%nat.
Proof.
  intros H. destruct (np_argmax_Some a (nonempty_length _ H)) as [i E].
  exists i. split; auto. eapply first_max_lt, np_argmax_first_max; eauto.
Qed.

Lemma np_max_lt a : (0 < length a)%nat -> exists m, np_max a = Some m.
Proof. intros H. apply np_max_Some, nonempty_length, H. Qed.

Lemma extract_summary_statistics_reduction cfg data :
  valid_config cfg -> decoded cfg data ->
  exists info fi p s e snr,
    extract_summary_statistics cfg data = Some info /\
    Reduction cfg data info fi p s e snr.
Proof.
  intros Hv Hd. pose proof Hv as [HW HT].
  destruct (decoded_grid _ _ Hd) as [Hf He].
  set (W := NUM_WAVELENGTH_BINS cfg) in *.
  set (T := NUM_MJD_BINS cfg) in *.
  pose proof (grid_concat_length _ _ _ Hf) as Hravel.
  pose proof (grid_shape _ _ _ HW Hf) as Hshape.
  pose proof (light_curve_length _ _ Hv Hd) as Hlc. fold T in Hlc.
  assert (HWT : (0 < W * T)%nat) by (apply Nat.mul_pos_pos; auto).
  destruct (np_max_lt (ravel (data_flux data))) as [mx Emx];
    [unfold ravel; lia|].
  destruct (np_argmax_lt (ravel (data_flux data))) as [fi [Efi Hfi]];
    [unfold ravel; lia|].
  unfold ravel in Hfi. rewrite Hravel in Hfi.
  assert (Hfw : (fi / T < W)%nat)
    by (apply Nat.Div0.div_lt_upper_bound; lia).
  assert (Hft : (fi mod T < T)%nat) by (apply Nat.mod_upper_bound; lia).
  destruct (nth_error_Some_lt (get_wavelength_array cfg) (fi / T)) as [pw Epw];
    [now rewrite get_wavelength_array_length|].
  destruct (nth_error_Some_lt (get_mjd_array cfg) (fi mod T)) as [pm Epm];
    [now rewrite get_mjd_array_length|].
  destruct (np_max_lt (light_curve data)) as [lm Elm]; [lia|].
  destruct (np_argmax_lt (light_curve data)) as [p [Ep Hp]]; [lia|].
  destruct (nth_error_Some_lt (get_mjd_array cfg) p) as [tp Etp];
    [rewrite get_mjd_array_length; fold T; lia|].
  destruct (rise_decline_duration_spec (get_mjd_array cfg) (light_curve data) p lm)
    as (r & d & du & Erise & _); [rewrite get_mjd_array_length; fold T; lia | lia |].
  destruct (nearest_mjd_idx_Some cfg (-10) Hv) as [s Es].
  destruct (nearest_mjd_idx_Some cfg 20 Hv) as [e Ee].
  assert (Hps : length (peak_spectrum (data_flux data) s e) = W)
    by (unfold peak_spectrum; rewrite length_map; apply Hf).
  destruct (np_max_lt (peak_spectrum (data_flux data) s e)) as [sm Esm]; [lia|].
  destruct (np_argmax_lt (peak_spectrum (data_flux data) s e)) as [k [Ek Hk]];
    [lia|].
  destruct (nth_error_Some_lt (get_wavelength_array cfg) k) as [sw Esw];
    [rewrite get_wavelength_array_length; fold W; lia|].
  destruct (color_information_spec W T (get_wavelength_array cfg)
              (light_curve data) (data_flux data))
    as (b & rd & c & Ecol & _); auto using get_wavelength_array_length.
  destruct (snr_grid_spec cfg data Hv Hd)
    as (q & snr & _ & Esnr & _ & Hsnr & _).
  fold W T in Hsnr.
  destruct (np_max_lt (ravel snr)) as [smx Esmx];
    [unfold ravel; rewrite (grid_concat_length _ _ _ Hsnr); lia|].
  pose proof (grid_getitem2 _ _ _ _ _ Hsnr Hfw Hft) as Epk.
  eexists. exists fi, p, s, e, snr.
  unfold extract_summary_statistics. cbv zeta. rewrite Emx. cbn [bind]. rewrite Efi. cbn [bind].
  unfold np_unravel_index. rewrite Hshape. cbn [fst snd].
  replace (fi <? W * T)%nat with true by (symmetry; now apply Nat.ltb_lt).
  cbn [bind fst snd]. rewrite Epw, Epm. cbn [bind].
  rewrite Elm. cbn [bind]. rewrite Ep. cbn [bind]. rewrite Etp. cbn [bind].
  rewrite Erise. cbn [bind]. rewrite Es, Ee. cbn [bind].
  rewrite Esm, Ek. cbn [bind]. rewrite Esw. cbn [bind].
  rewrite Ecol. cbn [bind]. rewrite Esnr. cbn [bind].
  rewrite Esmx. cbn [bind]. rewrite Epk. cbn [bind].
  split; [reflexivity|].
  constructor; cbn; auto.
Qed.

(** ** Projections *)

Lemma nth_error_zip3 {A B C} (a : list A) (b : list B) (c : list C) i x y z :
  nth_error a i = Some x -> nth_error b i = Some y -> nth_error c i = Some z ->
  nth_error (zip3 a b c) i = Some (x, y, z).
Proof.
  revert b c i. induction a as [|x' a IH]; intros [|y' b] [|z' c] [|i]; simpl;
    try discriminate; auto.
  now intros [= ->] [= ->] [= ->].
Qed.

Lemma length_zip3 {A B C} (a : list A) (b : list B) (c : list C) :
  length a = length b -> length a = length c ->
  length (zip3 a b c) = length a.
Proof.
  revert b c. induction a as [|x a IH]; intros [|y b] [|z c]; simpl;
    try discriminate; auto.
Qed.

(** ** The batch driver *)

Lemma decode_f64s_length : forall n bytes,
  length bytes = (8 * n)%nat -> length (decode_f64s bytes) = n.
Proof.
  induction n as [|n IH]; intros bytes H.
  - destruct bytes; [reflexivity | simpl in H; lia].
  - destruct bytes as [|b0 [|b1 [|b2 [|b3 [|b4 [|b5 [|b6 [|b7 rest]]]]]]]];
      simpl in H; try lia.
    simpl. f_equal. apply IH. lia.
Qed.

Lemma malformed_parse cfg raw_record :
  malformed cfg raw_record -> exists e, parse_tfrecord cfg raw_record = inl e.
Proof.
  intros [(key & Hin & Hnone) | (payload & Hsome & Hlen)];
    unfold parse_tfrecord, rbind.
  - assert (Hi : fixed_int64 key raw_record = inl (FeatureRequired key))
      by (unfold fixed_int64; now rewrite Hnone).
    assert (Hs : fixed_string key raw_record = inl (FeatureRequired key))
      by (unfold fixed_string; now rewrite Hnone).
    assert (Hf : fixed_float32 key raw_record = inl (FeatureRequired key))
      by (unfold fixed_float32; now rewrite Hnone).
    simpl in Hin.
    destruct Hin as [<-|[<-|[<-|[<-|[<-|[]]]]]];
      repeat match goal with
      | |- exists e, inl _ = inl e => eexists; reflexivity
      | |- context [fixed_int64 ?k raw_record] =>
          first [rewrite Hi | destruct (fixed_int64 k raw_record)]
      | |- context [fixed_string ?k raw_record] =>
          first [rewrite Hs | destruct (fixed_string k raw_record)]
      | |- context [fixed_float32 ?k raw_record] =>
          first [rewrite Hf | destruct (fixed_float32 k raw_record)]
      end.
  - assert (Hs : fixed_string "image_raw" raw_record = inr payload)
      by (unfold fixed_string; now rewrite Hsome).
    rewrite Hs.
    repeat match goal with
    | |- exists e, inl _ = inl e => eexists; reflexivity
    | |- context [fixed_int64 ?k raw_record] =>
        destruct (fixed_int64 k raw_record)
    | |- context [fixed_float32 ?k raw_record] =>
        destruct (fixed_float32 k raw_record)
    end.
    unfold decode_raw.
    destruct (Nat.eqb_spec (length payload mod 8) 0) as [Hmod|];
      [|eexists; reflexivity].
    unfold reshape, INPUT_SHAPE.
    apply Nat.Div0.div_exact in Hmod.
    rewrite (decode_f64s_length (length payload / 8)) by exact Hmod.
    destruct (Nat.eqb_spec (length payload / 8)
                (NUM_WAVELENGTH_BINS cfg * NUM_MJD_BINS cfg * 2)) as [Hq|];
      [lia | eexists; reflexivity].
Qed.

Lemma extract_spectrum_Some cfg data :
  valid_config cfg -> exists row, extract_spectrum cfg data = Some row.
Proof.
  intros Hv. unfold extract_spectrum.
  destruct (nearest_mjd_idx_Some cfg (-10) Hv) as [s ->].
  destruct (nearest_mjd_idx_Some cfg 20 Hv) as [e ->].
  cbn [bind]. eauto.
Qed.

Lemma loop_body_decodable cfg fl fs st raw_record :
  valid_config cfg -> decodable cfg raw_record ->
  exists info lc spec,
    summary_row cfg raw_record info /\
    lightcurve_row cfg raw_record lc /\
    spectrum_row cfg raw_record spec /\
    loop_body cfg fl fs st raw_record
    = inr {| summary_data := summary_data st ++ [info];
             lightcurve_data :=
               if fl then lightcurve_data st ++ [lc] else lightcurve_data st;
             spectrum_data :=
               if fs then spectrum_data st ++ [spec] else spectrum_data st;
             count := S (count st) |}.
Proof.
  intros Hv [data Hp].
  destruct (extract_summary_statistics_reduction cfg data Hv)
    as (info & _ & _ & _ & _ & _ & Hinfo & _); [now exists raw_record|].
  destruct (extract_spectrum_Some cfg data Hv) as [spec Hspec].
  exists info, (extract_lightcurve cfg data), spec.
  split; [now exists data|]. split; [now exists data|].
  split; [now exists data|].
  unfold loop_body. rewrite Hp, Hinfo, Hspec. now destruct fs.
Qed.

Lemma run_loop_decodable cfg fl fs : forall dataset st,
  valid_config cfg -> Forall (decodable cfg) dataset ->
  exists infos lcs specs,
    Forall2 (summary_row cfg) dataset infos /\
    Forall2 (lightcurve_row cfg) dataset lcs /\
    Forall2 (spectrum_row cfg) dataset specs /\
    run_loop cfg fl fs st dataset
    = inr {| summary_data := summary_data st ++ infos;
             lightcurve_data :=
               if fl then lightcurve_data st ++ lcs else lightcurve_data st;
             spectrum_data :=
               if fs then spectrum_data st ++ specs else spectrum_data st;
             count := count st + length dataset |}.
Proof.
  induction dataset as [|r dataset IH]; intros st Hv Hall.
  - exists [], [], []. repeat split; try constructor.
    destruct st; simpl. rewrite !app_nil_r, Nat.add_0_r. now destruct fl, fs.
  - inversion Hall as [|? ? Hr Hrest]; subst.
    destruct (loop_body_decodable cfg fl fs st r Hv Hr)
      as (info & lc & spec & Hi & Hl & Hs & Hbody).
    destruct (IH {| summary_data := summary_data st ++ [info];
                    lightcurve_data :=
                      if fl then lightcurve_data st ++ [lc]
                      else lightcurve_data st;
                    spectrum_data :=
                      if fs then spectrum_data st ++ [spec]
                      else spectrum_data st;
                    count := S (count st) |} Hv Hrest)
      as (infos & lcs & specs & Hi' & Hl' & Hs' & Hrun).
    exists (info :: infos), (lc :: lcs), (spec :: specs).
    repeat split; try (constructor; assumption).
    simpl. rewrite Hbody, Hrun. cbn [summary_data lightcurve_data spectrum_data count].
    f_equal. f_equal.
    + now rewrite <- app_assoc.
    + destruct fl; auto. now rewrite <- app_assoc.
    + destruct fs; auto. now rewrite <- app_assoc.
    + lia.
Qed.

Lemma run_loop_app cfg fl fs : forall before st rest,
  run_loop cfg fl fs st (before ++ rest)
  = match run_loop cfg fl fs st before with
    | inl failure => inl failure
    | inr st' => run_loop cfg fl fs st' rest
    end.
Proof.
  induction before as [|r before IH]; intros st rest; simpl; auto.
  destruct (loop_body cfg fl fs st r); auto.
Qed.

Lemma run_loop_rows cfg fl fs : forall dataset st st',
  run_loop cfg fl fs st dataset = inr st' ->
  length (summary_data st') = (length (summary_data st) + length dataset)%nat /\
  count st' = (count st + length dataset)%nat /\
  Forall (decodable cfg) dataset.
Proof.
  induction dataset as [|r dataset IH]; intros st st' H; simpl in H.
  - injection H as <-. repeat split; auto; simpl; lia.
  - destruct (loop_body cfg fl fs st r) as [f|st1] eqn:Hb; [discriminate|].
    apply IH in H as (Hlen & Hcount & Hall).
    unfold loop_body in Hb.
    destruct (parse_tfrecord cfg r) as [e|data] eqn:Hp; [discriminate|].
    destruct (extract_summary_statistics cfg data); [|discriminate].
    destruct (if fs then _ else _); [|discriminate].
    injection Hb as <-. simpl in Hlen, Hcount.
    rewrite length_app in Hlen. simpl in Hlen |- *.
    repeat split; try lia. constructor; auto. now exists data.
Qed.

Lemma run_loop_malformed cfg fl fs raw_record before rest st :
  malformed cfg raw_record ->
  exists failure, run_loop cfg fl fs st (before ++ raw_record :: rest) = inl failure /\
    forall st', run_loop cfg fl fs st before = inr st' ->
      exists e, failure = (st', DecodeFailed e).
Proof.
  intros Hm. destruct (malformed_parse _ _ Hm) as [e He].
  rewrite run_loop_app.
  destruct (run_loop cfg fl fs st before) as [f|st1].
  - exists f. split; auto. discriminate.
  - simpl. unfold loop_body. rewrite He. eexists. split; [reflexivity|].
    intros st' [= <-]. eauto.
Qed.

Lemma firstn_past {A} (before : list A) x rest n :
  (length before < n)%nat ->
  firstn n (before ++ x :: rest)
  = before ++ x :: firstn (n - S (length before)) rest.
Proof.
  intros H. rewrite firstn_app, firstn_all2 by lia. f_equal.
  destruct (n - length before)%nat as [|k] eqn:E; [lia|].
  simpl. f_equal. f_equal. lia.
Qed.

Lemma firstn_before {A} (before : list A) x rest n :
  (n <= length before)%nat ->
  firstn n (before ++ x :: rest) = firstn n before.
Proof.
  intros H. rewrite firstn_app.
  replace (n - length before)%nat with 0%nat by lia.
  simpl. apply app_nil_r.
Qed.

Lemma take_Some n dataset :
  in_int64 n = true ->
  take n dataset
  = Some (if (n <? 0)%Z then dataset else firstn (Z.to_nat n) dataset).
Proof. unfold take. now intros ->. Qed.

Lemma take_None n dataset : in_int64 n = false -> take n dataset = None.
Proof. unfold take. now intros ->. Qed.

Lemma in_int64_spec n :
  in_int64 n = true <-> (- 2 ^ 63 <= n < 2 ^ 63)%Z.
Proof.
  unfold in_int64. rewrite andb_true_iff, Z.leb_le, Z.ltb_lt. tauto.
Qed.

Lemma truthy_nonzero n : n <> 0%Z -> truthy (Some n) = true.
Proof. intros H. simpl. now destruct (Z.eqb_spec n 0). Qed.

(** ** The example records *)

Lemma valid_SCENARIO : valid_config SCENARIO.
Proof. split; simpl; lia. Qed.

Lemma valid_SCONE : valid_config SCONE.
Proof. split; simpl; lia. Qed.

Lemma decoded_scenario : decoded SCENARIO scenario_data.
Proof. exists scenario_record. vm_compute. reflexivity. Qed.

Lemma decoded_cancelling : decoded SCONE cancelling_data.
Proof. exists cancelling_record. vm_compute. reflexivity. Qed.

Lemma decoded_two_errors : decoded SCONE two_errors_data.
Proof. exists two_errors_record. vm_compute. reflexivity. Qed.

Lemma decodable_blank : decodable SCONE blank_record.
Proof. eexists. vm_compute. reflexivity. Qed.

Example missing_field_is_reported :
  parse_tfrecord SCONE missing_field_record = inl (FeatureRequired "z_err").
Proof. vm_compute. reflexivity. Qed.

Example short_payload_is_reported :
  match parse_tfrecord SCONE short_payload_record with
  | inl (DecodeRawLength _) => True
  | _ => False
  end.
Proof. vm_compute. exact I. Qed.

(** * The claims *)

(** C1. For every decoded record, with [half_max = max(light_curve)/2]:
    when no time bin of the light curve exceeds [half_max], the rise,
    decline and duration fields are all NaN (which is not zero);
    otherwise, [first] and [last] being the least and the greatest time
    bin above [half_max], rise is [time[peak] - time[first]], decline is
    [time[last] - time[peak]] and duration is [time[last] - time[first]],
    the differences being stored as computed, whatever their sign. *)
Theorem C1_rise_decline_duration cfg data :
  valid_config cfg -> decoded cfg data ->
  exists info,
    extract_summary_statistics cfg data = Some info /\
    np_max (light_curve data) = Some (lc_max info) /\
    let half_max := lc_max info / 2 in
    let over := above (light_curve data) half_max in
    let mjds := get_mjd_array cfg in
    ((forall t, ~ over t) ->
       rise_time_days info = nan /\
       decline_time_days info = nan /\
       duration_days info = nan /\
       nan <> 0) /\
    ((exists t, over t) ->
     exists first last t_peak t_first t_last,
       over first /\ (forall t, over t -> (first <= t)%nat) /\
       over last /\ (forall t, over t -> (t <= last)%nat) /\
       nth_error mjds (lc_peak_mjd_idx info) = Some t_peak /\
       nth_error mjds first = Some t_first /\
       nth_error mjds last = Some t_last /\
       rise_time_days info = t_peak - t_first /\
       decline_time_days info = t_last - t_peak /\
       duration_days info = t_last - t_first).
Proof.
  intros Hv Hd.
  destruct (extract_summary_statistics_reduction cfg data Hv Hd)
    as (info & fi & p & s & e & snr & Hinfo & R).
  exists info. split; [exact Hinfo|]. split; [apply R|].
  pose proof (light_curve_length _ _ Hv Hd) as Hlc.
  assert (Hp : (p < length (light_curve data))%nat)
    by (eapply first_max_lt, np_argmax_first_max, R).
  destruct (rise_decline_duration_spec (get_mjd_array cfg) (light_curve data)
              p (lc_max info)) as (r & d & du & E & Hnone & Hsome);
    [now rewrite get_mjd_array_length | exact Hp |].
  rewrite (red_rise R) in E. injection E as <- <- <-.
  rewrite (red_lc_peak R). cbv zeta. split.
  - intros Hno. destruct (Hnone Hno) as (-> & -> & ->).
    repeat split; auto using nan_neq_zero.
  - exact Hsome.
Qed.

Lemma C1_on_scenario :
  valid_config SCENARIO /\ decoded SCENARIO scenario_data /\
  exists info,
    extract_summary_statistics SCENARIO scenario_data = Some info /\
    np_max (light_curve scenario_data) = Some (lc_max info).
Proof.
  split; [exact valid_SCENARIO|]. split; [exact decoded_scenario|].
  destruct (C1_rise_decline_duration SCENARIO scenario_data
              valid_SCENARIO decoded_scenario) as (info & H1 & H2 & _).
  exists info. split; assumption.
Defined.

(** C2. For every decoded record: [snr[w,t]] is [flux[w,t] / flux_err[w,t]]
    where [flux_err[w,t] > 0] and 0 elsewhere, so that no quotient by an
    error that is not positive enters the grid and an all-zero
    [flux_err] gives an all-zero [snr]; [snr_mean] and [snr_median] are
    the mean and the median of the strictly positive entries of [snr],
    taken in row-major order, and are 0 when there is none; [snr_max] is
    the maximum over the full grid of [W * T] entries; [snr_peak] is
    the entry of [snr] at the flux peak index. *)
Theorem C2_signal_to_noise cfg data :
  valid_config cfg -> decoded cfg data ->
  exists info snr,
    extract_summary_statistics cfg data = Some info /\
    snr_grid data = Some snr /\
    let W := NUM_WAVELENGTH_BINS cfg in
    let T := NUM_MJD_BINS cfg in
    let flux := data_flux data in
    let flux_err := data_flux_err data in
    let positive := filter (fun x => 0 <? x) (ravel snr) in
    (forall w t, (w < W)%nat -> (t < T)%nat ->
       getitem2 snr w t
       = Some (if 0 <? entry flux_err w t
               then entry flux w t / entry flux_err w t else 0)) /\
    ((forall w t, (w < W)%nat -> (t < T)%nat -> entry flux_err w t = 0) ->
     forall w t, (w < W)%nat -> (t < T)%nat -> getitem2 snr w t = Some 0) /\
    (positive <> [] ->
       snr_mean info = np_mean positive /\ snr_median info = np_median positive) /\
    (positive = [] -> snr_mean info = 0 /\ snr_median info = 0) /\
    np_max (ravel snr) = Some (snr_max info) /\
    length (ravel snr) = (W * T)%nat /\
    getitem2 snr (peak_flux_wavelength_idx info) (peak_flux_mjd_idx info)
    = Some (snr_peak info).
Proof.
  intros Hv Hd.
  destruct (extract_summary_statistics_reduction cfg data Hv Hd)
    as (info & fi & p & s & e & snr & Hinfo & R).
  destruct (snr_grid_spec cfg data Hv Hd)
    as (q & snr' & Eq & Esnr & Hq & Hsnr & Hentries).
  rewrite (red_snr R) in Esnr. injection Esnr as <-.
  exists info, snr. split; [exact Hinfo|]. split; [apply R|]. cbv zeta.
  assert (Hpos : np_any (map (fun x => 0 <? x) (ravel snr))
                 = nonempty (filter (fun x => 0 <? x) (ravel snr))).
  { rewrite np_any_map. induction (ravel snr) as [|x l IH]; simpl; auto.
    destruct (0 <? x); simpl; auto. }
  repeat split.
  - now apply Hentries.
  - intros Hzero w t Hw Ht. destruct (Hentries w t Hw Ht) as [_ ->].
    now rewrite Hzero.
  - rewrite (red_snr_mean R), Hpos.
    destruct (filter _ (ravel snr)); [congruence | reflexivity].
  - rewrite (red_snr_median R), Hpos.
    destruct (filter _ (ravel snr)); [congruence | reflexivity].
  - rewrite (red_snr_mean R), Hpos. now rewrite H.
  - rewrite (red_snr_median R), Hpos. now rewrite H.
  - apply R.
  - apply (grid_concat_length _ _ _ Hsnr).
  - rewrite (red_peak_w R), (red_peak_t R). apply R.
Qed.

Lemma C2_on_scenario :
  valid_config SCENARIO /\ decoded SCENARIO scenario_data /\
  exists info snr,
    extract_summary_statistics SCENARIO scenario_data = Some info /\
    snr_grid scenario_data = Some snr.
Proof.
  split; [exact valid_SCENARIO|]. split; [exact decoded_scenario|].
  destruct (C2_signal_to_noise SCENARIO scenario_data
              valid_SCENARIO decoded_scenario) as (info & snr & H1 & H2 & _).
  exists info, snr. split; assumption.
Defined.

(** C3, as amended. For every decoded record, with [p] the light-curve
    peak index: [flux_before_peak] is the sum of the light-curve entries
    strictly before [p] (0 when [p] is the first bin), [flux_after_peak]
    is the sum of the entries from [p] through the last bin, each a
    binary64 sum in NumPy's pairwise order, and the two runs of entries,
    put end to end, are the light curve: every bin is counted once, the
    peak bin in [flux_after_peak]. *)
Theorem C3_flux_partition cfg data :
  valid_config cfg -> decoded cfg data ->
  exists info p,
    extract_summary_statistics cfg data = Some info /\
    lc_peak_mjd_idx info = p /\
    (p < length (light_curve data))%nat /\
    let lc := light_curve data in
    flux_before_peak info = np_sum (firstn p lc) /\
    (p = 0%nat -> flux_before_peak info = 0) /\
    flux_after_peak info = np_sum (skipn p lc) /\
    firstn p lc ++ skipn p lc = lc /\
    length (firstn p lc) = p /\
    nth_error (skipn p lc) 0 = nth_error lc p.
Proof.
  intros Hv Hd.
  destruct (extract_summary_statistics_reduction cfg data Hv Hd)
    as (info & fi & p & s & e & snr & Hinfo & R).
  exists info, p. split; [exact Hinfo|]. split; [apply R|].
  assert (Hp : (p < length (light_curve data))%nat)
    by (eapply first_max_lt, np_argmax_first_max, R).
  split; [exact Hp|]. cbv zeta.
  assert (Hb : flux_before_peak info = np_sum (firstn p (light_curve data))).
  { rewrite (red_before R). destruct p; reflexivity. }
  split; [exact Hb|]. split.
  - intros ->. exact Hb.
  - rewrite (red_after R).
    replace (p <? length (light_curve data))%nat with true
      by (symmetry; now apply Nat.ltb_lt).
    split; [reflexivity|]. split; [apply firstn_skipn|]. split.
    + rewrite length_firstn. lia.
    + rewrite nth_error_skipn. f_equal. lia.
Qed.

(** C3, the statement as written fails: on a record whose light curve is
    1, 1e16, -1e16, 0, ... the peak is bin 1, [flux_before_peak] is 1 and
    [flux_after_peak] is 0, while the sum of the light curve is 0,
    because [1 + 1e16] rounds to [1e16]. *)
Lemma C3_rounding_breaks_partition :
  parse_tfrecord SCONE cancelling_record = inr cancelling_data /\
  exists info,
    extract_summary_statistics SCONE cancelling_data = Some info /\
    firstn 4 (light_curve cancelling_data)
    = [1; 10000000000000000; -10000000000000000; 0] /\
    lc_peak_mjd_idx info = 1%nat /\
    flux_before_peak info = 1 /\
    flux_after_peak info = 0 /\
    np_sum (light_curve cancelling_data) = 0 /\
    flux_before_peak info + flux_after_peak info
    <> np_sum (light_curve cancelling_data).
Proof.
  split; [vm_compute; reflexivity|].
  eexists. split; [vm_compute; reflexivity|].
  vm_compute. repeat split.
  intros H. apply (f_equal is_zero) in H.
  vm_compute in H. discriminate.
Qed.

Lemma C3_on_cancelling_record :
  valid_config SCONE /\ decoded SCONE cancelling_data /\
  exists info p,
    extract_summary_statistics SCONE cancelling_data = Some info /\
    lc_peak_mjd_idx info = p /\
    (p < length (light_curve cancelling_data))%nat.
Proof.
  split; [exact valid_SCONE|]. split; [exact decoded_cancelling|].
  destruct (C3_flux_partition SCONE cancelling_data
              valid_SCONE decoded_cancelling) as (info & p & H1 & H2 & H3 & _).
  exists info, p. repeat split; assumption.
Defined.

(** C4. For every decoded record: when the blue band [3000, 5000] and
    the red band [6000, 10000] each contain the centre of a wavelength
    bin, [blue_flux] and [red_flux] are the two band totals (the sum,
    over the time bins and in NumPy's pairwise order, of the light curve
    times the flux added up over the band's wavelength bins) and
    [color_ratio] is [blue_flux / red_flux] if [red_flux > 0] and NaN if
    [red_flux <= 0]; when one of the bands contains no bin centre, the
    three fields are NaN. *)
Theorem C4_color_information cfg data :
  valid_config cfg -> decoded cfg data ->
  exists info,
    extract_summary_statistics cfg data = Some info /\
    let blue := band_members (get_wavelength_array cfg) 3000 5000 in
    let red := band_members (get_wavelength_array cfg) 6000 10000 in
    (blue <> [] -> red <> [] ->
       blue_flux info = band_total (light_curve data) (data_flux data) blue /\
       red_flux info = band_total (light_curve data) (data_flux data) red /\
       ((0 <? red_flux info) = true ->
          color_ratio info = blue_flux info / red_flux info) /\
       ((red_flux info <=? 0) = true -> color_ratio info = nan)) /\
    (blue = [] \/ red = [] ->
       blue_flux info = nan /\ red_flux info = nan /\ color_ratio info = nan).
Proof.
  intros Hv Hd.
  destruct (extract_summary_statistics_reduction cfg data Hv Hd)
    as (info & fi & p & s & e & snr & Hinfo & R).
  exists info. split; [exact Hinfo|].
  destruct (decoded_grid _ _ Hd) as [Hf _].
  destruct (color_information_spec _ _ (get_wavelength_array cfg)
              (light_curve data) (data_flux data) Hf
              (get_wavelength_array_length cfg)
              (light_curve_length _ _ Hv Hd))
    as (b & r & c & E & Hboth & Hnone).
  rewrite (red_color R) in E. injection E as <- <- <-.
  cbv zeta. split; assumption.
Qed.

Lemma C4_on_scenario :
  valid_config SCENARIO /\ decoded SCENARIO scenario_data /\
  exists info, extract_summary_statistics SCENARIO scenario_data = Some info.
Proof.
  split; [exact valid_SCENARIO|]. split; [exact decoded_scenario|].
  destruct (C4_color_information SCENARIO scenario_data
              valid_SCENARIO decoded_scenario) as (info & H1 & _).
  exists info. assumption.
Defined.

(** C5. On the 4 x 5 grid whose only non-zero flux is [flux[2,3] = 10],
    with no error estimate anywhere, the reducer finds the flux peak at
    (2, 3); the light curve is [0, 0, 0, 10, 0]; [coverage_fraction] is
    1/20; every [snr] entry is 0 and so is [snr_mean]; the half-maximum
    is 5 and is exceeded in time bin 3 only, so that rise, decline and
    duration are all 0. *)
Theorem C5_single_entry_scenario :
  parse_tfrecord SCENARIO scenario_record = inr scenario_data /\
  exists info,
    extract_summary_statistics SCENARIO scenario_data = Some info /\
    peak_flux_wavelength_idx info = 2%nat /\
    peak_flux_mjd_idx info = 3%nat /\
    light_curve scenario_data = [0; 0; 0; 10; 0] /\
    coverage_fraction info = 1 / 20 /\
    snr_grid scenario_data = Some (repeat (repeat 0 5) 4) /\
    snr_mean info = 0 /\
    lc_max info / 2 = 5 /\
    np_flatnonzero (above_half (light_curve scenario_data) 5) = [3%nat] /\
    rise_time_days info = 0 /\
    decline_time_days info = 0 /\
    duration_days info = 0.
Proof.
  split; [vm_compute; reflexivity|].
  eexists. split; [vm_compute; reflexivity|].
  vm_compute. repeat split.
Qed.

(** C6. A raw record that lacks a required field, or whose payload does
    not have [W * T * 2 * 8] bytes, makes the decoder fail: no record is
    built from it.  In a batch, no run ever produces a row for it: a run
    that ends with tables has at most as many summary rows as there are
    records before it; when the records before it are processed and the
    cap, a 64-bit value, does not end the iteration earlier, the run
    stops at that record with a decode failure and produces no table,
    the loop having counted exactly the records before it; and a cap
    outside the 64-bit range stops the run before any record is read. *)
Theorem C6_malformed_record_stops_batch cfg raw_record :
  malformed cfg raw_record ->
  (exists e, parse_tfrecord cfg raw_record = inl e) /\
  forall before after full_lightcurves full_spectra limit,
    let dataset := before ++ raw_record :: after in
    let outcome :=
      process_tfrecord cfg dataset full_lightcurves full_spectra limit in
    (forall tables, outcome = inr tables ->
       (length (df_summary tables) <= length before)%nat) /\
    (forall st,
       run_loop cfg full_lightcurves full_spectra loop_init before = inr st ->
       (truthy limit = false \/
        exists n, limit = Some n /\ in_int64 n = true /\
                  (n < 0 \/ Z.of_nat (length before) < n)%Z) ->
       exists e,
         outcome = inl (st, DecodeFailed e) /\
         count st = length before /\
         length (summary_data st) = length before) /\
    (forall n, limit = Some n -> n <> 0%Z -> in_int64 n = false ->
       outcome = inl (loop_init, TakeCountOutOfRange)).
Proof.
  intros Hm. split; [now apply malformed_parse|].
  intros before after fl fs limit dataset outcome.
  subst outcome dataset.
  assert (Hfail : forall rest,
            exists failure,
              run_loop cfg fl fs loop_init (before ++ raw_record :: rest)
              = inl failure /\
              forall st', run_loop cfg fl fs loop_init before = inr st' ->
                exists e, failure = (st', DecodeFailed e))
    by (intros rest; now apply run_loop_malformed).
  assert (Hconsumed :
            forall n, in_int64 n = true -> (Z.of_nat (length before) < n)%Z ->
              take n (before ++ raw_record :: after)
              = Some (before ++ raw_record
                        :: firstn (Z.to_nat n - S (length before)) after)).
  { intros n Hr Hn. rewrite (take_Some _ _ Hr).
    destruct (Z.ltb_spec n 0) as [|_]; [lia|].
    f_equal. apply firstn_past. lia. }
  split; [|split].
  - intros tables. unfold process_tfrecord.
    destruct limit as [n|]; [destruct (truthy (Some n)) eqn:Ht|].
    + destruct (in_int64 n) eqn:Hr;
        [|rewrite (take_None _ _ Hr); discriminate].
      destruct (Z.ltb_spec (Z.of_nat (length before)) n) as [Hn|Hn].
      * rewrite (Hconsumed n Hr Hn).
        destruct (Hfail (firstn (Z.to_nat n - S (length before)) after))
          as (f & -> & _). discriminate.
      * rewrite (take_Some _ _ Hr). destruct (Z.ltb_spec n 0) as [Hneg|Hpos].
        -- destruct (Hfail after) as (f & -> & _). discriminate.
        -- rewrite firstn_before by lia.
           destruct (run_loop cfg fl fs loop_init (firstn (Z.to_nat n) before))
             as [f|st] eqn:Hrun; [discriminate|].
           intros [= <-]. simpl.
           apply run_loop_rows in Hrun as (Hlen & _). rewrite Hlen. simpl.
           rewrite length_firstn. lia.
    + destruct (Hfail after) as (f & -> & _). discriminate.
    + destruct (Hfail after) as (f & -> & _). discriminate.
  - intros st Hrun Hreach.
    pose proof (run_loop_rows _ _ _ _ _ _ Hrun) as (Hlen & Hcount & _).
    simpl in Hlen, Hcount.
    assert (Hcase : exists rest,
              process_tfrecord cfg (before ++ raw_record :: after) fl fs limit
              = match run_loop cfg fl fs loop_init
                                (before ++ raw_record :: rest) with
                        | inl failure => inl failure
                        | inr st' =>
                            inr {| df_summary := summary_data st';
                                   lightcurves_csv :=
                                     if fl && nonempty (lightcurve_data st')
                                     then Some (lightcurve_data st') else None;
                                   spectra_csv :=
                                     if fs && nonempty (spectrum_data st')
                                     then Some (spectrum_data st') else None |}
                        end).
    { unfold process_tfrecord.
      destruct Hreach as [Ht | (n & -> & Hr & [Hneg | Hn])].
      - exists after. destruct limit as [n|]; [rewrite Ht|]; reflexivity.
      - exists after. destruct (truthy (Some n)); [|reflexivity].
        rewrite (take_Some _ _ Hr).
        destruct (Z.ltb_spec n 0); [reflexivity | lia].
      - exists (firstn (Z.to_nat n - S (length before)) after).
        rewrite truthy_nonzero by lia.
        now rewrite (Hconsumed n Hr Hn). }
    destruct Hcase as [rest ->].
    destruct (Hfail rest) as (f & -> & Hf).
    destruct (Hf st Hrun) as [e ->]. exists e. auto.
  - intros n -> Hn Hr. unfold process_tfrecord.
    now rewrite (truthy_nonzero _ Hn), (take_None _ _ Hr).
Qed.

Lemma C6_on_missing_field :
  malformed SCONE missing_field_record /\
  exists e, parse_tfrecord SCONE missing_field_record = inl e.
Proof.
  assert (Hm : malformed SCONE missing_field_record).
  { left. exists "z_err"%string. split; [simpl; auto 6 | reflexivity]. }
  split; [exact Hm|].
  exact (proj1 (C6_malformed_record_stops_batch SCONE missing_field_record Hm)).
Defined.

(** C7, as amended. For every cap [N >= 1] that is a 64-bit value (the
    counts [dataset.take] accepts) and every source of more than [N]
    records whose first [N] records decode, the batch driver produces
    exactly [N] summary rows, those of the first [N] records in source
    order, and, for each optional table that is requested, exactly [N]
    rows, again those of the first [N] records in source order. *)
Theorem C7_cap_yields_first_records cfg dataset full_lightcurves full_spectra N :
  valid_config cfg ->
  (1 <= N)%nat -> (Z.of_nat N < 2 ^ 63)%Z -> (N < length dataset)%nat ->
  Forall (decodable cfg) (firstn N dataset) ->
  exists tables,
    process_tfrecord cfg dataset full_lightcurves full_spectra
                     (Some (Z.of_nat N)) = inr tables /\
    length (df_summary tables) = N /\
    Forall2 (summary_row cfg) (firstn N dataset) (df_summary tables) /\
    (full_lightcurves = true ->
       exists rows, lightcurves_csv tables = Some rows /\
         length rows = N /\
         Forall2 (lightcurve_row cfg) (firstn N dataset) rows) /\
    (full_spectra = true ->
       exists rows, spectra_csv tables = Some rows /\
         length rows = N /\
         Forall2 (spectrum_row cfg) (firstn N dataset) rows).
Proof.
  intros Hv HN Hr HM Hall.
  destruct (run_loop_decodable cfg full_lightcurves full_spectra
              (firstn N dataset) loop_init Hv Hall)
    as (infos & lcs & specs & Hi & Hl & Hs & Hrun).
  assert (HlenN : length (firstn N dataset) = N)
    by (rewrite length_firstn; lia).
  pose proof (Forall2_length Hi) as Li.
  pose proof (Forall2_length Hl) as Ll.
  pose proof (Forall2_length Hs) as Ls.
  unfold process_tfrecord.
  rewrite truthy_nonzero by lia.
  rewrite take_Some by (apply in_int64_spec; lia).
  destruct (Z.ltb_spec (Z.of_nat N) 0) as [|_]; [lia|].
  rewrite Nat2Z.id, Hrun. simpl.
  eexists. split; [reflexivity|]. simpl.
  repeat split; auto; try lia.
  - intros ->. exists lcs. simpl.
    destruct lcs; [simpl in Ll; lia|]. repeat split; auto. lia.
  - intros ->. exists specs. simpl.
    destruct specs; [simpl in Ls; lia|]. repeat split; auto. lia.
Qed.

(** C7, the statement as written fails for the cap 0: a source of one
    record, more than 0, yields one summary row, not zero. *)
Lemma C7_cap_zero_yields_all_rows :
  decodable SCONE blank_record /\
  (length [blank_record] > 0)%nat /\
  exists tables,
    process_tfrecord SCONE [blank_record] false false (Some 0%Z) = inr tables /\
    length (df_summary tables) = 1%nat /\
    length (df_summary tables) <> 0%nat.
Proof.
  split; [eexists; vm_compute; reflexivity|].
  split; [simpl; lia|].
  eexists. split; [vm_compute; reflexivity|].
  simpl. split; [reflexivity | discriminate].
Qed.

Lemma C7_on_three_blank_records :
  valid_config SCONE /\ (1 <= 2)%nat /\ (Z.of_nat 2 < 2 ^ 63)%Z /\
  (2 < length [blank_record; blank_record; blank_record])%nat /\
  Forall (decodable SCONE) (firstn 2 [blank_record; blank_record; blank_record]) /\
  exists tables,
    process_tfrecord SCONE [blank_record; blank_record; blank_record]
                     true true (Some 2%Z) = inr tables /\
    length (df_summary tables) = 2%nat.
Proof.
  assert (H1 : (1 <= 2)%nat) by lia.
  assert (Hr : (Z.of_nat 2 < 2 ^ 63)%Z) by (vm_compute; reflexivity).
  assert (H2 : (2 < length [blank_record; blank_record; blank_record])%nat)
    by (simpl; lia).
  assert (H3 : Forall (decodable SCONE)
                 (firstn 2 [blank_record; blank_record; blank_record]))
    by (simpl; repeat constructor; exact decodable_blank).
  split; [exact valid_SCONE|]. split; [exact H1|]. split; [exact Hr|].
  split; [exact H2|]. split; [exact H3|].
  destruct (C7_cap_yields_first_records SCONE
              [blank_record; blank_record; blank_record] true true 2
              valid_SCONE H1 Hr H2 H3) as (tables & Ht & Hl & _).
  exists tables. split; assumption.
Defined.

(** C8, as amended. For every decoded record, the spectrum projection
    carries the record id and one triple per wavelength bin: the bin's
    wavelength, the mean of its flux over the time bins
    [[peak_start_idx, peak_end_idx)], and the root mean square of its
    [flux_err] over the same time bins (the square root of the mean, not
    of the sum, of the squared errors), both means being binary64 sums
    in NumPy's pairwise order divided by the number of time bins. *)
Theorem C8_spectrum_projection cfg data :
  valid_config cfg -> decoded cfg data ->
  exists projection s e,
    extract_spectrum cfg data = Some projection /\
    nearest_mjd_idx cfg (-10) = Some s /\
    nearest_mjd_idx cfg 20 = Some e /\
    proj_snid projection = data_id data /\
    length (proj_rows projection) = NUM_WAVELENGTH_BINS cfg /\
    forall w, (w < NUM_WAVELENGTH_BINS cfg)%nat ->
      nth_error (proj_rows projection) w
      = Some (nth w (get_wavelength_array cfg) 0,
              np_mean (slice s e (nth w (data_flux data) [])),
              root_mean_square (slice s e (nth w (data_flux_err data) []))).
Proof.
  intros Hv Hd.
  destruct (nearest_mjd_idx_Some cfg (-10) Hv) as [s Es].
  destruct (nearest_mjd_idx_Some cfg 20 Hv) as [e Ee].
  destruct (decoded_grid _ _ Hd) as [[Hf _] [He _]].
  pose proof (get_wavelength_array_length cfg) as Hw.
  unfold extract_spectrum. rewrite Es, Ee. cbn [bind].
  eexists. exists s, e. split; [reflexivity|]. cbn [proj_snid proj_rows].
  repeat split; auto.
  - rewrite length_zip3; auto; unfold peak_spectrum, square;
      rewrite ?length_map; congruence.
  - intros w Hlt.
    destruct (nth_error_Some_lt (get_wavelength_array cfg) w) as [x Ex];
      [lia|].
    destruct (nth_error_Some_lt (data_flux data) w) as [rf Erf]; [lia|].
    destruct (nth_error_Some_lt (data_flux_err data) w) as [re Ere]; [lia|].
    rewrite (nth_error_nth _ _ 0 Ex), (nth_error_nth _ _ [] Erf),
      (nth_error_nth _ _ [] Ere).
    apply nth_error_zip3; auto.
    + unfold peak_spectrum. now rewrite nth_error_map, Erf.
    + unfold square. now rewrite !nth_error_map, Ere.
Qed.

(** C8, the statement as written fails: on a record whose only errors
    in the first wavelength bin are 3 and 4, inside the peak phase
    [[40, 70)], the quadrature sum is 5 while the projected error is
    [sqrt(25 / 30)]. *)
Lemma C8_error_is_not_quadrature_sum :
  parse_tfrecord SCONE two_errors_record = inr two_errors_data /\
  nearest_mjd_idx SCONE (-10) = Some 40%nat /\
  nearest_mjd_idx SCONE 20 = Some 70%nat /\
  exists projection,
    extract_spectrum SCONE two_errors_data = Some projection /\
    nth_error (proj_rows projection) 0 = Some (3000, 0, PrimFloat.sqrt (25 / 30)) /\
    quadrature_sum (slice 40 70 (nth 0 (data_flux_err two_errors_data) [])) = 5 /\
    PrimFloat.sqrt (25 / 30) <> 5.
Proof.
  split; [vm_compute; reflexivity|].
  split; [vm_compute; reflexivity|].
  split; [vm_compute; reflexivity|].
  eexists. split; [vm_compute; reflexivity|].
  vm_compute. repeat split.
  intros H. apply (f_equal (fun x => x <? 1)) in H.
  vm_compute in H. discriminate.
Qed.

Lemma C8_on_two_errors_record :
  valid_config SCONE /\ decoded SCONE two_errors_data /\
  exists projection,
    extract_spectrum SCONE two_errors_data = Some projection /\
    proj_snid projection = data_id two_errors_data /\
    length (proj_rows projection) = 32%nat.
Proof.
  split; [exact valid_SCONE|]. split; [exact decoded_two_errors|].
  destruct (C8_spectrum_projection SCONE two_errors_data
              valid_SCONE decoded_two_errors)
    as (projection & s & e & H1 & _ & _ & H2 & H3 & _).
  exists projection. repeat split; assumption.
Defined.

(** C9. A cap of 0 is no cap: the run is the run without a cap, and on a
    source whose records all decode it produces one summary row per
    record of the source, in source order. *)
Theorem C9_zero_cap_is_no_cap cfg dataset full_lightcurves full_spectra :
  valid_config cfg -> Forall (decodable cfg) dataset ->
  process_tfrecord cfg dataset full_lightcurves full_spectra (Some 0%Z)
  = process_tfrecord cfg dataset full_lightcurves full_spectra None /\
  exists tables,
    process_tfrecord cfg dataset full_lightcurves full_spectra (Some 0%Z)
    = inr tables /\
    length (df_summary tables) = length dataset /\
    Forall2 (summary_row cfg) dataset (df_summary tables).
Proof.
  intros Hv Hall. split; [reflexivity|].
  destruct (run_loop_decodable cfg full_lightcurves full_spectra
              dataset loop_init Hv Hall)
    as (infos & lcs & specs & Hi & _ & _ & Hrun).
  unfold process_tfrecord. simpl. rewrite Hrun. simpl.
  eexists. split; [reflexivity|]. simpl.
  split; [symmetry; apply (Forall2_length Hi) | exact Hi].
Qed.

Lemma C9_on_two_blank_records :
  valid_config SCONE /\ Forall (decodable SCONE) [blank_record; blank_record] /\
  exists tables,
    process_tfrecord SCONE [blank_record; blank_record] false false (Some 0%Z)
    = inr tables /\
    length (df_summary tables) = 2%nat.
Proof.
  assert (H : Forall (decodable SCONE) [blank_record; blank_record])
    by (repeat constructor; exact decodable_blank).
  split; [exact valid_SCONE|]. split; [exact H|].
  destruct (C9_zero_cap_is_no_cap SCONE [blank_record; blank_record]
              false false valid_SCONE H) as (_ & tables & Ht & Hl & _).
  exists tables. split; assumption.
Defined.

(** C10. For every decoded record, each arg-maximum field is the first
    maximal position in scan order: the flux peak index is the row-major
    unravelling of the smallest flat index holding a maximum of the flux
    grid, the light-curve peak index is the smallest time bin holding a
    maximum of the light curve, and the spectrum peak wavelength index is
    the smallest wavelength bin holding a maximum of the peak-phase
    spectrum; the value found there is the reported maximum.  Ties are
    therefore resolved towards the first position. *)
Theorem C10_argmax_first_position cfg data :
  valid_config cfg -> decoded cfg data ->
  exists info s e,
    extract_summary_statistics cfg data = Some info /\
    nearest_mjd_idx cfg (-10) = Some s /\
    nearest_mjd_idx cfg 20 = Some e /\
    let flat_idx :=
      (peak_flux_wavelength_idx info * NUM_MJD_BINS cfg
       + peak_flux_mjd_idx info)%nat in
    (peak_flux_mjd_idx info < NUM_MJD_BINS cfg)%nat /\
    first_max (ravel (data_flux data)) flat_idx /\
    nth_error (ravel (data_flux data)) flat_idx = Some (max_flux info) /\
    first_max (light_curve data) (lc_peak_mjd_idx info) /\
    nth_error (light_curve data) (lc_peak_mjd_idx info) = Some (lc_max info) /\
    first_max (peak_spectrum (data_flux data) s e)
      (spectrum_peak_wavelength_idx info) /\
    nth_error (peak_spectrum (data_flux data) s e)
      (spectrum_peak_wavelength_idx info) = Some (spectrum_max info).
Proof.
  intros Hv Hd.
  destruct (extract_summary_statistics_reduction cfg data Hv Hd)
    as (info & fi & p & s & e & snr & Hinfo & R).
  exists info, s, e. destruct Hv as [_ HT].
  split; [exact Hinfo|]. split; [apply R|]. split; [apply R|]. cbv zeta.
  rewrite (red_peak_w R), (red_peak_t R), (red_lc_peak R).
  replace (fi / NUM_MJD_BINS cfg * NUM_MJD_BINS cfg + fi mod NUM_MJD_BINS cfg)%nat
    with fi by (rewrite (Nat.div_mod_eq fi (NUM_MJD_BINS cfg)) at 1; lia).
  repeat split.
  - apply Nat.mod_upper_bound. lia.
  - apply np_argmax_first_max, R.
  - rewrite <- (np_max_argmax _ _ (red_flat_idx R)). apply R.
  - apply np_argmax_first_max, R.
  - rewrite <- (np_max_argmax _ _ (red_lc_idx R)). apply R.
  - apply np_argmax_first_max, R.
  - rewrite <- (np_max_argmax _ _ (red_spectrum_idx R)). apply R.
Qed.

Lemma C10_on_scenario :
  valid_config SCENARIO /\ decoded SCENARIO scenario_data /\
  exists info,
    extract_summary_statistics SCENARIO scenario_data = Some info /\
    first_max (light_curve scenario_data) (lc_peak_mjd_idx info).
Proof.
  split; [exact valid_SCENARIO|]. split; [exact decoded_scenario|].
  destruct (C10_argmax_first_position SCENARIO scenario_data
              valid_SCENARIO decoded_scenario)
    as (info & s & e & H1 & _ & _ & _ & _ & _ & H2 & _).
  exists info. split; assumption.
Defined.

(** * Further properties of the extraction script *)

(** ** The fields of a summary row *)

Lemma extract_summary_statistics_fields cfg data info fi p s e snr :
  valid_config cfg -> decoded cfg data ->
  extract_summary_statistics cfg data = Some info ->
  Reduction cfg data info fi p s e snr ->
  Fields cfg data info fi p s e.
Proof.
  intros Hv Hd H R. pose proof Hv as [HW HT].
  destruct (decoded_grid _ _ Hd) as [Hf _].
  pose proof (grid_shape _ _ _ HW Hf) as Hshape.
  unfold extract_summary_statistics in H. cbv zeta in H.
  destruct (np_max (ravel (data_flux data))) as [mx|]; [|discriminate].
  cbn [bind] in H. rewrite (red_flat_idx R) in H. cbn [bind] in H.
  unfold np_unravel_index in H. rewrite Hshape in H. cbn [fst snd] in H.
  destruct (fi <? NUM_WAVELENGTH_BINS cfg * NUM_MJD_BINS cfg)%nat;
    [|discriminate]. cbn [bind fst snd] in H.
  destruct (nth_error (get_wavelength_array cfg) (fi / NUM_MJD_BINS cfg))
    as [pw|] eqn:Epw; [|discriminate]. cbn [bind] in H.
  destruct (nth_error (get_mjd_array cfg) (fi mod NUM_MJD_BINS cfg))
    as [pm|] eqn:Epm; [|discriminate]. cbn [bind] in H.
  rewrite (red_lc_max R), (red_lc_idx R) in H. cbn [bind] in H.
  destruct (nth_error (get_mjd_array cfg) p) as [tp|] eqn:Etp; [|discriminate].
  cbn [bind] in H. rewrite (red_rise R) in H. cbn [bind] in H.
  rewrite (red_start R), (red_end R) in H. cbn [bind] in H.
  rewrite (red_spectrum_max R), (red_spectrum_idx R) in H. cbn [bind] in H.
  destruct (nth_error (get_wavelength_array cfg)
              (spectrum_peak_wavelength_idx info)) as [sw|] eqn:Esw;
    [|discriminate]. cbn [bind] in H.
  rewrite (red_color R), (red_snr R) in H. cbn [bind] in H.
  rewrite (red_snr_max R), (red_snr_peak R) in H. cbn [bind] in H.
  injection H as H. rewrite <- H in Esw |- *.
  constructor; cbn; auto.
Qed.

Lemma extract_summary_statistics_all cfg data :
  valid_config cfg -> decoded cfg data ->
  exists info fi p s e snr,
    extract_summary_statistics cfg data = Some info /\
    Reduction cfg data info fi p s e snr /\
    Fields cfg data info fi p s e.
Proof.
  intros Hv Hd.
  destruct (extract_summary_statistics_reduction cfg data Hv Hd)
    as (info & fi & p & s & e & snr & Hinfo & R).
  exists info, fi, p, s, e, snr. split; [exact Hinfo|]. split; [exact R|].
  eapply extract_summary_statistics_fields; eauto.
Qed.

Lemma concat_getitem2 T : forall (a : ndarray2) W w t,
  grid W T a -> (w < W)%nat -> (t < T)%nat ->
  nth_error (concat a) (w * T + t) = getitem2 a w t.
Proof.
  induction a as [|row a IH]; intros W w t [HL Hrows] Hw Ht.
  - simpl in HL. lia.
  - simpl in HL.
    assert (Hrow : length row = T) by (inversion Hrows; assumption).
    assert (Hrest : Forall (fun r => length r = T) a)
      by (inversion Hrows; assumption).
    simpl concat. destruct w as [|w].
    + simpl. unfold getitem2. simpl. now rewrite nth_error_app1 by lia.
    + rewrite nth_error_app2 by (simpl; lia).
      replace (S w * T + t - length row)%nat with (w * T + t)%nat
        by (simpl; lia).
      rewrite (IH (length a) w t); [reflexivity | split; auto | lia | lia].
Qed.

Lemma fi_in_range cfg data fi :
  valid_config cfg -> decoded cfg data ->
  np_argmax (ravel (data_flux data)) = Some fi ->
  (fi / NUM_MJD_BINS cfg < NUM_WAVELENGTH_BINS cfg)%nat /\
  (fi mod NUM_MJD_BINS cfg < NUM_MJD_BINS cfg)%nat /\
  (fi / NUM_MJD_BINS cfg * NUM_MJD_BINS cfg + fi mod NUM_MJD_BINS cfg)%nat = fi.
Proof.
  intros [HW HT] Hd Efi. destruct (decoded_grid _ _ Hd) as [Hf _].
  apply np_argmax_first_max, first_max_lt in Efi.
  unfold ravel in Efi. rewrite (grid_concat_length _ _ _ Hf) in Efi.
  split; [apply Nat.Div0.div_lt_upper_bound; lia|].
  split; [apply Nat.mod_upper_bound; lia|].
  rewrite (Nat.div_mod_eq fi (NUM_MJD_BINS cfg)) at 3. lia.
Qed.

(** X1. For every decoded record, the reported indices are inside the
    grid, each reported coordinate is the axis value at the reported
    index, and the flux grid holds [max_flux] at the reported peak
    position. *)
Theorem X1_peak_indices_and_coordinates cfg data :
  valid_config cfg -> decoded cfg data ->
  exists info,
    extract_summary_statistics cfg data = Some info /\
    let wavelengths := get_wavelength_array cfg in
    let mjds := get_mjd_array cfg in
    (peak_flux_wavelength_idx info < NUM_WAVELENGTH_BINS cfg)%nat /\
    (peak_flux_mjd_idx info < NUM_MJD_BINS cfg)%nat /\
    getitem2 (data_flux data) (peak_flux_wavelength_idx info)
             (peak_flux_mjd_idx info) = Some (max_flux info) /\
    nth_error wavelengths (peak_flux_wavelength_idx info)
    = Some (peak_flux_wavelength info) /\
    nth_error mjds (peak_flux_mjd_idx info) = Some (peak_flux_mjd info) /\
    (lc_peak_mjd_idx info < NUM_MJD_BINS cfg)%nat /\
    nth_error mjds (lc_peak_mjd_idx info) = Some (lc_peak_mjd info) /\
    (spectrum_peak_wavelength_idx info < NUM_WAVELENGTH_BINS cfg)%nat /\
    nth_error wavelengths (spectrum_peak_wavelength_idx info)
    = Some (spectrum_peak_wavelength info).
Proof.
  intros Hv Hd.
  destruct (extract_summary_statistics_all cfg data Hv Hd)
    as (info & fi & p & s & e & snr & Hinfo & R & F).
  exists info. split; [exact Hinfo|]. cbv zeta.
  destruct (fi_in_range cfg data fi Hv Hd (red_flat_idx R)) as (Hw & Ht & Hfi).
  destruct (decoded_grid _ _ Hd) as [Hf _].
  rewrite (red_peak_w R), (red_peak_t R), (red_lc_peak R).
  repeat split; try apply F; auto.
  - rewrite <- (concat_getitem2 _ _ _ _ _ Hf Hw Ht), Hfi.
    fold (ravel (data_flux data)).
    rewrite <- (np_max_argmax _ _ (red_flat_idx R)). apply R.
  - rewrite <- (light_curve_length _ _ Hv Hd).
    eapply first_max_lt, np_argmax_first_max, R.
  - rewrite <- (get_wavelength_array_length cfg).
    apply nth_error_Some. rewrite (fld_spectrum_peak_wavelength F). discriminate.
Qed.

Lemma X1_on_scenario :
  valid_config SCENARIO /\ decoded SCENARIO scenario_data /\
  exists info,
    extract_summary_statistics SCENARIO scenario_data = Some info /\
    getitem2 (data_flux scenario_data) (peak_flux_wavelength_idx info)
             (peak_flux_mjd_idx info) = Some (max_flux info).
Proof.
  split; [exact valid_SCENARIO|]. split; [exact decoded_scenario|].
  destruct (X1_peak_indices_and_coordinates SCENARIO scenario_data
              valid_SCENARIO decoded_scenario)
    as (info & H1 & _ & _ & H2 & _).
  exists info. split; assumption.
Defined.

(** X2. For every decoded record, [snr_peak] is [max_flux] divided by
    the error at the flux peak position when that error is positive, and
    0 otherwise. *)
Theorem X2_snr_peak_value cfg data :
  valid_config cfg -> decoded cfg data ->
  exists info err,
    extract_summary_statistics cfg data = Some info /\
    getitem2 (data_flux_err data) (peak_flux_wavelength_idx info)
             (peak_flux_mjd_idx info) = Some err /\
    snr_peak info = if 0 <? err then max_flux info / err else 0.
Proof.
  intros Hv Hd.
  destruct (extract_summary_statistics_all cfg data Hv Hd)
    as (info & fi & p & s & e & snr & Hinfo & R & F).
  destruct (fi_in_range cfg data fi Hv Hd (red_flat_idx R)) as (Hw & Ht & Hfi).
  destruct (decoded_grid _ _ Hd) as [Hf He].
  destruct (snr_grid_spec cfg data Hv Hd)
    as (q & snr' & _ & Esnr & _ & _ & Hentries).
  rewrite (red_snr R) in Esnr. injection Esnr as <-.
  destruct (Hentries _ _ Hw Ht) as [_ Hs].
  rewrite (red_snr_peak R) in Hs. injection Hs as Hs.
  assert (Hmax : entry (data_flux data) (fi / NUM_MJD_BINS cfg)
                   (fi mod NUM_MJD_BINS cfg) = max_flux info).
  { pose proof (grid_getitem2 _ _ _ _ _ Hf Hw Ht) as G.
    rewrite <- (concat_getitem2 _ _ _ _ _ Hf Hw Ht), Hfi in G.
    fold (ravel (data_flux data)) in G.
    rewrite <- (np_max_argmax _ _ (red_flat_idx R)), (red_max_flux R) in G.
    congruence. }
  exists info, (entry (data_flux_err data) (fi / NUM_MJD_BINS cfg)
                  (fi mod NUM_MJD_BINS cfg)).
  split; [exact Hinfo|]. rewrite (red_peak_w R), (red_peak_t R).
  split; [now apply (grid_getitem2 _ _ _ _ _ He)|].
  now rewrite Hs, Hmax.
Qed.

Lemma X2_on_cancelling_record :
  valid_config SCONE /\ decoded SCONE cancelling_data /\
  exists info err,
    extract_summary_statistics SCONE cancelling_data = Some info /\
    snr_peak info = if 0 <? err then max_flux info / err else 0.
Proof.
  split; [exact valid_SCONE|]. split; [exact decoded_cancelling|].
  destruct (X2_snr_peak_value SCONE cancelling_data
              valid_SCONE decoded_cancelling)
    as (info & err & H1 & _ & H2).
  exists info, err. split; assumption.
Defined.

(** ** Records without error estimates, records without flux *)

Lemma in_concat_getitem2 (a : ndarray2) x :
  In x (concat a) -> exists w t, getitem2 a w t = Some x.
Proof.
  intros H. apply in_concat in H as (row & Hrow & Hx).
  apply In_nth_error in Hrow as [w Hw]. apply In_nth_error in Hx as [t Ht].
  exists w, t. unfold getitem2. now rewrite Hw.
Qed.

Lemma np_max_zeros l :
  l <> [] -> (forall x, In x l -> x = 0) -> np_max l = Some 0.
Proof.
  destruct l as [|x l]; [congruence|]. intros _ H. simpl.
  rewrite (H x) by (left; reflexivity).
  assert (Hl : forall y, In y l -> y = 0) by (intros y Hy; apply H; now right).
  clear H. induction l as [|y l IH]; simpl; auto.
  rewrite (Hl y) by (left; reflexivity).
  change (np_maximum 0 0) with 0. apply IH. intros z Hz. apply Hl. now right.
Qed.

Lemma no_positive_zeros l :
  (forall x, In x l -> x = 0) -> existsb (fun x => 0 <? x) l = false.
Proof.
  induction l as [|y l IH]; intros H; simpl; auto.
  rewrite (H y) by (left; reflexivity).
  change (0 <? 0) with false. apply IH. intros z Hz. apply H. now right.
Qed.

(** X3. For every decoded record in which no entry of [flux_err] is
    positive (no error estimate anywhere), the four signal-to-noise
    statistics [snr_mean], [snr_median], [snr_max] and [snr_peak] are all
    0, whatever the flux. *)
Theorem X3_no_error_estimate_zero_snr cfg data :
  valid_config cfg -> decoded cfg data ->
  (forall w t, (w < NUM_WAVELENGTH_BINS cfg)%nat -> (t < NUM_MJD_BINS cfg)%nat ->
     (0 <? entry (data_flux_err data) w t) = false) ->
  exists info,
    extract_summary_statistics cfg data = Some info /\
    snr_mean info = 0 /\ snr_median info = 0 /\
    snr_max info = 0 /\ snr_peak info = 0.
Proof.
  intros Hv Hd Hnone.
  destruct (extract_summary_statistics_reduction cfg data Hv Hd)
    as (info & fi & p & s & e & snr & Hinfo & R).
  destruct (snr_grid_spec cfg data Hv Hd)
    as (q & snr' & _ & Esnr & _ & Hsnr & Hentries).
  rewrite (red_snr R) in Esnr. injection Esnr as <-.
  assert (Hzero : forall x, In x (ravel snr) -> x = 0).
  { intros x Hx. apply in_concat_getitem2 in Hx as (w & t & Hx).
    destruct (getitem2_lt _ _ _ _ _ _ Hsnr Hx) as [Hw Ht].
    destruct (Hentries w t Hw Ht) as [_ Hs].
    rewrite (Hnone w t Hw Ht) in Hs. congruence. }
  assert (Hne : ravel snr <> []).
  { apply nonempty_length. unfold ravel.
    rewrite (grid_concat_length _ _ _ Hsnr).
    destruct Hv. now apply Nat.mul_pos_pos. }
  exists info. split; [exact Hinfo|].
  pose proof (red_snr_mean R) as Hmean.
  pose proof (red_snr_median R) as Hmedian.
  rewrite np_any_map, (no_positive_zeros _ Hzero) in Hmean, Hmedian.
  pose proof (red_snr_max R) as Hmax.
  rewrite (np_max_zeros _ Hne Hzero) in Hmax.
  pose proof (red_snr_peak R) as Hpeak.
  repeat split; try congruence.
  apply Hzero. eapply in_concat.
  unfold getitem2 in Hpeak.
  destruct (nth_error snr (fi / NUM_MJD_BINS cfg)) as [row|] eqn:Er;
    [|discriminate].
  exists row. split; eapply nth_error_In; eauto.
Qed.

Lemma all_zero_entries W T w t :
  entry (repeat (repeat 0 T) W) w t = 0.
Proof.
  unfold entry.
  destruct (Nat.lt_ge_cases w W) as [Hw|Hw].
  - rewrite nth_repeat_lt by exact Hw.
    destruct (Nat.lt_ge_cases t T) as [Ht|Ht].
    + now rewrite nth_repeat_lt.
    + rewrite nth_overflow; [reflexivity | now rewrite repeat_length].
  - rewrite (nth_overflow (repeat (repeat 0 T) W))
      by now rewrite repeat_length.
    now destruct t.
Qed.

Lemma X3_on_scenario :
  valid_config SCENARIO /\ decoded SCENARIO scenario_data /\
  (forall w t, (w < 4)%nat -> (t < 5)%nat ->
     (0 <? entry (data_flux_err scenario_data) w t) = false) /\
  exists info,
    extract_summary_statistics SCENARIO scenario_data = Some info /\
    snr_max info = 0.
Proof.
  assert (H : forall w t, (w < 4)%nat -> (t < 5)%nat ->
            (0 <? entry (data_flux_err scenario_data) w t) = false).
  { intros w t _ _.
    change (data_flux_err scenario_data) with (repeat (repeat 0 5) 4).
    now rewrite all_zero_entries. }
  split; [exact valid_SCENARIO|]. split; [exact decoded_scenario|].
  split; [exact H|].
  destruct (X3_no_error_estimate_zero_snr SCENARIO scenario_data
              valid_SCENARIO decoded_scenario H)
    as (info & H1 & _ & _ & H2 & _).
  exists info. split; assumption.
Defined.

(** ** Arithmetic on the two zeros *)

Lemma Prim2SF_zero : Prim2SF 0 = S754_zero false.
Proof. vm_compute. reflexivity. Qed.

Lemma is_zero_spec x :
  is_zero x = true <-> exists s, Prim2SF x = S754_zero s.
Proof.
  unfold is_zero. rewrite eqb_spec. change zero with 0%float.
  rewrite Prim2SF_zero. unfold SFeqb.
  destruct (Prim2SF x) as [s|s| |s m e]; simpl; split;
    try discriminate; try (intros [s' H]; discriminate); eauto;
    destruct s; discriminate.
Qed.

Lemma is_zero_add x y :
  is_zero x = true -> is_zero y = true -> is_zero (x + y) = true.
Proof.
  rewrite !is_zero_spec. intros [sx Hx] [sy Hy].
  rewrite add_spec, Hx, Hy. destruct sx, sy; simpl; eauto.
Qed.

Lemma is_zero_mul x y :
  is_zero x = true -> is_zero y = true -> is_zero (x * y) = true.
Proof.
  rewrite !is_zero_spec. intros [sx Hx] [sy Hy].
  rewrite mul_spec, Hx, Hy. simpl. eauto.
Qed.

Lemma is_zero_half x : is_zero x = true -> is_zero (x / 2) = true.
Proof.
  rewrite !is_zero_spec. intros [sx Hx].
  rewrite div_spec, Hx.
  assert (H2 : exists m e, Prim2SF 2 = S754_finite false m e)
    by (do 2 eexists; vm_compute; reflexivity).
  destruct H2 as (m & e & ->). simpl. eauto.
Qed.

Lemma is_zero_not_above h x :
  is_zero h = true -> is_zero x = true -> (h <? x) = false.
Proof.
  rewrite !is_zero_spec. intros [sh Hh] [sx Hx].
  now rewrite ltb_spec, Hh, Hx.
Qed.

Lemma is_zero_not_positive x : is_zero x = true -> (0 <? x) = false.
Proof. apply is_zero_not_above. reflexivity. Qed.

Lemma is_zero_leb x y :
  is_zero x = true -> is_zero y = true -> (x <=? y) = true.
Proof.
  rewrite !is_zero_spec. intros [sx Hx] [sy Hy].
  now rewrite leb_spec, Hx, Hy.
Qed.

Lemma is_zero_not_nan x : is_zero x = true -> is_nan x = false.
Proof.
  intros H. rewrite is_nan_leb, (is_zero_leb x x H H). reflexivity.
Qed.

(** A zero divided by a positive number is a zero. *)
Lemma is_zero_div_positive x e :
  is_zero x = true -> (0 <? e) = true -> is_zero (x / e) = true.
Proof.
  rewrite !is_zero_spec. intros [sx Hx].
  rewrite ltb_spec, Prim2SF_zero, div_spec, Hx. unfold SFltb.
  destruct (Prim2SF e) as [s|s| |s m ex]; simpl; try discriminate; eauto.
Qed.

(** ** Sums of values that share a property closed under addition *)

Section ClosedUnderAdd.

Variable P : float -> Prop.
Hypothesis P_add : forall x y, P x -> P y -> P (x + y).
Hypothesis P_start : forall x, P x -> P (0 + x).

Lemma fold_left_add_closed a : forall acc,
  P acc -> Forall P a -> P (fold_left add a acc).
Proof.
  induction a as [|y a IH]; intros acc Hacc H; simpl; auto.
  inversion H; subst. apply IH; auto.
Qed.

Lemma sequential_sum_closed a : a <> [] -> Forall P a -> P (sequential_sum a).
Proof.
  unfold sequential_sum. destruct a as [|x a]; [congruence|].
  intros _ H. inversion H; subst. simpl.
  apply fold_left_add_closed; auto.
Qed.

Lemma accumulate_closed : forall n a, (length a <= n)%nat ->
  forall r0 r1 r2 r3 r4 r5 r6 r7,
  P r0 -> P r1 -> P r2 -> P r3 -> P r4 -> P r5 -> P r6 -> P r7 ->
  Forall P a ->
  exists s0 s1 s2 s3 s4 s5 s6 s7 tail,
    accumulate (r0, r1, r2, r3, r4, r5, r6, r7) a
    = (s0, s1, s2, s3, s4, s5, s6, s7, tail) /\
    P s0 /\ P s1 /\ P s2 /\ P s3 /\ P s4 /\ P s5 /\ P s6 /\ P s7 /\
    Forall P tail.
Proof.
  induction n as [|n IH]; intros a Hn r0 r1 r2 r3 r4 r5 r6 r7
    H0 H1 H2 H3 H4 H5 H6 H7 Ha.
  - destruct a; [|simpl in Hn; lia].
    exists r0, r1, r2, r3, r4, r5, r6, r7, []. simpl. auto 12.
  - destruct a as [|a0 [|a1 [|a2 [|a3 [|a4 [|a5 [|a6 [|a7 rest]]]]]]]];
      try (exists r0, r1, r2, r3, r4, r5, r6, r7; eexists;
           split; [reflexivity | auto 12]).
    repeat match goal with
           | H : Forall P (_ :: _) |- _ => inversion H; clear H; subst
           end.
    cbn [accumulate]. apply IH; auto. simpl in Hn. lia.
Qed.

Lemma pairwise_block_closed a : a <> [] -> Forall P a -> P (pairwise_block a).
Proof.
  intros Hne Ha.
  destruct a as [|a0 [|a1 [|a2 [|a3 [|a4 [|a5 [|a6 [|a7 rest]]]]]]]];
    [congruence| | | | | | | |];
    repeat match goal with
           | H : Forall P (_ :: _) |- _ => inversion H; clear H; subst
           end;
    try (simpl; repeat (apply P_start || apply P_add); assumption).
  unfold pairwise_block.
  destruct (accumulate_closed (length rest) rest (le_n _)
              a0 a1 a2 a3 a4 a5 a6 a7) as
    (s0 & s1 & s2 & s3 & s4 & s5 & s6 & s7 & tail & -> & K); auto.
  decompose [and] K.
  apply fold_left_add_closed; [repeat apply P_add; assumption | assumption].
Qed.

Lemma pairwise_sum_rec_closed : forall depth a,
  a <> [] -> Forall P a -> P (pairwise_sum_rec depth a).
Proof.
  induction depth as [|depth IH]; intros a Hne Ha; cbn [pairwise_sum_rec].
  - now apply pairwise_block_closed.
  - destruct (Nat.leb_spec (length a) PW_BLOCKSIZE) as [_|Hn];
      [now apply pairwise_block_closed|].
    unfold PW_BLOCKSIZE in Hn.
    pose proof (Nat.div_mod_eq (length a) 2) as E2.
    pose proof (Nat.mod_upper_bound (length a) 2) as B2.
    pose proof (Nat.mod_upper_bound (length a / 2) 8) as B8.
    assert (Hin : forall x, In x a -> P x) by now apply Forall_forall.
    apply P_add; apply IH.
    + intros E. apply (f_equal (@length float)) in E.
      rewrite length_firstn in E. cbn [length] in E. lia.
    + apply Forall_forall. intros x Hx. apply Hin.
      rewrite <- (firstn_skipn (length a / 2 - (length a / 2) mod 8) a).
      apply in_or_app. now left.
    + intros E. apply (f_equal (@length float)) in E.
      rewrite length_skipn in E. cbn [length] in E. lia.
    + apply Forall_forall. intros x Hx. apply Hin.
      rewrite <- (firstn_skipn (length a / 2 - (length a / 2) mod 8) a).
      apply in_or_app. now right.
Qed.

Lemma np_sum_closed a : a <> [] -> Forall P a -> P (np_sum a).
Proof.
  intros Hne Ha. unfold np_sum, pairwise_sum.
  apply P_start. now apply pairwise_sum_rec_closed.
Qed.

End ClosedUnderAdd.

(** The depth [pairwise_sum] passes is never used up: any two depths
    that are at least the length of the run give the same sum. *)
Lemma pairwise_sum_rec_depth : forall d1 d2 a,
  (length a <= d1)%nat -> (length a <= d2)%nat ->
  pairwise_sum_rec d1 a = pairwise_sum_rec d2 a.
Proof.
  induction d1 as [|d1 IH]; intros d2 a H1 H2.
  - destruct a; [|simpl in H1; lia]. destruct d2; reflexivity.
  - cbn [pairwise_sum_rec].
    destruct (Nat.leb_spec (length a) PW_BLOCKSIZE) as [Hn|Hn].
    + destruct d2; cbn [pairwise_sum_rec]; [reflexivity|].
      destruct (Nat.leb_spec (length a) PW_BLOCKSIZE); [reflexivity | lia].
    + unfold PW_BLOCKSIZE in Hn.
      destruct d2 as [|d2]; [lia|]. cbn [pairwise_sum_rec].
      destruct (Nat.leb_spec (length a) PW_BLOCKSIZE) as [Hn'|_];
        [unfold PW_BLOCKSIZE in Hn'; lia|].
      pose proof (Nat.div_mod_eq (length a) 2) as E2.
      pose proof (Nat.mod_upper_bound (length a) 2) as B2.
      pose proof (Nat.mod_upper_bound (length a / 2) 8) as B8.
      f_equal; apply IH; rewrite ?length_firstn, ?length_skipn; lia.
Qed.

Lemma is_zero_sequential_sum l :
  (forall x, In x l -> is_zero x = true) -> is_zero (sequential_sum l) = true.
Proof.
  unfold sequential_sum. intros H.
  apply (fold_left_add_closed (fun x => is_zero x = true) is_zero_add);
    [reflexivity | now apply Forall_forall].
Qed.

Lemma is_zero_np_sum l :
  (forall x, In x l -> is_zero x = true) -> is_zero (np_sum l) = true.
Proof.
  intros H. destruct l as [|x l]; [reflexivity|].
  apply (np_sum_closed (fun x => is_zero x = true) is_zero_add).
  - intros y Hy. now apply is_zero_add.
  - discriminate.
  - now apply Forall_forall.
Qed.

(** Among zeros, the first is the arg-maximum and the maximum. *)
Lemma argmax_from_zeros l : forall mp k i,
  is_zero mp = true -> (forall x, In x l -> is_zero x = true) ->
  argmax_from mp k i l = k.
Proof.
  induction l as [|y l IH]; intros mp k i Hmp H; simpl; auto.
  rewrite (is_zero_not_nan _ Hmp).
  rewrite (is_zero_leb y mp) by (auto; apply H; now left). simpl.
  apply IH; auto. intros z Hz. apply H. now right.
Qed.

Lemma np_argmax_zeros l :
  l <> [] -> (forall x, In x l -> is_zero x = true) -> np_argmax l = Some 0%nat.
Proof.
  destruct l as [|y l]; [congruence|]. intros _ H. simpl. f_equal.
  apply argmax_from_zeros.
  - apply H. now left.
  - intros z Hz. apply H. now right.
Qed.

Lemma count_true_none {A} (f : A -> bool) l :
  (forall x, In x l -> f x = false) -> count_true (map f l) = 0%nat.
Proof.
  unfold count_true. induction l as [|y l IH]; intros H; simpl; auto.
  rewrite (H y) by now left. apply IH. intros z Hz. apply H. now right.
Qed.

Lemma is_zero_nth l t :
  (forall x, In x l -> is_zero x = true) -> is_zero (nth t l 0) = true.
Proof.
  intros H. destruct (Nat.lt_ge_cases t (length l)) as [Ht|Ht].
  - apply H. now apply nth_In.
  - now rewrite nth_overflow.
Qed.

Lemma not_positive_nth (f : float -> bool) l t :
  (forall x, In x l -> f x = false) -> nth t (map f l) false = false.
Proof.
  intros H. destruct (Nat.lt_ge_cases t (length l)) as [Ht|Ht].
  - rewrite (nth_indep _ false (f 0)) by now rewrite length_map.
    rewrite map_nth. apply H. now apply nth_In.
  - apply nth_overflow. now rewrite length_map.
Qed.

Lemma np_any_none (c : list bool) :
  (forall b, In b c -> b = false) -> np_any c = false.
Proof.
  unfold np_any. induction c as [|b c IH]; intros H; simpl; auto.
  rewrite (H b) by now left. apply IH. intros z Hz. apply H. now right.
Qed.

Section AllZeroFlux.

Variables (cfg : Config) (data : Data).
Hypothesis Hv : valid_config cfg.
Hypothesis Hd : decoded cfg data.
Hypothesis Hzero :
  forall w t, (w < NUM_WAVELENGTH_BINS cfg)%nat -> (t < NUM_MJD_BINS cfg)%nat ->
    is_zero (entry (data_flux data) w t) = true.

Lemma zero_flux_ravel x : In x (ravel (data_flux data)) -> is_zero x = true.
Proof.
  intros Hx. destruct (decoded_grid _ _ Hd) as [Hf _].
  apply in_concat_getitem2 in Hx as (w & t & Hx).
  destruct (getitem2_lt _ _ _ _ _ _ Hf Hx) as [Hw Ht].
  rewrite (grid_getitem2 _ _ _ _ _ Hf Hw Ht) in Hx.
  injection Hx as <-. now apply Hzero.
Qed.

Lemma zero_flux_row row x :
  In row (data_flux data) -> In x row -> is_zero x = true.
Proof.
  intros Hrow Hx. apply zero_flux_ravel. unfold ravel.
  apply in_concat. eauto.
Qed.

Lemma zero_flux_light_curve x : In x (light_curve data) -> is_zero x = true.
Proof.
  unfold light_curve, np_sum_axis0. intros Hx.
  apply in_map_iff in Hx as (t & <- & _).
  apply is_zero_sequential_sum. intros y Hy. unfold column in Hy.
  apply in_map_iff in Hy as (row & <- & Hrow).
  apply is_zero_nth. intros z Hz. eapply zero_flux_row; eauto.
Qed.

Lemma zero_flux_band_total members :
  (forall w, In w members -> (w < NUM_WAVELENGTH_BINS cfg)%nat) ->
  is_zero (band_total (light_curve data) (data_flux data) members) = true.
Proof.
  intros Hm. unfold band_total. apply is_zero_np_sum. intros x Hx.
  apply in_map_iff in Hx as (t & <- & Ht). apply in_seq in Ht.
  rewrite (light_curve_length _ _ Hv Hd) in Ht.
  apply is_zero_mul.
  - apply is_zero_nth, zero_flux_light_curve.
  - apply is_zero_sequential_sum. intros y Hy.
    apply in_map_iff in Hy as (w & <- & Hw). apply Hzero; auto. lia.
Qed.

Lemma zero_flux_no_data row :
  In row (map (map (fun f => 0 <? f)) (data_flux data)) ->
  forall t, nth t row false = false.
Proof.
  intros Hrow t. apply in_map_iff in Hrow as (r & <- & Hr).
  apply not_positive_nth. intros x Hx.
  apply is_zero_not_positive. eapply zero_flux_row; eauto.
Qed.

End AllZeroFlux.

(** X4. For every decoded record whose flux entries are all zero (of
    either sign): the flux peak is reported at (0, 0) and the light-curve
    peak at time bin 0, [max_flux] and [lc_max] are zero,
    [flux_before_peak] is 0, the rise, decline and duration fields and
    [color_ratio] are NaN, [snr_mean] and [snr_median] are 0, and the
    three coverage counts are 0. *)
Theorem X4_all_zero_flux cfg data :
  valid_config cfg -> decoded cfg data ->
  (forall w t, (w < NUM_WAVELENGTH_BINS cfg)%nat -> (t < NUM_MJD_BINS cfg)%nat ->
     is_zero (entry (data_flux data) w t) = true) ->
  exists info,
    extract_summary_statistics cfg data = Some info /\
    peak_flux_wavelength_idx info = 0%nat /\
    peak_flux_mjd_idx info = 0%nat /\
    lc_peak_mjd_idx info = 0%nat /\
    is_zero (max_flux info) = true /\
    is_zero (lc_max info) = true /\
    flux_before_peak info = 0 /\
    rise_time_days info = nan /\
    decline_time_days info = nan /\
    duration_days info = nan /\
    color_ratio info = nan /\
    snr_mean info = 0 /\
    snr_median info = 0 /\
    num_nonzero_bins info = 0%nat /\
    num_epochs_with_data info = 0%nat /\
    num_wavelengths_with_data info = 0%nat.
Proof.
  intros Hv Hd Hzero.
  destruct (extract_summary_statistics_all cfg data Hv Hd)
    as (info & fi & p & s & e & snr & Hinfo & R & F).
  pose proof Hv as [HW HT].
  destruct (decoded_grid _ _ Hd) as [Hf He].
  pose proof (zero_flux_ravel cfg data Hd Hzero) as Hravel.
  pose proof (zero_flux_light_curve cfg data Hd Hzero) as Hlc.
  pose proof (light_curve_length _ _ Hv Hd) as Llc.
  assert (Efi : fi = 0%nat).
  { pose proof (red_flat_idx R) as E.
    rewrite np_argmax_zeros in E; auto; [congruence|].
    apply nonempty_length. unfold ravel.
    rewrite (grid_concat_length _ _ _ Hf). now apply Nat.mul_pos_pos. }
  assert (Ep : p = 0%nat).
  { pose proof (red_lc_idx R) as E.
    rewrite np_argmax_zeros in E; auto; [congruence|].
    apply nonempty_length. lia. }
  assert (Hmax : is_zero (max_flux info) = true).
  { pose proof (red_max_flux R) as E.
    rewrite (np_max_argmax _ _ (red_flat_idx R)) in E.
    apply Hravel. eapply nth_error_In; eauto. }
  assert (Hlmax : is_zero (lc_max info) = true).
  { pose proof (red_lc_max R) as E.
    rewrite (np_max_argmax _ _ (red_lc_idx R)) in E.
    apply Hlc. eapply nth_error_In; eauto. }
  assert (Hrise : rise_time_days info = nan /\ decline_time_days info = nan /\
                  duration_days info = nan).
  { destruct (rise_decline_duration_spec (get_mjd_array cfg) (light_curve data)
                p (lc_max info)) as (r & d & du & E & Hnone & _);
      [now rewrite get_mjd_array_length | lia |].
    rewrite (red_rise R) in E. injection E as <- <- <-.
    apply Hnone. intros t (x & Ex & Habove).
    rewrite is_zero_not_above in Habove; [discriminate | |].
    - now apply is_zero_half.
    - apply Hlc. eapply nth_error_In; eauto. }
  assert (Hcolor : color_ratio info = nan).
  { destruct (color_information_spec _ _ (get_wavelength_array cfg)
                (light_curve data) (data_flux data) Hf
                (get_wavelength_array_length cfg) Llc)
      as (b & r & c & E & Hboth & Hempty).
    rewrite (red_color R) in E. injection E as <- <- <-.
    destruct (band_members (get_wavelength_array cfg) 3000 5000) eqn:Eb;
      [apply Hempty; now left|].
    destruct (band_members (get_wavelength_array cfg) 6000 10000) eqn:Er;
      [apply Hempty; now right|].
    destruct Hboth as (_ & Hr & _ & Hnan); try discriminate.
    apply Hnan. rewrite Hr. apply is_zero_leb; [|reflexivity].
    apply (zero_flux_band_total cfg data Hv Hd Hzero).
    intros w Hw. rewrite <- Er in Hw. unfold band_members in Hw.
    apply filter_In in Hw as [Hw _]. apply in_seq in Hw.
    rewrite get_wavelength_array_length in Hw. lia. }
  assert (Hsnr : existsb (fun x => 0 <? x) (ravel snr) = false).
  { destruct (snr_grid_spec cfg data Hv Hd)
      as (q & snr' & _ & Esnr & _ & Hsnr & Hentries).
    rewrite (red_snr R) in Esnr. injection Esnr as <-.
    destruct (existsb (fun x => 0 <? x) (ravel snr)) eqn:Ex; auto.
    apply existsb_exists in Ex as (x & Hx & Hpos).
    apply in_concat_getitem2 in Hx as (w & t & Hx).
    destruct (getitem2_lt _ _ _ _ _ _ Hsnr Hx) as [Hw Ht].
    destruct (Hentries w t Hw Ht) as [_ Hs]. rewrite Hs in Hx.
    injection Hx as <-.
    rewrite is_zero_not_positive in Hpos; [discriminate|].
    destruct (0 <? entry (data_flux_err data) w t) eqn:Epos; [|reflexivity].
    apply is_zero_div_positive; auto. }
  exists info. split; [exact Hinfo|].
  rewrite (red_peak_w R), (red_peak_t R), (red_lc_peak R), Efi, Ep.
  rewrite (red_before R), (red_snr_mean R), (red_snr_median R).
  rewrite np_any_map, Hsnr, Ep.
  rewrite (fld_nonzero F), (fld_epochs F), (fld_wavelengths F).
  destruct Hrise as (-> & -> & ->).
  repeat split; auto.
  - apply Nat.Div0.div_0_l.
  - apply Nat.Div0.mod_0_l.
  - rewrite <- concat_map. apply count_true_none. intros x Hx.
    apply is_zero_not_positive. now apply Hravel.
  - unfold np_any_axis0, count_true.
    match goal with
    | |- length (filter _ (map ?g ?l)) = _ =>
        assert (Hcol : forall t, g t = false)
    end.
    { intros t. apply np_any_none. intros b Hb.
      apply in_map_iff in Hb as (row & <- & Hrow).
      eapply (zero_flux_no_data cfg data Hd Hzero); eauto. }
    match goal with
    | |- length (filter _ (map _ ?ts)) = _ => generalize ts
    end.
    intros bins. induction bins as [|t bins IH]; simpl; auto.
    now rewrite Hcol.
  - unfold np_any_axis1. rewrite map_map. apply count_true_none.
    intros row Hrow. rewrite np_any_map.
    destruct (existsb (fun f => 0 <? f) row) eqn:Ex; auto.
    apply existsb_exists in Ex as (x & Hx & Hpos).
    rewrite is_zero_not_positive in Hpos; [discriminate|].
    eapply (zero_flux_row cfg data Hd Hzero); eauto.
Qed.

Lemma X4_on_blank_record :
  valid_config SCONE /\ decoded SCONE blank_data /\
  (forall w t, (w < 32)%nat -> (t < 180)%nat ->
     is_zero (entry (data_flux blank_data) w t) = true) /\
  exists info,
    extract_summary_statistics SCONE blank_data = Some info /\
    duration_days info = nan /\
    num_nonzero_bins info = 0%nat.
Proof.
  assert (Hd : decoded SCONE blank_data)
    by (exists blank_record; vm_compute; reflexivity).
  assert (Hz : forall w t, (w < 32)%nat -> (t < 180)%nat ->
            is_zero (entry (data_flux blank_data) w t) = true).
  { intros w t _ _.
    change (data_flux blank_data) with (repeat (repeat 0 180) 32).
    rewrite all_zero_entries. reflexivity. }
  split; [exact valid_SCONE|]. split; [exact Hd|]. split; [exact Hz|].
  destruct (X4_all_zero_flux SCONE blank_data valid_SCONE Hd Hz)
    as (info & H1 & _ & _ & _ & _ & _ & _ & _ & _ & H2 & _ & _ & _ & H3 & _).
  exists info. repeat split; assumption.
Defined.

(** ** Coverage counts *)

Lemma count_true_le (c : list bool) : (count_true c <= length c)%nat.
Proof. unfold count_true. apply filter_length_le. Qed.

Lemma count_true_app (a b : list bool) :
  count_true (a ++ b) = (count_true a + count_true b)%nat.
Proof. unfold count_true. now rewrite filter_app, length_app. Qed.

Lemma count_true_any_le (row : list bool) :
  (count_true [np_any row] <= count_true row)%nat /\
  (count_true row <= count_true [np_any row] * length row)%nat.
Proof.
  unfold np_any. destruct (existsb (fun b => b) row) eqn:E.
  - split.
    + apply existsb_exists in E as (b & Hin & Hb). subst b.
      unfold count_true. simpl.
      induction row as [|b row IH]; [destruct Hin|].
      simpl. destruct b; simpl; [lia|].
      destruct Hin as [|Hin]; [discriminate | auto].
    + change (count_true [true]) with 1%nat. rewrite Nat.mul_1_l.
      apply count_true_le.
  - assert (H : count_true row = 0%nat).
    { unfold count_true. induction row as [|b row IH]; simpl in *; auto.
      destruct b; [discriminate | auto]. }
    rewrite H. unfold count_true. simpl. split; lia.
Qed.

(** Rows: bins with data against wavelengths with data. *)
Lemma count_rows T (c : list (list bool)) :
  Forall (fun row => length row = T) c ->
  (count_true (np_any_axis1 c) <= count_true (concat c))%nat /\
  (count_true (concat c) <= count_true (np_any_axis1 c) * T)%nat.
Proof.
  unfold np_any_axis1. induction 1 as [|row c Hrow _ [IH1 IH2]]; simpl.
  - split; reflexivity.
  - change (np_any row :: map np_any c) with ([np_any row] ++ map np_any c).
    rewrite !count_true_app.
    destruct (count_true_any_le row) as [H1 H2]. rewrite Hrow in H2.
    split; nia.
Qed.

Lemma filter_or_length {A} (a b : A -> bool) l :
  (length (filter (fun x => a x || b x) l)
   <= length (filter a l) + length (filter b l))%nat /\
  (length (filter a l) <= length (filter (fun x => a x || b x) l))%nat /\
  (length (filter b l) <= length (filter (fun x => a x || b x) l))%nat.
Proof.
  induction l as [|x l (IH1 & IH2 & IH3)]; simpl; [lia|].
  destruct (a x), (b x); simpl; lia.
Qed.

Lemma count_true_seq (row : list bool) : forall a,
  length (filter (fun t => nth (t - a) row false) (seq a (length row)))
  = count_true row.
Proof.
  unfold count_true. induction row as [|b row IH]; intros a; [reflexivity|].
  change (seq a (length (b :: row))) with (a :: seq (S a) (length row)).
  cbn [filter]. rewrite Nat.sub_diag.
  change (nth 0 (b :: row) false) with b.
  replace (filter _ (seq (S a) (length row)))
    with (filter (fun t => nth (t - S a) row false) (seq (S a) (length row))).
  - destruct b; cbn [length]; now rewrite IH.
  - apply filter_ext_in. intros t Ht. apply in_seq in Ht.
    replace (t - a)%nat with (S (t - S a)) by lia. reflexivity.
Qed.

(** Columns: bins with data against epochs with data. *)
Lemma count_columns T (c : list (list bool)) :
  Forall (fun row => length row = T) c ->
  let any_at := fun t => existsb (fun row => nth t row false) c in
  (length (filter any_at (seq 0 T)) <= count_true (concat c))%nat /\
  (count_true (concat c) <= length (filter any_at (seq 0 T)) * length c)%nat.
Proof.
  induction 1 as [|row c Hrow _ IH]; simpl.
  - assert (E : forall l : list nat, filter (fun _ => false) l = [])
      by (induction l; simpl; auto).
    rewrite E. split; reflexivity.
  - cbv zeta in IH. destruct IH as [IH1 IH2].
    rewrite count_true_app.
    pose proof (count_true_seq row 0) as Hr.
    rewrite Hrow in Hr.
    assert (E : filter (fun t => nth (t - 0) row false) (seq 0 T)
                = filter (fun t => nth t row false) (seq 0 T))
      by (apply filter_ext; intros t; now rewrite Nat.sub_0_r).
    rewrite E in Hr.
    destruct (filter_or_length (fun t => nth t row false)
                (fun t => existsb (fun r => nth t r false) c) (seq 0 T))
      as (H1 & H2 & H3).
    split; nia.
Qed.

(** X5. For every decoded record: the number of time bins with data and
    the number of wavelength bins with data are each at most the number
    of grid entries with positive flux, which is itself at most either of
    them times the size of the other axis; so the three counts are zero
    together, and none exceeds the size of what it counts. *)
Theorem X5_coverage_counts cfg data :
  valid_config cfg -> decoded cfg data ->
  exists info,
    extract_summary_statistics cfg data = Some info /\
    let W := NUM_WAVELENGTH_BINS cfg in
    let T := NUM_MJD_BINS cfg in
    (num_epochs_with_data info <= num_nonzero_bins info)%nat /\
    (num_wavelengths_with_data info <= num_nonzero_bins info)%nat /\
    (num_nonzero_bins info <= num_epochs_with_data info * W)%nat /\
    (num_nonzero_bins info <= num_wavelengths_with_data info * T)%nat /\
    (num_epochs_with_data info <= T)%nat /\
    (num_wavelengths_with_data info <= W)%nat /\
    (num_nonzero_bins info <= W * T)%nat /\
    (num_nonzero_bins info = 0%nat <-> num_epochs_with_data info = 0%nat) /\
    (num_nonzero_bins info = 0%nat <-> num_wavelengths_with_data info = 0%nat).
Proof.
  intros Hv Hd.
  destruct (extract_summary_statistics_all cfg data Hv Hd)
    as (info & fi & p & s & e & snr & Hinfo & R & F).
  exists info. split; [exact Hinfo|]. cbv zeta.
  destruct Hv as [HW HT]. destruct (decoded_grid _ _ Hd) as [Hf _].
  set (nz := map (map (fun f => 0 <? f)) (data_flux data)).
  assert (Hg : grid (NUM_WAVELENGTH_BINS cfg) (NUM_MJD_BINS cfg) nz)
    by (apply grid_map; auto; intros row; apply length_map).
  destruct Hg as [HL Hrows].
  rewrite (fld_nonzero F), (fld_epochs F), (fld_wavelengths F). fold nz.
  destruct (count_rows _ _ Hrows) as [R1 R2].
  destruct (count_columns _ _ Hrows) as [C1 C2]. rewrite HL in C2.
  assert (Ecol : count_true (np_any_axis0 nz)
                 = length (filter (fun t => existsb (fun row => nth t row false) nz)
                                  (seq 0 (NUM_MJD_BINS cfg)))).
  { unfold np_any_axis0, count_true.
    replace (length (hd [] nz)) with (NUM_MJD_BINS cfg).
    - rewrite filter_map_comm, length_map. f_equal.
      apply filter_ext. intros t. apply np_any_map.
    - destruct Hrows as [|row c Hrow _]; simpl in *; [lia | auto]. }
  rewrite Ecol.
  assert (Hcols : (length (filter (fun t => existsb (fun row => nth t row false) nz)
                             (seq 0 (NUM_MJD_BINS cfg)))
                   <= NUM_MJD_BINS cfg)%nat).
  { etransitivity; [apply filter_length_le|]. now rewrite length_seq. }
  assert (Hrowsle : (count_true (np_any_axis1 nz) <= NUM_WAVELENGTH_BINS cfg)%nat).
  { etransitivity; [apply count_true_le|].
    unfold np_any_axis1. rewrite length_map. lia. }
  repeat split; try lia; try nia.
Qed.

Lemma X5_on_scenario :
  valid_config SCENARIO /\ decoded SCENARIO scenario_data /\
  exists info,
    extract_summary_statistics SCENARIO scenario_data = Some info /\
    (num_epochs_with_data info <= num_nonzero_bins info)%nat.
Proof.
  split; [exact valid_SCENARIO|]. split; [exact decoded_scenario|].
  destruct (X5_coverage_counts SCENARIO scenario_data
              valid_SCENARIO decoded_scenario) as (info & H1 & H2 & _).
  exists info. split; assumption.
Defined.

(** ** The payload layout *)

Lemma decode_f64s_nth : forall i n bytes,
  length bytes = (8 * n)%nat -> (i < n)%nat ->
  nth_error (decode_f64s bytes) i
  = Some (float_of_bits (le_bytes_to_Z (slice (8 * i) (8 * i + 8) bytes))).
Proof.
  induction i as [|i IH]; intros n bytes Hlen Hi;
    (destruct n as [|n]; [lia|]);
    destruct bytes as [|b0 [|b1 [|b2 [|b3 [|b4 [|b5 [|b6 [|b7 rest]]]]]]]];
    simpl in Hlen; try lia.
  - reflexivity.
  - cbn [decode_f64s nth_error]. rewrite (IH n rest) by lia.
    unfold slice.
    replace (8 * S i + 8 - 8 * S i)%nat with (8 * i + 8 - 8 * i)%nat by lia.
    replace (8 * S i)%nat with (8 + 8 * i)%nat by lia.
    reflexivity.
Qed.

Lemma every_other_nth : forall k values,
  nth_error (every_other values) k = nth_error values (2 * k).
Proof.
  induction k as [|k IH]; intros [|x [|y rest]]; simpl; auto.
  - now destruct k.
  - rewrite IH. replace (k + S (k + 0))%nat with (S (2 * k)) by lia.
    reflexivity.
Qed.

Lemma rows_of_getitem2 T : forall W flat w t,
  (w < W)%nat -> (t < T)%nat ->
  getitem2 (rows_of W T flat) w t = nth_error flat (w * T + t).
Proof.
  induction W as [|W IH]; intros flat w t Hw Ht; [lia|].
  unfold getitem2. destruct w as [|w]; simpl.
  - now rewrite nth_error_firstn, (proj2 (Nat.ltb_lt t T) Ht).
  - fold (getitem2 (rows_of W T (skipn T flat)) w t).
    rewrite IH by lia. rewrite nth_error_skipn. f_equal. lia.
Qed.

(** X6. A raw record whose five fields each hold one value of the
    declared type and whose payload has exactly [W * T * 2 * 8] bytes is
    decoded; the metadata are the field values, and [flux[w,t]] and
    [flux_err[w,t]] are the binary64 values of the two runs of eight
    little-endian bytes that start at byte [16 * (w * T + t)] of the
    payload. *)
Theorem X6_payload_layout cfg raw_record id label z z_err payload :
  lookup_feature "label" raw_record = Some (Int64List [label]) ->
  lookup_feature "image_raw" raw_record = Some (BytesList [payload]) ->
  lookup_feature "id" raw_record = Some (Int64List [id]) ->
  lookup_feature "z" raw_record = Some (FloatList [z]) ->
  lookup_feature "z_err" raw_record = Some (FloatList [z_err]) ->
  length payload = (NUM_WAVELENGTH_BINS cfg * NUM_MJD_BINS cfg * 2 * 8)%nat ->
  exists data,
    parse_tfrecord cfg raw_record = inr data /\
    data_id data = id /\ data_label data = label /\
    data_z data = z /\ data_z_err data = z_err /\
    forall w t, (w < NUM_WAVELENGTH_BINS cfg)%nat -> (t < NUM_MJD_BINS cfg)%nat ->
      let offset := (16 * (w * NUM_MJD_BINS cfg + t))%nat in
      getitem2 (data_flux data) w t
      = Some (float_of_bits (le_bytes_to_Z (slice offset (offset + 8) payload))) /\
      getitem2 (data_flux_err data) w t
      = Some (float_of_bits
                (le_bytes_to_Z (slice (offset + 8) (offset + 16) payload))).
Proof.
  intros Hlabel Himage Hid Hz Hzerr Hlen.
  set (W := NUM_WAVELENGTH_BINS cfg) in *. set (T := NUM_MJD_BINS cfg) in *.
  unfold parse_tfrecord, rbind, fixed_int64, fixed_string, fixed_float32.
  rewrite Hlabel, Himage, Hid, Hz, Hzerr.
  unfold decode_raw.
  replace (length payload mod 8 =? 0)%nat with true
    by (symmetry; apply Nat.eqb_eq; rewrite Hlen; apply Nat.Div0.mod_mul).
  assert (Hvalues : length (decode_f64s payload) = (W * T * 2)%nat)
    by (apply decode_f64s_length; lia).
  unfold reshape, INPUT_SHAPE. fold W T.
  rewrite Hvalues, Nat.eqb_refl.
  eexists. split; [reflexivity|]. cbn [data_id data_label data_z data_z_err].
  do 4 (split; [reflexivity|]).
  intros w t Hw Ht. cbn [data_flux data_flux_err]. unfold channel.
  fold W T. rewrite !rows_of_getitem2 by assumption.
  rewrite !every_other_nth, !nth_error_skipn.
  assert (Hk : (w * T + t < W * T)%nat) by nia.
  split.
  - rewrite (decode_f64s_nth _ (W * T * 2)) by lia.
    do 4 f_equal; lia.
  - rewrite (decode_f64s_nth _ (W * T * 2)) by lia.
    do 4 f_equal; lia.
Qed.

Lemma X6_on_scenario_record :
  length (put_f64 26 0x4024000000000000 (zero_payload SCENARIO)) = (4 * 5 * 2 * 8)%nat /\
  exists data,
    parse_tfrecord SCENARIO scenario_record = inr data /\
    data_id data = 7%Z.
Proof.
  assert (Hlen : length (put_f64 26 0x4024000000000000 (zero_payload SCENARIO))
                 = (NUM_WAVELENGTH_BINS SCENARIO * NUM_MJD_BINS SCENARIO * 2 * 8)%nat)
    by (vm_compute; reflexivity).
  split; [exact Hlen|].
  destruct (X6_payload_layout SCENARIO scenario_record 7 1 0.5 0.25
              (put_f64 26 0x4024000000000000 (zero_payload SCENARIO))
              eq_refl eq_refl eq_refl eq_refl eq_refl Hlen)
    as (data & H1 & H2 & _).
  exists data. split; assumption.
Defined.

(** ** The axes *)

Lemma last_error_set_last {A} (a : list A) v :
  a <> [] -> last_error (set_last a v) = Some v.
Proof.
  unfold last_error. rewrite length_set_last.
  induction a as [|x [|y r] IH]; intros H; [congruence | reflexivity |].
  change (set_last (x :: y :: r) v) with (x :: set_last (y :: r) v).
  replace (length (x :: y :: r) - 1)%nat with (S (length (y :: r) - 1))
    by (simpl; lia).
  cbn [nth_error]. apply IH. discriminate.
Qed.

Lemma np_linspace_last start stop num :
  (1 < num)%nat -> last_error (np_linspace start stop num) = Some stop.
Proof.
  intros H. unfold np_linspace.
  rewrite (proj2 (Nat.ltb_lt 1 num) H).
  apply last_error_set_last, nonempty_length.
  repeat match goal with
  | |- context [if ?c then _ else _] => destruct c
  end; rewrite !length_map, length_seq; lia.
Qed.

(** X7. The wavelength axis has exactly [NUM_WAVELENGTH_BINS] entries
    and the time axis exactly [NUM_MJD_BINS]; with more than one bin, the
    last entry of an axis is exactly the configured upper end
    ([WAVELENGTH_MAX], [MJD_RANGE_END]), not a rounded multiple of the
    step. *)
Theorem X7_axis_length_and_upper_end cfg :
  length (get_wavelength_array cfg) = NUM_WAVELENGTH_BINS cfg /\
  length (get_mjd_array cfg) = NUM_MJD_BINS cfg /\
  ((1 < NUM_WAVELENGTH_BINS cfg)%nat ->
   last_error (get_wavelength_array cfg) = Some (float_of_Z (WAVELENGTH_MAX cfg))) /\
  ((1 < NUM_MJD_BINS cfg)%nat ->
   last_error (get_mjd_array cfg) = Some (float_of_Z (MJD_RANGE_END cfg))).
Proof.
  split; [apply np_linspace_length|]. split; [apply np_linspace_length|].
  split; intros H; now apply np_linspace_last.
Qed.

(** ** The peak-phase window *)

Lemma SFleb_opp x y : SFleb (SFopp x) (SFopp y) = SFleb y x.
Proof.
  unfold SFleb.
  destruct x as [[]|[]| |[] mx ex], y as [[]|[]| |[] my ey];
    simpl; try reflexivity.
  all: change (Pos.compare_cont Eq) with Pos.compare.
  all: rewrite (Z.compare_antisym ex ey); destruct (Z.compare ex ey); simpl;
    try reflexivity.
  all: rewrite (Pos.compare_antisym mx my); destruct (Pos.compare mx my);
    reflexivity.
Qed.

Lemma leb_opp x y : (- x <=? - y) = (y <=? x).
Proof. rewrite !leb_spec, !opp_spec. apply SFleb_opp. Qed.

Lemma is_nan_opp x : is_nan (- x) = is_nan x.
Proof. now rewrite !is_nan_leb, leb_opp. Qed.

Lemma np_ge_opp x y : np_ge (- x) (- y) = np_le x y.
Proof. unfold np_ge, np_le. now rewrite is_nan_opp, leb_opp. Qed.

Lemma argmin_from_opp a : forall mp k i,
  argmin_from mp k i a = argmax_from (- mp) k i (map opp a).
Proof.
  induction a as [|x a IH]; intros mp k i; simpl; auto.
  rewrite is_nan_opp, leb_opp. destruct (is_nan mp); auto.
  destruct (mp <=? x); simpl; apply IH.
Qed.

Lemma np_argmin_first_min a i : np_argmin a = Some i -> first_min a i.
Proof.
  intros H.
  assert (Hmax : np_argmax (map opp a) = Some i).
  { destruct a as [|x a]; [discriminate|]. simpl in *.
    now rewrite <- argmin_from_opp. }
  apply np_argmax_first_max in Hmax as (m' & Hi & Hall & Hfirst).
  rewrite nth_error_map in Hi.
  destruct (nth_error a i) as [m|] eqn:Em; [|discriminate].
  injection Hi as <-. exists m. split; [exact Em|]. split.
  - intros j x Hj. rewrite <- np_ge_opp. apply (Hall j).
    now rewrite nth_error_map, Hj.
  - intros j x Hlt Hj. rewrite <- np_ge_opp. apply (Hfirst j); auto.
    now rewrite nth_error_map, Hj.
Qed.

(** X8. In every configuration with at least one time bin, the start and
    the end of the peak phase are time bins of the axis, and each is the
    first bin that minimises the distance to its target: the start to
    -10 days, the end to +20 days. *)
Theorem X8_peak_phase_bounds_are_nearest_bins cfg :
  valid_config cfg ->
  exists s e,
    nearest_mjd_idx cfg (-10) = Some s /\
    nearest_mjd_idx cfg 20 = Some e /\
    (s < NUM_MJD_BINS cfg)%nat /\ (e < NUM_MJD_BINS cfg)%nat /\
    first_min (mjd_distances cfg (-10)) s /\
    first_min (mjd_distances cfg 20) e.
Proof.
  intros Hv.
  destruct (nearest_mjd_idx_Some cfg (-10) Hv) as [s Hs].
  destruct (nearest_mjd_idx_Some cfg 20 Hv) as [e He].
  exists s, e. split; [exact Hs|]. split; [exact He|].
  apply np_argmin_first_min in Hs, He.
  assert (Hlen : forall target i, first_min (mjd_distances cfg target) i ->
                   (i < NUM_MJD_BINS cfg)%nat).
  { intros target i (m & Hm & _).
    rewrite <- (get_mjd_array_length cfg).
    unfold mjd_distances in Hm.
    erewrite <- length_map. apply nth_error_Some. rewrite Hm. discriminate. }
  repeat split; eauto.
Qed.

Lemma X8_on_script_constants :
  valid_config SCONE /\
  exists s e,
    nearest_mjd_idx SCONE (-10) = Some s /\
    nearest_mjd_idx SCONE 20 = Some e /\
    (s < 180)%nat /\ (e < 180)%nat.
Proof.
  split; [exact valid_SCONE|].
  destruct (X8_peak_phase_bounds_are_nearest_bins SCONE valid_SCONE)
    as (s & e & H1 & H2 & H3 & H4 & _).
  exists s, e. repeat split; assumption.
Defined.

Lemma X7_on_script_constants :
  (1 < NUM_MJD_BINS SCONE)%nat /\
  last_error (get_mjd_array SCONE) = Some (float_of_Z (MJD_RANGE_END SCONE)).
Proof.
  assert (H : (1 < NUM_MJD_BINS SCONE)%nat) by (simpl; lia).
  split; [exact H|].
  destruct (X7_axis_length_and_upper_end SCONE) as (_ & _ & _ & Hm).
  exact (Hm H).
Defined.

Lemma nan_div y : nan / y = nan.
Proof.
  apply Prim2SF_inj. rewrite div_spec.
  replace (Prim2SF nan) with S754_nan by (vm_compute; reflexivity).
  reflexivity.
Qed.

Lemma np_sum_nans n : np_sum (repeat nan (S n)) = nan.
Proof.
  apply (np_sum_closed (fun x => x = nan)).
  - intros x y -> ->. reflexivity.
  - intros x ->. reflexivity.
  - discriminate.
  - apply Forall_forall. intros x Hx. now apply repeat_spec in Hx.
Qed.

Lemma map_const_repeat {A B} (v : B) (l : list A) :
  map (fun _ => v) l = repeat v (length l).
Proof. induction l as [|x l IH]; simpl; congruence. Qed.

Lemma peak_spectrum_empty_window (flux : ndarray2) s e :
  (e <= s)%nat -> peak_spectrum flux s e = repeat nan (length flux).
Proof.
  intros H. unfold peak_spectrum. rewrite <- map_const_repeat.
  apply map_ext. intros row. unfold slice.
  replace (e - s)%nat with 0%nat by lia. reflexivity.
Qed.

(** X9. When the end of the peak phase is not after its start (the bin
    nearest to +20 days is not after the bin nearest to -10 days), the
    window is empty and nothing guards against it: every flux and every
    error of the spectrum projection is NaN, and in the summary
    [spectrum_max] and [spectrum_mean] are NaN and
    [spectrum_peak_wavelength_idx] is 0. *)
Theorem X9_empty_peak_phase_gives_nan cfg data s e :
  valid_config cfg -> decoded cfg data ->
  nearest_mjd_idx cfg (-10) = Some s ->
  nearest_mjd_idx cfg 20 = Some e ->
  (e <= s)%nat ->
  exists info projection,
    extract_summary_statistics cfg data = Some info /\
    extract_spectrum cfg data = Some projection /\
    spectrum_max info = nan /\
    spectrum_mean info = nan /\
    spectrum_peak_wavelength_idx info = 0%nat /\
    forall w wavelength flux err,
      nth_error (proj_rows projection) w = Some (wavelength, flux, err) ->
      flux = nan /\ err = nan.
Proof.
  intros Hv Hd Hs He Hle.
  destruct (extract_summary_statistics_all cfg data Hv Hd)
    as (info & fi & p & s' & e' & snr & Hinfo & R & F).
  assert (s' = s) by (pose proof (red_start R); congruence).
  assert (e' = e) by (pose proof (red_end R); congruence). subst s' e'.
  destruct (decoded_grid _ _ Hd) as [[HLf _] [HLe _]].
  destruct Hv as [HW HT].
  pose proof (peak_spectrum_empty_window (data_flux data) s e Hle) as Hps.
  rewrite HLf in Hps.
  destruct (NUM_WAVELENGTH_BINS cfg) as [|n] eqn:EW; [lia|].
  exists info. eexists. split; [exact Hinfo|].
  unfold extract_spectrum. rewrite Hs, He. cbn [bind].
  split; [reflexivity|].
  pose proof (red_spectrum_max R) as Hmax.
  pose proof (red_spectrum_idx R) as Hidx.
  rewrite Hps in Hmax, Hidx. simpl in Hmax, Hidx.
  rewrite fold_maximum_nan in Hmax by reflexivity.
  assert (Hidx0 : argmax_from nan 0 1 (repeat nan n) = 0%nat)
    by (destruct (repeat nan n); reflexivity).
  rewrite Hidx0 in Hidx.
  split; [now injection Hmax|]. split.
  - rewrite (fld_spectrum_mean F), Hps. unfold np_mean.
    rewrite np_sum_nans. apply nan_div.
  - split; [now injection Hidx|].
    cbn [proj_rows]. rewrite Hps.
    intros w wavelength flux err Hrow.
    assert (Hrows : forall (a : list float) (b c : list float) i x y z,
              nth_error (zip3 a b c) i = Some (x, y, z) ->
              nth_error b i = Some y /\ nth_error c i = Some z).
    { induction a as [|x' a IH]; intros [|y' b] [|z' c] [|i] x y z; simpl;
        try discriminate; eauto.
      intros [= -> -> ->]. auto. }
    apply Hrows in Hrow as [Hflux Herr]. split.
    + apply nth_error_In, repeat_spec in Hflux. exact Hflux.
    + unfold square in Herr. rewrite !nth_error_map in Herr.
      destruct (nth_error (data_flux_err data) w) as [row|]; [|discriminate].
      simpl in Herr. injection Herr as <-. unfold slice.
      replace (e - s)%nat with 0%nat by lia. vm_compute. reflexivity.
Qed.

Lemma X9_on_two_epochs :
  valid_config TWO_EPOCHS /\ decoded TWO_EPOCHS two_epochs_data /\
  nearest_mjd_idx TWO_EPOCHS (-10) = Some 0%nat /\
  nearest_mjd_idx TWO_EPOCHS 20 = Some 0%nat /\
  exists info,
    extract_summary_statistics TWO_EPOCHS two_epochs_data = Some info /\
    spectrum_max info = nan.
Proof.
  assert (Hv : valid_config TWO_EPOCHS) by (split; simpl; lia).
  assert (Hd : decoded TWO_EPOCHS two_epochs_data)
    by (exists two_epochs_record; vm_compute; reflexivity).
  assert (Hs : nearest_mjd_idx TWO_EPOCHS (-10) = Some 0%nat)
    by (vm_compute; reflexivity).
  assert (He : nearest_mjd_idx TWO_EPOCHS 20 = Some 0%nat)
    by (vm_compute; reflexivity).
  split; [exact Hv|]. split; [exact Hd|]. split; [exact Hs|].
  split; [exact He|].
  destruct (X9_empty_peak_phase_gives_nan TWO_EPOCHS two_epochs_data 0 0
              Hv Hd Hs He (le_n 0)) as (info & projection & H1 & _ & H2 & _).
  exists info. split; assumption.
Defined.

(** ** The light-curve projection *)

Lemma column_square (a : ndarray2) t :
  column (square a) t = map (fun x => x * x) (column a t).
Proof.
  unfold column, square. rewrite !map_map. apply map_ext. intros row.
  exact (map_nth (fun x => x * x) row 0 t).
Qed.

Lemma nth_error_map_seq {A} (f : nat -> A) n t :
  (t < n)%nat -> nth_error (map f (seq 0 n)) t = Some (f t).
Proof.
  intros H. rewrite nth_error_map.
  rewrite (nth_error_nth' _ 0%nat) by now rewrite length_seq.
  now rewrite seq_nth.
Qed.

(** X10. For every decoded record, the light-curve projection carries
    the record id and one triple per time bin: the bin's time, the sum of
    the flux over the wavelength bins, and the quadrature sum (square
    root of the sum of squares) of the errors over the wavelength
    bins. *)
Theorem X10_lightcurve_projection cfg data :
  valid_config cfg -> decoded cfg data ->
  let projection := extract_lightcurve cfg data in
  proj_snid projection = data_id data /\
  length (proj_rows projection) = NUM_MJD_BINS cfg /\
  forall t, (t < NUM_MJD_BINS cfg)%nat ->
    nth_error (proj_rows projection) t
    = Some (nth t (get_mjd_array cfg) 0,
            sequential_sum (column (data_flux data) t),
            quadrature_sum (column (data_flux_err data) t)).
Proof.
  intros [HW HT] Hd. cbv zeta.
  destruct (decoded_grid _ _ Hd) as [Hf He].
  pose proof (grid_shape _ _ _ HW Hf) as Sf.
  pose proof (grid_shape _ _ _ HW He) as Se.
  assert (Ssq : snd (shape (square (data_flux_err data))) = NUM_MJD_BINS cfg).
  { assert (Hsq : grid (NUM_WAVELENGTH_BINS cfg) (NUM_MJD_BINS cfg)
                    (square (data_flux_err data)))
      by (apply grid_map; auto; intros row; apply length_map).
    now rewrite (grid_shape _ _ _ HW Hsq). }
  unfold extract_lightcurve. cbn [proj_snid proj_rows].
  split; [reflexivity|]. split.
  - rewrite length_zip3.
    + apply get_mjd_array_length.
    + rewrite get_mjd_array_length, np_sum_axis0_length. now rewrite Sf.
    + rewrite get_mjd_array_length, length_map, np_sum_axis0_length.
      now rewrite Ssq.
  - intros t Ht. apply nth_error_zip3.
    + apply nth_error_nth'. now rewrite get_mjd_array_length.
    + unfold np_sum_axis0. rewrite Sf. cbn [snd].
      now apply (nth_error_map_seq
                   (fun t => sequential_sum (column (data_flux data) t))).
    + unfold np_sum_axis0. rewrite Ssq, map_map.
      rewrite (nth_error_map_seq
                 (fun t => PrimFloat.sqrt
                             (sequential_sum
                                (column (square (data_flux_err data)) t))))
        by exact Ht.
      unfold quadrature_sum. now rewrite column_square.
Qed.

Lemma X10_on_scenario :
  valid_config SCENARIO /\ decoded SCENARIO scenario_data /\
  length (proj_rows (extract_lightcurve SCENARIO scenario_data)) = 5%nat.
Proof.
  split; [exact valid_SCENARIO|]. split; [exact decoded_scenario|].
  exact (proj1 (proj2 (X10_lightcurve_projection SCENARIO scenario_data
                         valid_SCENARIO decoded_scenario))).
Defined.

(** ** The projections against the summary row *)

(** X11. For every decoded record, the projections and the summary row
    agree: the light-curve projection's row at [lc_peak_mjd_idx] holds
    the time [lc_peak_mjd] and the flux [lc_max], and the spectrum
    projection's row at [spectrum_peak_wavelength_idx] holds the
    wavelength [spectrum_peak_wavelength] and the flux [spectrum_max]. *)
Theorem X11_projections_agree_with_summary cfg data :
  valid_config cfg -> decoded cfg data ->
  exists info spectrum lc_err spectrum_err,
    extract_summary_statistics cfg data = Some info /\
    extract_spectrum cfg data = Some spectrum /\
    nth_error (proj_rows (extract_lightcurve cfg data)) (lc_peak_mjd_idx info)
    = Some (lc_peak_mjd info, lc_max info, lc_err) /\
    nth_error (proj_rows spectrum) (spectrum_peak_wavelength_idx info)
    = Some (spectrum_peak_wavelength info, spectrum_max info, spectrum_err).
Proof.
  intros Hv Hd.
  destruct (extract_summary_statistics_all cfg data Hv Hd)
    as (info & fi & p & s & e & snr & Hinfo & R & F).
  pose proof Hv as [HW HT].
  destruct (decoded_grid _ _ Hd) as [Hf He].
  pose proof (light_curve_length _ _ Hv Hd) as Llc.
  assert (Hp : (p < NUM_MJD_BINS cfg)%nat).
  { rewrite <- Llc. eapply first_max_lt, np_argmax_first_max, R. }
  assert (Hk : (spectrum_peak_wavelength_idx info < NUM_WAVELENGTH_BINS cfg)%nat).
  { rewrite <- (get_wavelength_array_length cfg).
    apply nth_error_Some. rewrite (fld_spectrum_peak_wavelength F).
    discriminate. }
  assert (Hsq : grid (NUM_WAVELENGTH_BINS cfg) (NUM_MJD_BINS cfg)
                  (square (data_flux_err data)))
    by (apply grid_map; auto; intros row; apply length_map).
  destruct (nth_error_Some_lt
              (map PrimFloat.sqrt (np_sum_axis0 (square (data_flux_err data)))) p)
    as [lc_err Elc].
  { rewrite length_map, np_sum_axis0_length.
    now rewrite (grid_shape _ _ _ HW Hsq). }
  destruct (nth_error_Some_lt
              (map (fun row => PrimFloat.sqrt (np_mean row))
                   (square (map (slice s e) (data_flux_err data))))
              (spectrum_peak_wavelength_idx info)) as [sp_err Esp].
  { unfold square. rewrite !length_map. destruct He as [-> _]. exact Hk. }
  eexists info, _, lc_err, sp_err. split; [exact Hinfo|].
  unfold extract_spectrum. rewrite (red_start R), (red_end R). cbn [bind].
  split; [reflexivity|]. rewrite (red_lc_peak R). split.
  - unfold extract_lightcurve. cbn [proj_rows].
    apply nth_error_zip3; [apply F | | exact Elc].
    fold (light_curve data).
    rewrite <- (np_max_argmax _ _ (red_lc_idx R)). apply R.
  - cbn [proj_rows]. apply nth_error_zip3; [apply F | | exact Esp].
    rewrite <- (np_max_argmax _ _ (red_spectrum_idx R)). apply R.
Qed.

Lemma X11_on_two_errors_record :
  valid_config SCONE /\ decoded SCONE two_errors_data /\
  exists info spectrum,
    extract_summary_statistics SCONE two_errors_data = Some info /\
    extract_spectrum SCONE two_errors_data = Some spectrum.
Proof.
  split; [exact valid_SCONE|]. split; [exact decoded_two_errors|].
  destruct (X11_projections_agree_with_summary SCONE two_errors_data
              valid_SCONE decoded_two_errors)
    as (info & spectrum & _ & _ & H1 & H2 & _).
  exists info, spectrum. split; assumption.
Defined.

(** X12. For every decoded record whose light-curve maximum exceeds its
    own half, the half-maximum window is not empty and contains the peak:
    the first bin above the half-maximum is at or before the light-curve
    peak bin, and the last one at or after it. *)
Theorem X12_half_max_window_contains_peak cfg data :
  valid_config cfg -> decoded cfg data ->
  exists info,
    extract_summary_statistics cfg data = Some info /\
    ((lc_max info / 2 <? lc_max info) = true ->
     exists first last,
       let over := above (light_curve data) (lc_max info / 2) in
       over first /\ (forall t, over t -> (first <= t)%nat) /\
       over last /\ (forall t, over t -> (t <= last)%nat) /\
       (first <= lc_peak_mjd_idx info <= last)%nat).
Proof.
  intros Hv Hd.
  destruct (extract_summary_statistics_reduction cfg data Hv Hd)
    as (info & fi & p & s & e & snr & Hinfo & R).
  exists info. split; [exact Hinfo|]. intros Hhalf.
  assert (Hp : above (light_curve data) (lc_max info / 2) p).
  { exists (lc_max info). split; [|exact Hhalf].
    rewrite <- (np_max_argmax _ _ (red_lc_idx R)). apply R. }
  destruct (rise_decline_duration_spec (get_mjd_array cfg) (light_curve data)
              p (lc_max info)) as (r & d & du & _ & _ & Hsome).
  - rewrite get_mjd_array_length. symmetry.
    now apply light_curve_length.
  - now apply above_lt in Hp.
  - destruct Hsome as (first & last & _ & _ & _ & H1 & H2 & H3 & H4 & _);
      [now exists p|].
    exists first, last. cbv zeta. rewrite (red_lc_peak R).
    repeat split; auto.
Qed.

Lemma X12_on_scenario :
  valid_config SCENARIO /\ decoded SCENARIO scenario_data /\
  exists info,
    extract_summary_statistics SCENARIO scenario_data = Some info /\
    (lc_max info / 2 <? lc_max info) = true /\
    exists first last, (first <= lc_peak_mjd_idx info <= last)%nat.
Proof.
  split; [exact valid_SCENARIO|]. split; [exact decoded_scenario|].
  destruct (X12_half_max_window_contains_peak SCENARIO scenario_data
              valid_SCENARIO decoded_scenario) as (info & Hinfo & H).
  assert (Hhalf : (lc_max info / 2 <? lc_max info) = true).
  { pose proof Hinfo as E. vm_compute in E.
    injection E as E. rewrite <- E. vm_compute. reflexivity. }
  exists info. split; [exact Hinfo|]. split; [exact Hhalf|].
  destruct (H Hhalf) as (first & last & _ & _ & _ & _ & Hin).
  exists first, last. exact Hin.
Defined.

(** ** More on the batch driver *)

(** X13. A cap inside the 64-bit range that is negative, or at least
    the number of records of the source, changes nothing: the run is the
    run without a cap.  A cap outside the 64-bit range stops the run
    before any record is read. *)
Theorem X13_large_or_negative_cap_is_no_cap cfg dataset full_lightcurves
    full_spectra n :
  ((- 2 ^ 63 <= n < 2 ^ 63)%Z ->
   (n < 0 \/ Z.of_nat (length dataset) <= n)%Z ->
   process_tfrecord cfg dataset full_lightcurves full_spectra (Some n)
   = process_tfrecord cfg dataset full_lightcurves full_spectra None) /\
  ((n < - 2 ^ 63 \/ 2 ^ 63 <= n)%Z ->
   process_tfrecord cfg dataset full_lightcurves full_spectra (Some n)
   = inl (loop_init, TakeCountOutOfRange)).
Proof.
  split.
  - intros Hr H. unfold process_tfrecord.
    destruct (truthy (Some n)); [|reflexivity].
    rewrite take_Some by now apply in_int64_spec.
    destruct (Z.ltb_spec n 0) as [|Hpos]; [reflexivity|].
    rewrite firstn_all2 by lia. reflexivity.
  - intros Hr. unfold process_tfrecord.
    rewrite truthy_nonzero by lia.
    rewrite take_None; [reflexivity|].
    destruct (in_int64 n) eqn:E; [|reflexivity].
    apply in_int64_spec in E. lia.
Qed.

Lemma X13_on_negative_cap :
  (- 2 ^ 63 <= -1 < 2 ^ 63)%Z /\
  (-1 < 0 \/ Z.of_nat (length [blank_record; blank_record]) <= -1)%Z /\
  process_tfrecord SCONE [blank_record; blank_record] true false (Some (-1)%Z)
  = process_tfrecord SCONE [blank_record; blank_record] true false None.
Proof.
  assert (Hr : (- 2 ^ 63 <= -1 < 2 ^ 63)%Z) by lia.
  assert (H : (-1 < 0 \/ Z.of_nat (length [blank_record; blank_record]) <= -1)%Z)
    by (left; lia).
  split; [exact Hr|]. split; [exact H|].
  exact (proj1 (X13_large_or_negative_cap_is_no_cap SCONE
                  [blank_record; blank_record] true false (-1)) Hr H).
Defined.

Lemma extract_summary_statistics_snid cfg data info :
  extract_summary_statistics cfg data = Some info -> snid info = data_id data.
Proof.
  unfold extract_summary_statistics. cbv zeta. intros H.
  repeat match type of H with
  | bind ?m _ = Some _ =>
      destruct m as [?|]; cbn [bind] in H; [|discriminate H]
  | (let '(_, _) := ?v in _) = Some _ => destruct v
  end.
  injection H as <-. reflexivity.
Qed.

Lemma extract_spectrum_snid cfg data row :
  extract_spectrum cfg data = Some row -> proj_snid row = data_id data.
Proof.
  unfold extract_spectrum. intros H.
  repeat match type of H with
  | bind ?m _ = Some _ =>
      destruct m as [?|]; cbn [bind] in H; [|discriminate H]
  end.
  injection H as <-. reflexivity.
Qed.

(** What one iteration adds to the accumulators. *)
Lemma loop_body_inv cfg fl fs st raw_record st' :
  loop_body cfg fl fs st raw_record = inr st' ->
  exists info lcs specs,
    summary_data st' = summary_data st ++ [info] /\
    lightcurve_data st' = lightcurve_data st ++ lcs /\
    spectrum_data st' = spectrum_data st ++ specs /\
    count st' = S (count st) /\
    map proj_snid lcs = (if fl then [snid info] else []) /\
    map proj_snid specs = (if fs then [snid info] else []).
Proof.
  unfold loop_body. intros H.
  destruct (parse_tfrecord cfg raw_record) as [err|data]; [discriminate|].
  destruct (extract_summary_statistics cfg data) as [info|] eqn:Hinfo;
    [|discriminate].
  apply extract_summary_statistics_snid in Hinfo.
  destruct fs.
  - destruct (extract_spectrum cfg data) as [spec|] eqn:Hspec;
      [|discriminate].
    apply extract_spectrum_snid in Hspec. simpl in H. injection H as <-.
    exists info, (if fl then [extract_lightcurve cfg data] else []), [spec].
    simpl. rewrite Hinfo, Hspec.
    destruct fl; simpl; rewrite ?app_nil_r; repeat split; reflexivity.
  - injection H as <-.
    exists info, (if fl then [extract_lightcurve cfg data] else []), [].
    simpl. rewrite Hinfo, ?app_nil_r.
    destruct fl; simpl; rewrite ?app_nil_r; repeat split; reflexivity.
Qed.

(** What a completed loop adds to the accumulators. *)
Lemma run_loop_inv cfg fl fs : forall dataset st st',
  run_loop cfg fl fs st dataset = inr st' ->
  exists infos lcs specs,
    summary_data st' = summary_data st ++ infos /\
    lightcurve_data st' = lightcurve_data st ++ lcs /\
    spectrum_data st' = spectrum_data st ++ specs /\
    count st' = (count st + length dataset)%nat /\
    length infos = length dataset /\
    map proj_snid lcs = (if fl then map snid infos else []) /\
    map proj_snid specs = (if fs then map snid infos else []).
Proof.
  induction dataset as [|r dataset IH]; intros st st' H; simpl in H.
  - injection H as <-. exists [], [], []. rewrite !app_nil_r, Nat.add_0_r.
    destruct fl, fs; repeat split; reflexivity.
  - destruct (loop_body cfg fl fs st r) as [f|st1] eqn:Hb; [discriminate|].
    apply loop_body_inv in Hb
      as (info & lcs1 & specs1 & S1 & L1 & P1 & C1 & ML1 & MP1).
    apply IH in H as (infos & lcs & specs & S2 & L2 & P2 & C2 & Hlen & ML2 & MP2).
    exists (info :: infos), (lcs1 ++ lcs), (specs1 ++ specs).
    rewrite S2, L2, P2, C2, S1, L1, P1, C1, <- !app_assoc, !map_app, ML1, ML2,
      MP1, MP2.
    simpl. rewrite Hlen.
    destruct fl, fs; repeat split; auto; lia.
Qed.

(** X14. In every run that completes, an optional table is written only
    when it was requested and lists the same record ids, in the same
    order, as the summary table; a requested table is missing only when
    no record was processed. *)
Theorem X14_optional_tables_align_with_summary cfg dataset full_lightcurves
    full_spectra limit tables :
  process_tfrecord cfg dataset full_lightcurves full_spectra limit = inr tables ->
  (forall rows, lightcurves_csv tables = Some rows ->
     full_lightcurves = true /\
     map proj_snid rows = map snid (df_summary tables)) /\
  (forall rows, spectra_csv tables = Some rows ->
     full_spectra = true /\
     map proj_snid rows = map snid (df_summary tables)) /\
  (full_lightcurves = true -> lightcurves_csv tables = None ->
     df_summary tables = []) /\
  (full_spectra = true -> spectra_csv tables = None ->
     df_summary tables = []).
Proof.
  unfold process_tfrecord. intros H.
  match type of H with
  | match ?limited with Some _ => _ | None => _ end = _ =>
      destruct limited as [records|]; [|discriminate]
  end.
  destruct (run_loop cfg full_lightcurves full_spectra loop_init records)
    as [f|st] eqn:Hrun; [discriminate|].
  injection H as <-.
  apply run_loop_inv in Hrun
    as (infos & lcs & specs & S & L & P & _ & _ & ML & MP).
  simpl in S, L, P. cbn [df_summary lightcurves_csv spectra_csv].
  rewrite S, L, P.
  assert (Hnil : forall (A B C : Type) (f : A -> C) (g : B -> C)
                   (a : list A) (b : list B),
            map f a = map g b -> a = [] -> b = []).
  { intros A B C f g a b E ->. destruct b; [reflexivity | discriminate]. }
  repeat split.
  - destruct full_lightcurves; [reflexivity | discriminate].
  - destruct full_lightcurves; [|discriminate]. simpl in H.
    destruct lcs; [discriminate|]. injection H as <-. exact ML.
  - destruct full_spectra; [reflexivity | discriminate].
  - destruct full_spectra; [|discriminate]. simpl in H.
    destruct specs; [discriminate|]. injection H as <-. exact MP.
  - intros -> Hnone. simpl in Hnone.
    destruct lcs; [|discriminate]. eapply Hnil; eauto.
  - intros -> Hnone. simpl in Hnone.
    destruct specs; [|discriminate]. eapply Hnil; eauto.
Qed.

Lemma X14_on_two_scenario_records :
  exists tables,
    process_tfrecord SCENARIO [scenario_record; scenario_record] true false None
    = inr tables /\
    (forall rows, lightcurves_csv tables = Some rows ->
       map proj_snid rows = map snid (df_summary tables)) /\
    spectra_csv tables = None.
Proof.
  assert (H : exists tables,
             process_tfrecord SCENARIO [scenario_record; scenario_record]
                              true false None = inr tables)
    by (eexists; vm_compute; reflexivity).
  destruct H as [tables H]. exists tables. split; [exact H|].
  destruct (X14_optional_tables_align_with_summary SCENARIO
              [scenario_record; scenario_record] true false None tables H)
    as (H1 & H2 & _).
  split.
  - intros rows Hrows. exact (proj2 (H1 rows Hrows)).
  - destruct (spectra_csv tables) as [rows|]; [|reflexivity].
    destruct (H2 rows eq_refl) as [Hreq _]. discriminate Hreq.
Defined.

Lemma run_loop_prefix cfg fl fs dataset st st' N :
  run_loop cfg fl fs st dataset = inr st' ->
  exists st1,
    run_loop cfg fl fs st (firstn N dataset) = inr st1 /\
    run_loop cfg fl fs st1 (skipn N dataset) = inr st'.
Proof.
  intros H. rewrite <- (firstn_skipn N dataset), run_loop_app in H.
  destruct (run_loop cfg fl fs st (firstn N dataset)) as [f|st1];
    [discriminate|].
  exists st1. split; [reflexivity | exact H].
Qed.

Lemma firstn_cap {A} (a b : list A) N M :
  length a = Nat.min N M -> length b = (M - N)%nat ->
  firstn N (a ++ b) = a.
Proof.
  intros Ha Hb. rewrite firstn_app, (firstn_all2 a) by lia.
  destruct (Nat.le_gt_cases N M).
  - replace (N - length a)%nat with 0%nat by lia. apply app_nil_r.
  - destruct b; [now rewrite firstn_nil, app_nil_r | simpl in Hb; lia].
Qed.

(** X15. A cap [N >= 1] inside the 64-bit range truncates: when the run
    without a cap completes, the run with the cap completes too, and
    each of its tables is the first [N] rows of the corresponding table
    of the run without a cap. *)
Theorem X15_cap_truncates_the_tables cfg dataset full_lightcurves full_spectra
    N all :
  (1 <= N)%nat -> (Z.of_nat N < 2 ^ 63)%Z ->
  process_tfrecord cfg dataset full_lightcurves full_spectra None = inr all ->
  exists capped,
    process_tfrecord cfg dataset full_lightcurves full_spectra
                     (Some (Z.of_nat N)) = inr capped /\
    df_summary capped = firstn N (df_summary all) /\
    lightcurves_csv capped = option_map (firstn N) (lightcurves_csv all) /\
    spectra_csv capped = option_map (firstn N) (spectra_csv all).
Proof.
  intros HN Hr. unfold process_tfrecord.
  rewrite truthy_nonzero by lia.
  rewrite take_Some by (apply in_int64_spec; lia).
  destruct (Z.ltb_spec (Z.of_nat N) 0) as [|_]; [lia|].
  rewrite Nat2Z.id.
  destruct (run_loop cfg full_lightcurves full_spectra loop_init dataset)
    as [f|st] eqn:Hrun; [discriminate|].
  intros [= <-].
  destruct (run_loop_prefix _ _ _ _ _ _ N Hrun) as (st1 & H1 & H2).
  rewrite H1. eexists. split; [reflexivity|].
  apply run_loop_inv in H1
    as (i1 & l1 & p1 & S1 & L1 & P1 & _ & Len1 & ML1 & MP1).
  apply run_loop_inv in H2
    as (i2 & l2 & p2 & S2 & L2 & P2 & _ & Len2 & ML2 & MP2).
  simpl in S1, L1, P1. rewrite S1 in S2. rewrite L1 in L2. rewrite P1 in P2.
  cbn [df_summary lightcurves_csv spectra_csv].
  rewrite S1, L1, P1, S2, L2, P2.
  rewrite length_firstn in Len1. rewrite length_skipn in Len2.
  assert (Hl1 : length l1 = if full_lightcurves then length i1 else 0%nat)
    by (rewrite <- (length_map proj_snid), ML1;
        destruct full_lightcurves; [apply length_map | reflexivity]).
  assert (Hl2 : length l2 = if full_lightcurves then length i2 else 0%nat)
    by (rewrite <- (length_map proj_snid), ML2;
        destruct full_lightcurves; [apply length_map | reflexivity]).
  assert (Hp1 : length p1 = if full_spectra then length i1 else 0%nat)
    by (rewrite <- (length_map proj_snid), MP1;
        destruct full_spectra; [apply length_map | reflexivity]).
  assert (Hp2 : length p2 = if full_spectra then length i2 else 0%nat)
    by (rewrite <- (length_map proj_snid), MP2;
        destruct full_spectra; [apply length_map | reflexivity]).
  split; [symmetry; now apply (firstn_cap _ _ N (length dataset))|].
  split.
  - destruct full_lightcurves; [|reflexivity]. simpl.
    assert (E : firstn N (l1 ++ l2) = l1)
      by (apply (firstn_cap _ _ N (length dataset)); lia).
    destruct l1 as [|x l1]; simpl.
    + destruct l2 as [|y l2]; [reflexivity|]. simpl in *. lia.
    + simpl in E. now rewrite E.
  - destruct full_spectra; [|reflexivity]. simpl.
    assert (E : firstn N (p1 ++ p2) = p1)
      by (apply (firstn_cap _ _ N (length dataset)); lia).
    destruct p1 as [|x p1]; simpl.
    + destruct p2 as [|y p2]; [reflexivity|]. simpl in *. lia.
    + simpl in E. now rewrite E.
Qed.

Lemma X15_on_three_scenario_records :
  (1 <= 2)%nat /\ (Z.of_nat 2 < 2 ^ 63)%Z /\
  exists all capped,
    process_tfrecord SCENARIO [scenario_record; scenario_record; scenario_record]
                     true true None = inr all /\
    process_tfrecord SCENARIO [scenario_record; scenario_record; scenario_record]
                     true true (Some 2%Z) = inr capped /\
    df_summary capped = firstn 2 (df_summary all).
Proof.
  assert (HN : (1 <= 2)%nat) by lia.
  assert (Hr : (Z.of_nat 2 < 2 ^ 63)%Z) by (vm_compute; reflexivity).
  assert (H : exists all,
             process_tfrecord SCENARIO
               [scenario_record; scenario_record; scenario_record]
               true true None = inr all)
    by (eexists; vm_compute; reflexivity).
  destruct H as [all H].
  split; [exact HN|]. split; [exact Hr|]. exists all.
  destruct (X15_cap_truncates_the_tables SCENARIO
              [scenario_record; scenario_record; scenario_record]
              true true 2 all HN Hr H) as (capped & Hc & Hs & _).
  exists capped. split; [exact H|]. split; assumption.
Defined.
